(** * The Arrow Game: rules and resolution engine

    A shallow embedding of the game logic of [main.js]: the arrow taxonomy and
    [action_triples], [classifyAction], [resolveEdgeError], the move handler
    [handleAction], the gravity functions ([getAnimationEnvironment],
    [applyGravitySteps], [applyActionGravity] and the animation callbacks) and
    [endGameCheck]; then the next arrows ([getRandomArrow],
    [updateNextArrows], [swapNextArrows]), [clearGrid] and [loadNewGame], the
    grid loops of [saveGame] and [initializeGame], and the listeners that
    drop the next arrow and drag a grid cell.

    Conventions.
    - A JavaScript number that reaches the engine is an integer or [NaN]
      (the result of [parseInt] on a non-numeric string): type [jsnum].
    - [dataset.status] of a grid cell is a string: the decimal rendering of a
      number, or the marker ["animatingto"]: type [status].
    - The 25 grid cells [cell0 .. cell24] are a list indexed by cell id;
      [document.getElementById] on any other id is [null], and reading
      [.dataset] of [null] throws: functions that touch the DOM return
      [option], with [None] for a thrown [TypeError].
    - [score] and [spins_remaining] hold a number or a string: type
      [jsval], with [+=] as JavaScript has it on either.
    - Pointer coordinates are rationals; [Math.floor(p / 60)] is [Qfloor].
      A value of [Math.random()] is a rational, passed as an argument.
    - A gravity animation is a chain of [finished.then] callbacks.  The
      state keeps the animations in flight; the callbacks of the animations
      that end in one frame run in the order the animations were started
      ([frame]), and each may start the next animation of its chain.
    - Styling, clones and the landing animation have no effect on the game
      state and are left out. *)

From Stdlib Require Import ZArith QArith Qround Lia.
From Stdlib Require Import Strings.String Numbers.DecimalString.
From stdpp Require Import base option list.

Open Scope Z_scope.

(** ** Numbers and cell statuses *)

Inductive jsnum : Type :=
| Int (n : Z)
| NaN.

Inductive status : Type :=
| Num (x : jsnum)      (* String(x): "0", "7", ... *)
| AnimatingTo.         (* "animatingto" *)

Definition parseInt (s : status) : jsnum :=
  match s with
  | Num x => x
  | AnimatingTo => NaN
  end.

(** [a === b] on numbers: [NaN] is equal to nothing. *)
Definition strict_eq (a b : jsnum) : bool :=
  match a, b with
  | Int x, Int y => x =? y
  | _, _ => false
  end.

(** [l.includes(x)] for a list of integers. *)
Definition includes (l : list Z) (x : jsnum) : bool :=
  match x with
  | Int n => existsb (Z.eqb n) l
  | NaN => false
  end.

(** [a + b] and [a % b] ([%] truncates towards zero, like [Z.rem]). *)
Definition js_add (a b : jsnum) : jsnum :=
  match a, b with
  | Int x, Int y => Int (x + y)
  | _, _ => NaN
  end.

Definition js_rem (a : jsnum) (m : Z) : jsnum :=
  match a with
  | Int x => if m =? 0 then NaN else Int (Z.rem x m)
  | NaN => NaN
  end.

(** ** The counters

    [score] and [spins_remaining] hold a number, or a string: on a saved
    game without a numeric entry [initializeGame] assigns the strings ["0"]
    and ["3"], and [+=] then concatenates. *)
Inductive jsval : Type :=
| VNum (x : jsnum)
| VStr (s : string).

Definition number (n : Z) : jsval := VNum (Int n).

(** [String(n)] for an integer [n]. *)
Definition decimal (n : Z) : string := NilZero.string_of_int (Z.to_int n).

(** [v += n] for an integer [n]: the sum when [v] is a number, the
    concatenation of [v] and [String(n)] when [v] is a string. *)
Definition js_plus (v : jsval) (n : Z) : jsval :=
  match v with
  | VNum a => VNum (js_add a (Int n))
  | VStr s => VStr (s ++ decimal n)
  end.

(** [Number(v)], as [--v] computes it.  A string of decimal digits, with a
    minus sign or not, is its number and the empty string is 0; every other
    string is taken to [NaN] (the strings the engine builds here are ["3"]
    followed by ["1"]s). *)
Definition to_number (v : jsval) : jsnum :=
  match v with
  | VNum a => a
  | VStr EmptyString => Int 0
  | VStr s =>
      match NilZero.int_of_string s with
      | Some d => Int (Z.of_int d)
      | None => NaN
      end
  end.

(** [v === 0] and [--v]. *)
Definition is_number_zero (v : jsval) : bool :=
  match v with
  | VNum a => strict_eq a (Int 0)
  | VStr _ => false
  end.

Definition js_decrement (v : jsval) : jsval :=
  VNum (js_add (to_number v) (Int (-1))).

(** [s === "0"] and [s === "animatingto"]. *)
Definition is_zero (s : status) : bool :=
  match s with
  | Num (Int 0) => true
  | _ => false
  end.

Definition is_animatingto (s : status) : bool :=
  match s with
  | AnimatingTo => true
  | _ => false
  end.

(** ** Arrow taxonomy *)

Definition basic_arr : list Z := [1; 5; 8; 3; 10; 4; 2; 7].
Definition mid_arr1 : list Z := [14; 9].
Definition mid_arr2 : list Z := [6; 11].
Definition mid_arr : list Z := [14; 9; 6; 11].
Definition max_arr : list Z := [17; 23; 40].
Definition arrows : list Z :=
  [1; 5; 8; 3; 10; 4; 2; 7; 14; 9; 6; 11; 17; 23; 40].

(** An entry of [action_triples]: [[valid_dist, inv]] for a one-directional
    arrow, [[[dists, cancel], inv]] for a two-directional one. *)
Inductive triple : Type :=
| Simple (valid_dist inv : Z)
| Double (dists : list Z) (cancel inv : Z).

Definition action_triples (k : Z) : option triple :=
  match k with
  | 1 => Some (Simple 5 5)
  | 5 => Some (Simple (-5) 1)
  | 8 => Some (Simple 1 3)
  | 3 => Some (Simple (-1) 8)
  | 2 => Some (Simple 4 7)
  | 7 => Some (Simple (-4) 2)
  | 10 => Some (Simple 6 4)
  | 4 => Some (Simple (-6) 10)
  | 11 => Some (Double [1; 5] 1 6)
  | 6 => Some (Double [1; 5] 5 11)
  | 9 => Some (Double [4; 6] 4 14)
  | 14 => Some (Double [4; 6] 6 9)
  | _ => None
  end.

Definition triple_of (a : jsnum) : option triple :=
  match a with
  | Int n => action_triples n
  | NaN => None
  end.

(** ** Action classifier *)

Inductive action : Type :=
| Merge
| Combine
| Cancel
| NoAction.            (* -1 *)

Definition classifyAction (arrow1 arrow2 : jsnum) (dist : Z) : action :=
  if includes basic_arr arrow1 then
    match triple_of arrow1 with
    | Some (Simple valid_dist inv) =>
        if strict_eq arrow1 arrow2 && (Z.abs dist =? Z.abs valid_dist) then Merge
        else if strict_eq arrow2 (Int inv) && (dist =? valid_dist) then Combine
        else if strict_eq arrow2 (Int inv) && (dist =? - valid_dist) then Cancel
        else NoAction
    | _ => NoAction
    end
  else if includes mid_arr arrow1 then
    match triple_of arrow1 with
    | Some (Double dists cancel inv) =>
        if strict_eq arrow1 arrow2 && (Z.abs dist =? cancel) then Cancel
        else if strict_eq arrow2 (Int inv) && existsb (Z.eqb (Z.abs dist)) dists
        then Combine
        else NoAction
    | _ => NoAction
    end
  else if existsb (Z.eqb (Z.abs dist)) [1; 4; 5; 6] then
    if strict_eq arrow1 arrow2 && strict_eq arrow1 (Int 40) then Cancel
    else if (strict_eq arrow1 (Int 17) && strict_eq arrow2 (Int 23))
            || (strict_eq arrow1 (Int 23) && strict_eq arrow2 (Int 17))
    then Combine
    else NoAction
  else NoAction.

(** The tier score [u] of [handleAction]. *)
Definition tier_score (src_content : jsnum) : Z :=
  if includes basic_arr src_content then 2
  else if includes mid_arr src_content then 4
  else if strict_eq src_content (Int 40) then 9
  else 6.

(** The amount [handleAction] adds to [score] for each kind of action. *)
Definition score_delta (a : action) (u : Z) : Z :=
  match a with
  | Merge => 2
  | Combine => 2 ^ (u + 1)
  | Cancel => 2 ^ u + 2
  | NoAction => 0
  end.

(** ** Board geometry and the edge resolver *)

Definition grid_id (i j : Z) : Z := i * 5 + j.

Definition grid_indices (n : Z) : Z * Z :=
  (Z.quot (n - Z.rem n 5) 5, Z.rem n 5).

Definition cell_in_gravity_range (i j : Z) : bool :=
  (0 <=? i) && (i <=? 4) && (0 <=? j) && (j <=? 4).

Definition resolveEdgeError (src dest : Z * Z) (dist : Z) : bool :=
  let dist := Z.abs dist in
  let src_r := fst src in
  let dest_r := fst dest in
  let grid_size := 5 in
  if dist =? grid_size then true
  else if dist =? 1 then src_r =? dest_r
  else if (dist =? grid_size - 1) || (dist =? grid_size + 1)
  then Z.abs (src_r - dest_r) =? 1
  else true.

(** ** Game state *)

(** An animation environment ([anim_env]): ['cell'] is the grid cell at
    [cell_index], ['next_cell'] the one a row below it, ['content'] the status
    string being moved. *)
Record anim_env : Type := mkEnv {
  env_row : Z;
  env_col : Z;
  env_content : status;
}.

(** The four chained animations of [applyGravitySteps]. *)
Inductive stage : Type := Anim1 | Anim2 | Anim3 | Anim4.

(** A gravity animation in flight: its environment, the arguments [i], [j]
    of the [applyGravitySteps] call that started it, and which of the four
    animations is playing. *)
Record animation : Type := mkAnim {
  anim_environment : anim_env;
  anim_i : Z;
  anim_j : Z;
  anim_stage : stage;
}.

Record game : Type := mkGame {
  cells : list status;            (* dataset.status of cell0 .. cell24 *)
  score : jsval;                  (* a number, or a string after a restore *)
  spins_remaining : jsval;
  arrows_placed : Z;
  animating_columns : list Z;
  next_arrow : option Z;          (* null or an arrow id *)
  next_next_arrow : option Z;
  in_flight : list animation;     (* running animations, oldest first *)
  game_over : bool;               (* endGameMenu has been opened *)
}.

Definition set_cells (c : list status) (st : game) : game :=
  mkGame c (score st) (spins_remaining st) (arrows_placed st)
         (animating_columns st) (next_arrow st) (next_next_arrow st)
         (in_flight st) (game_over st).

Definition set_score (s : jsval) (st : game) : game :=
  mkGame (cells st) s (spins_remaining st) (arrows_placed st)
         (animating_columns st) (next_arrow st) (next_next_arrow st)
         (in_flight st) (game_over st).

Definition set_spins_remaining (s : jsval) (st : game) : game :=
  mkGame (cells st) (score st) s (arrows_placed st)
         (animating_columns st) (next_arrow st) (next_next_arrow st)
         (in_flight st) (game_over st).

Definition set_arrows_placed (a : Z) (st : game) : game :=
  mkGame (cells st) (score st) (spins_remaining st) a
         (animating_columns st) (next_arrow st) (next_next_arrow st)
         (in_flight st) (game_over st).

Definition set_animating_columns (l : list Z) (st : game) : game :=
  mkGame (cells st) (score st) (spins_remaining st) (arrows_placed st)
         l (next_arrow st) (next_next_arrow st)
         (in_flight st) (game_over st).

Definition set_next_arrows (a b : option Z) (st : game) : game :=
  mkGame (cells st) (score st) (spins_remaining st) (arrows_placed st)
         (animating_columns st) a b (in_flight st) (game_over st).

Definition set_in_flight (l : list animation) (st : game) : game :=
  mkGame (cells st) (score st) (spins_remaining st) (arrows_placed st)
         (animating_columns st) (next_arrow st) (next_next_arrow st)
         l (game_over st).

Definition set_game_over (b : bool) (st : game) : game :=
  mkGame (cells st) (score st) (spins_remaining st) (arrows_placed st)
         (animating_columns st) (next_arrow st) (next_next_arrow st)
         (in_flight st) b.

(** [document.getElementById("cell" + id).dataset.status]; [None] when there
    is no such element. *)
Definition cell_status (st : game) (id : Z) : option status :=
  if id <? 0 then None else cells st !! Z.to_nat id.

(** [document.getElementById("cell" + id).dataset.status = s]. *)
Definition set_status (id : Z) (s : status) (st : game) : option game :=
  if (0 <=? id) && (id <? Z.of_nat (length (cells st)))
  then Some (set_cells (<[Z.to_nat id := s]> (cells st)) st)
  else None.

Definition status_zero : status := Num (Int 0).

(** [animating_columns.includes(j)], [remove_element]. *)
Definition is_animating (st : game) (j : Z) : bool :=
  existsb (Z.eqb j) (animating_columns st).

Definition remove_element (l : list Z) (elem : Z) : list Z :=
  filter (fun x => x ≠ elem) l.

Definition can_be_dropped_to (i j : Z) (st : game) : option bool :=
  if negb (cell_in_gravity_range i j) then Some false
  else s ← cell_status st (grid_id i j); Some (is_zero s).

(** ** Gravity *)

Definition updateGridCell (i j : Z) (content : status) (st : game)
  : option (game * bool) :=
  if is_animating st j then Some (st, false)
  else st' ← set_status (grid_id i j) content st; Some (st', true).

(** [None] in the second component is the empty environment [{}]. *)
Definition getAnimationEnvironment (i j : Z) (st : game)
  : option (game * option anim_env) :=
  if negb (cell_in_gravity_range i j) then Some (st, None)
  else
    droppable ← can_be_dropped_to (i + 1) j st;
    if negb droppable then Some (st, None)
    else
      let st1 :=
        if is_animating st j then st
        else set_animating_columns (animating_columns st ++ [j]) st in
      content ← cell_status st1 (grid_id i j);
      st2 ← set_status (grid_id i j) status_zero st1;
      st3 ← set_status (grid_id (i + 1) j) AnimatingTo st2;
      Some (st3, Some (mkEnv i j content)).

Definition updateEnvironmentMidAnimation (e : anim_env) (st : game)
  : option (game * anim_env) :=
  st1 ← set_status (grid_id (env_row e) (env_col e)) status_zero st;
  let new_row := env_row e + 1 in
  let same_col := env_col e in
  st2 ← set_status (grid_id (new_row + 1) same_col) AnimatingTo st1;
  st3 ← set_status (grid_id new_row same_col) status_zero st2;
  Some (st3, mkEnv new_row same_col (env_content e)).

Definition updateEnvironmentPostAnimation (e : anim_env) (st : game)
  : option game :=
  let st1 :=
    if is_animating st (env_col e)
    then set_animating_columns
           (remove_element (animating_columns st) (env_col e)) st
    else st in
  next ← cell_status st1 (grid_id (env_row e + 1) (env_col e));
  st2 ← (if is_animatingto next
         then fst <$> updateGridCell (env_row e + 1) (env_col e)
                                     (env_content e) st1
         else Some st1);
  cur ← cell_status st2 (grid_id (env_row e) (env_col e));
  if is_zero cur
  then set_status (grid_id (env_row e) (env_col e)) status_zero st2
  else Some st2.

Definition start_animation (a : animation) (st : game) : game :=
  set_in_flight (in_flight st ++ [a]) st.

(** The synchronous part of [applyGravitySteps]: build the environment and
    start the first animation.  (Both of its return values, [false] and
    [undefined], are falsy; they only select a landing animation.) *)
Definition applyGravitySteps (i j : Z) (st : game) : option game :=
  r ← getAnimationEnvironment i j st;
  match r with
  | (st1, None) => Some st1
  | (st1, Some e) => Some (start_animation (mkAnim e i j Anim1) st1)
  end.

(** One [finished.then] callback of [applyGravitySteps]: after animation
    [k] the arrow keeps falling if cell [(i+k+1, j)] can be dropped to,
    otherwise the environment is closed. *)
Definition continue_or_land (a : animation) (row : Z) (next : stage)
    (st : game) : option game :=
  droppable ← can_be_dropped_to row (anim_j a) st;
  if (droppable : bool) then
    r ← updateEnvironmentMidAnimation (anim_environment a) st;
    Some (start_animation (mkAnim (snd r) (anim_i a) (anim_j a) next) (fst r))
  else updateEnvironmentPostAnimation (anim_environment a) st.

Definition on_finished (a : animation) (st : game) : option game :=
  match anim_stage a with
  | Anim1 => continue_or_land a (anim_i a + 2) Anim2 st
  | Anim2 => continue_or_land a (anim_i a + 3) Anim3 st
  | Anim3 => continue_or_land a (anim_i a + 4) Anim4 st
  | Anim4 => updateEnvironmentPostAnimation (anim_environment a) st
  end.

(** [applyActionGravity] recurses on [i - 1] and stops below row 0; the
    fuel bounds the depth of that recursion. *)
Fixpoint applyActionGravity_rec (fuel : nat) (i j : Z) (st : game)
  : option game :=
  match fuel with
  | O => None
  | S fuel' =>
      if (i <? 0) || (j <? 0) || (i >=? 4) || (j >? 4) then Some st
      else
        s ← cell_status st (grid_id i j);
        if is_zero s || is_animatingto s then Some st
        else
          st1 ← applyGravitySteps i j st;
          applyActionGravity_rec fuel' (i - 1) j st1
  end.

Definition applyActionGravity (i j : Z) (st : game) : option game :=
  applyActionGravity_rec 5 i j st.

(** All animations started in one task last [gravity_duration] and finish
    in the same frame; their callbacks run in the order the animations were
    started.  [frame] runs the callbacks of every animation in flight;
    the animations they start are the ones in flight afterwards. *)
Fixpoint fire_all (l : list animation) (st : game) : option game :=
  match l with
  | [] => Some st
  | a :: rest => st1 ← on_finished a st; fire_all rest st1
  end.

Definition frame (st : game) : option game :=
  fire_all (in_flight st) (set_in_flight [] st).

Fixpoint run_frames (n : nat) (st : game) : option game :=
  match n with
  | O => Some st
  | S n' =>
      match in_flight st with
      | [] => Some st
      | _ => st1 ← frame st; run_frames n' st1
      end
  end.

(** An arrow falls at most four rows. *)
Definition settle (st : game) : option game := run_frames 4 st.

(** ** New arrows *)

Definition insertNewArrow (i j : Z) (content : status) (st : game)
  : option (game * bool) :=
  if is_animating st j then Some (st, false)
  else if (i <? 0) || (j <? 0) || (i >? 4) || (j >? 4) then Some (st, false)
  else
    s ← cell_status st (grid_id i j);
    if negb (is_zero s) then Some (st, false)
    else
      st1 ← set_status (grid_id i j) content st;
      st2 ← applyGravitySteps i j st1;
      Some (st2, true).

Definition swapNextArrows (st : game) : game :=
  if is_number_zero (spins_remaining st) then st
  else
    let st1 := set_spins_remaining (js_decrement (spins_remaining st)) st in
    set_next_arrows (next_next_arrow st1) (next_arrow st1) st1.

(** ** Move resolver *)

(** [1 <= x && x <= 299 && 1 <= y && y <= 299] on pointer coordinates
    relative to the grid. *)
Definition in_grid (x y : Q) : bool :=
  Qle_bool 1 x && Qle_bool x 299 && Qle_bool 1 y && Qle_bool y 299.

(** [Math.floor(p / 60)]. *)
Definition pixel_cell (p : Q) : Z := Qfloor (p / 60).

(** The calls to [applyActionGravity] that end [handleAction], in order. *)
Definition gravity_calls (src_content dest_content : jsnum) (action_dist : Z)
    (origin : Z * Z) (cell_i cell_j : Z) (new_src_content new_dest_content : jsnum)
  : list (Z * Z) :=
  if strict_eq src_content (Int 1) && strict_eq dest_content (Int 5)
     && (action_dist =? -5)
  then [(cell_i - 1, cell_j)]
  else if strict_eq src_content (Int 5) && strict_eq dest_content (Int 1)
          && (action_dist =? 5)
  then [(fst origin - 1, snd origin)]
  else
    (if strict_eq new_src_content (Int 0)
     then [(fst origin - 1, snd origin)] else [])
    ++ (if strict_eq new_dest_content (Int 0)
        then [(cell_i - 1, cell_j)] else []).

(** How far [handleAction] got before gravity. *)
Inductive resolution : Type :=
| OutsideGrid (st : game)       (* the pointer was released off the grid *)
| Rejected (st : game)          (* return -1 *)
| Applied (st : game) (calls : list (Z * Z)).
                                (* both cells rewritten; gravity to apply *)

(** The first part of [handleAction], up to and including the two
    [updateGridCell] calls.  [origin] and [clone_status] are
    [cell_clone.dataset.origin] and [cell_clone.dataset.status]. *)
Definition handleAction_resolve (st : game) (origin : Z)
    (clone_status : status) (x y : Q) : option resolution :=
  if in_grid x y then
    let cell_i := pixel_cell y in
    let cell_j := pixel_cell x in
    if is_animating st cell_j || is_animating st (Z.rem origin 5)
    then Some (Rejected st)
    else
      let src_content := parseInt clone_status in
      dest_status ← cell_status st (grid_id cell_i cell_j);
      let dest_content := parseInt dest_status in
      let origin_ij := grid_indices origin in
      let action_dist := grid_id cell_i cell_j - origin in
      if negb (resolveEdgeError origin_ij (cell_i, cell_j) action_dist)
      then Some (Rejected st)
      else
        let action := classifyAction src_content dest_content action_dist in
        let u := tier_score src_content in
        let write (st1 : game) (new_src_content new_dest_content : jsnum) :=
          r1 ← updateGridCell (fst origin_ij) (snd origin_ij)
                              (Num new_src_content) st1;
          r2 ← updateGridCell cell_i cell_j (Num new_dest_content) (fst r1);
          Some (Applied (fst r2)
                  (gravity_calls src_content dest_content action_dist
                     origin_ij cell_i cell_j new_src_content new_dest_content))
        in
        match action with
        | Merge =>
            let st1 := set_score (js_plus (score st) 2) st in
            let st2 := set_arrows_placed (arrows_placed st1 - 1) st1 in
            write st2 (Int 0) src_content
        | Combine =>
            let st1 := set_score (js_plus (score st) (2 ^ (u + 1))) st in
            let st2 := set_arrows_placed (arrows_placed st1 - 1) st1 in
            write st2 (Int 0) (js_rem (js_add src_content dest_content) 80)
        | Cancel =>
            let st1 :=
              if strict_eq (js_add src_content dest_content) (Int 80)
              then set_spins_remaining (js_plus (spins_remaining st) 1) st
              else st in
            let st2 := set_score (js_plus (score st1) (2 ^ u + 2)) st1 in
            let st3 := set_arrows_placed (arrows_placed st2 - 2) st2 in
            write st3 (Int 0) (Int 0)
        | NoAction => Some (Rejected st)
        end
  else Some (OutsideGrid st).

Fixpoint apply_gravity_calls (calls : list (Z * Z)) (st : game)
  : option game :=
  match calls with
  | [] => Some st
  | (i, j) :: rest =>
      st1 ← applyActionGravity i j st; apply_gravity_calls rest st1
  end.

Inductive retval : Type := Minus1 | Undefined.

Definition handleAction (st : game) (origin : Z) (clone_status : status)
    (x y : Q) : option (game * retval) :=
  r ← handleAction_resolve st origin clone_status x y;
  match r with
  | OutsideGrid st1 => Some (st1, Undefined)
  | Rejected st1 => Some (st1, Minus1)
  | Applied st1 calls =>
      st2 ← apply_gravity_calls calls st1; Some (st2, Undefined)
  end.

(** ** End-game check *)

Definition action_dists : list Z := [-6; -5; -4; -1; 1; 4; 5; 6].

Definition getNeighbors (cell_id : Z) : list Z :=
  map (fun n => cell_id + n) action_dists.

Definition is_no_action (a : action) : bool :=
  match a with
  | NoAction => true
  | _ => false
  end.

Definition canCombine (src : Z) (src_content : jsnum) (dest : Z)
    (dest_content : jsnum) (dist : Z) : bool :=
  (src >=? 0) && (dest >=? 0) && (src <=? 24) && (dest <=? 24)
  && resolveEdgeError (grid_indices src) (grid_indices dest) dist
  && negb (is_no_action (classifyAction src_content dest_content dist)).

(** The inner loop of [endGameCheck] over [neighbors[j]], and the outer
    loop over the cells.  Both return the pairs handed to [canCombine], in
    order, and whether one of them made the function return [false]. *)
Fixpoint scan_neighbors (st : game) (i : Z) (content_i : jsnum)
    (neighbors : list Z) : option (list (Z * Z) * bool) :=
  match neighbors with
  | [] => Some ([], false)
  | n :: rest =>
      if (0 <=? n) && (n <? 25) then
        s ← cell_status st n;
        let content_n := parseInt s in
        if canCombine i content_i n content_n (i - n)
        then Some ([(i, n)], true)
        else
          r ← scan_neighbors st i content_i rest;
          Some ((i, n) :: fst r, snd r)
      else scan_neighbors st i content_i rest
  end.

Fixpoint scan_cells (st : game) (ids : list Z)
  : option (list (Z * Z) * bool) :=
  match ids with
  | [] => Some ([], false)
  | i :: rest =>
      s ← cell_status st i;
      let content_i := parseInt s in
      r ← scan_neighbors st i content_i (getNeighbors i);
      if (snd r : bool) then Some r
      else
        r' ← scan_cells st rest;
        Some (fst r ++ fst r', snd r')
  end.

Definition cell_ids : list Z := map Z.of_nat (seq 0 25).

Definition endGameMenu (st : game) : game := set_game_over true st.

Definition endGameCheck (st : game) : option (game * bool) :=
  r ← scan_cells st cell_ids;
  if (snd r : bool) then Some (st, false)
  else Some (endGameMenu st, true).

(** The pairs [canCombine] was called on during [endGameCheck]. *)
Definition endGameCheck_visited (st : game) : option (list (Z * Z)) :=
  fst <$> scan_cells st cell_ids.

(** ** Vocabulary of the specification *)

(** The cell the pointer was released on. *)
Definition dest_id (x y : Q) : Z := grid_id (pixel_cell y) (pixel_cell x).

(** What an accepted action leaves in the destination cell, the swaps it
    grants and the number of arrows it takes off the grid. *)
Definition action_dest_content (a : action) (src dest : jsnum) : jsnum :=
  match a with
  | Merge => src
  | Combine => js_rem (js_add src dest) 80
  | _ => Int 0
  end.

Definition action_bonus (a : action) (src dest : jsnum) : Z :=
  match a with
  | Cancel => if strict_eq (js_add src dest) (Int 80) then 1 else 0
  | _ => 0
  end.

Definition action_arrows_removed (a : action) : Z :=
  match a with
  | Cancel => 2
  | NoAction => 0
  | _ => 1
  end.

(** The state after an accepted action has rewritten its two cells. *)
Definition resolved (st : game) (a : action) (src dest : jsnum)
    (origin dest_cell : Z) : game :=
  mkGame (<[Z.to_nat dest_cell := Num (action_dest_content a src dest)]>
            (<[Z.to_nat origin := status_zero]> (cells st)))
         (js_plus (score st) (score_delta a (tier_score src)))
         (if action_bonus a src dest =? 0 then spins_remaining st
          else js_plus (spins_remaining st) (action_bonus a src dest))
         (arrows_placed st - action_arrows_removed a)
         (animating_columns st) (next_arrow st) (next_next_arrow st)
         (in_flight st) (game_over st).

(** A move is ready to be classified: released on the grid, neither column
    is animating, both cells exist and the edge resolver accepts it. *)
Definition move_admitted (st : game) (origin : Z) (x y : Q) : Prop :=
  in_grid x y = true
  /\ is_animating st (pixel_cell x) = false
  /\ is_animating st (Z.rem origin 5) = false
  /\ length (cells st) = 25%nat
  /\ 0 <= origin < 25
  /\ resolveEdgeError (grid_indices origin) (pixel_cell y, pixel_cell x)
                      (dest_id x y - origin) = true.

(** The five cells of column [j], top to bottom. *)
Definition column (st : game) (j : Z) : list (option status) :=
  map (fun i => cell_status st (grid_id i j)) [0; 1; 2; 3; 4].

Definition is_empty_cell (c : option status) : bool :=
  match c with
  | Some s => is_zero s
  | None => false
  end.

Definition is_numeral (c : option status) : bool :=
  match c with
  | Some (Num (Int _)) => true
  | _ => false
  end.

(** Cell [(i, j)] is not empty and the cell directly beneath it is. *)
Definition floating (st : game) (i j : Z) : bool :=
  match cell_status st (grid_id i j), cell_status st (grid_id (i + 1) j) with
  | Some a, Some b => negb (is_zero a) && is_zero b
  | _, _ => false
  end.

Definition settled_column (st : game) (j : Z) : bool :=
  forallb (fun i => negb (floating st i j)) [0; 1; 2; 3].

(** The column holds numbers only, and the only cell that may have an empty
    cell directly beneath it is the one in row [i]: the column was settled
    before the cells under row [i] were vacated. *)
Definition only_floating (st : game) (i j : Z) : bool :=
  forallb (fun r => implb (floating st r j) (r =? i)) [0; 1; 2; 3].

Definition column_ready (st : game) (i j : Z) : bool :=
  forallb is_numeral (column st j) && only_floating st i j.

(** No gravity animation is running. *)
Definition at_rest (st : game) : Prop :=
  in_flight st = [] /\ animating_columns st = [].

(** The arrows of a column dropped to the bottom, order kept. *)
Definition compact (l : list (option status)) : list (option status) :=
  List.filter is_empty_cell l ++ List.filter (fun c => negb (is_empty_cell c)) l.

(** [applyActionGravity i j] followed by every animation frame it causes:
    the animations still in flight, whether column [j] is settled, and the
    column. *)
Definition gravity_outcome (st : game) (i j : Z)
  : option (list animation * bool * list (option status)) :=
  st1 ← applyActionGravity i j st;
  st2 ← settle st1;
  Some (in_flight st2, settled_column st2 j, column st2 j).

(** [insertNewArrow i j content] followed by every animation frame it
    causes: whether the arrow was accepted, and the same three results. *)
Definition drop_outcome (st : game) (i j : Z) (content : status)
  : option (bool * list animation * bool * list (option status)) :=
  r ← insertNewArrow i j content st;
  st2 ← settle (fst r);
  Some (snd r, in_flight st2, settled_column st2 j, column st2 j).

(** The state-changing operations of the engine. *)
Inductive engine_step : game -> game -> Prop :=
| step_move st origin clone_status x y st' r :
    handleAction st origin clone_status x y = Some (st', r) ->
    engine_step st st'
| step_insert st i j content st' ok :
    insertNewArrow i j content st = Some (st', ok) ->
    engine_step st st'
| step_callback st before a after st' :
    in_flight st = before ++ a :: after ->
    on_finished a (set_in_flight (before ++ after) st) = Some st' ->
    engine_step st st'
| step_frame st st' :
    frame st = Some st' ->
    engine_step st st'
| step_swap st :
    engine_step st (swapNextArrows st)
| step_end_check st st' r :
    endGameCheck st = Some (st', r) ->
    engine_step st st'.

Inductive engine_steps : game -> game -> Prop :=
| steps_refl st : engine_steps st st
| steps_cons st1 st2 st3 :
    engine_step st1 st2 -> engine_steps st2 st3 -> engine_steps st1 st3.

(** [score], [spins_remaining] and [arrows_placed] agree. *)
Definition same_counters (st st' : game) : Prop :=
  score st' = score st /\ spins_remaining st' = spins_remaining st
  /\ arrows_placed st' = arrows_placed st.

(** The elements of a list up to and including the first one that
    satisfies [f], and whether there is one. *)
Fixpoint first_hit {A : Type} (f : A -> bool) (l : list A) : list A * bool :=
  match l with
  | [] => ([], false)
  | a :: rest =>
      if f a then ([a], true)
      else (a :: fst (first_hit f rest), snd (first_hit f rest))
  end.

(** [0 <= n && n < 25]. *)
Definition on_board (n : Z) : bool := (0 <=? n) && (n <? 25).

(** The pairs of [endGameCheck]'s scan, in scan order, restricted to the
    neighbours that are cells of the grid. *)
Definition scan_order : list (Z * Z) :=
  flat_map (fun i => map (fun n => (i, n))
                       (List.filter on_board (getNeighbors i)))
           cell_ids.

(** What [endGameCheck] asks of a pair. *)
Definition pair_actionable (st : game) (p : Z * Z) : bool :=
  match cell_status st (fst p), cell_status st (snd p) with
  | Some a, Some b =>
      canCombine (fst p) (parseInt a) (snd p) (parseInt b) (fst p - snd p)
  | _, _ => false
  end.

(** ** Examples *)

Definition empty_cells : list status := replicate 25 status_zero.

Definition new_game : game :=
  mkGame empty_cells (number 0) (number 3) 0 [] None None [] false.

Definition with_cells (l : list (Z * Z)) : game :=
  set_cells
    (foldr (fun p c => <[Z.to_nat (fst p) := Num (Int (snd p))]> c)
           empty_cells l)
    new_game.

(** Cells 0 and 5 hold an up arrow each. *)
Definition two_up_arrows : game := with_cells [(0, 1); (5, 1)].

(** Column 0 holds arrows in rows 0, 2 and 4: a board as a saved game may
    restore it, with an arrow above an empty cell. *)
Definition column_with_hole : game := with_cells [(0, 1); (10, 1); (20, 1)].

(** Column 0 after a vertical pair in rows 2 and 3 was cancelled. *)
Definition column_with_gap : game := with_cells [(0, 2); (5, 3); (20, 4)].

(** * The rest of the engine *)

(** ** The next-arrow queue *)

(** The default argument of [getRandomArrow]. *)
Definition valid_numbers : list Z := [1; 2; 3; 4; 5; 7; 8; 10].

(** The loop of [getRandomArrow] over [i = 1 .. 7]: the first [i] with
    [rand < i/8] gives [i - 1]; 7 when there is none. *)
Fixpoint random_arrow_id (rand : Q) (candidates : list Z) : Z :=
  match candidates with
  | [] => 7
  | i :: rest =>
      if negb (Qle_bool (inject_Z i / 8) rand) then i - 1
      else random_arrow_id rand rest
  end.

(** [l[id]]; [None] is [undefined]. *)
Definition js_index (l : list Z) (id : Z) : option Z :=
  if id <? 0 then None else l !! Z.to_nat id.

(** [getRandomArrow()], with [rand] the value of [Math.random()]. *)
Definition getRandomArrow (rand : Q) : option Z :=
  js_index valid_numbers (random_arrow_id rand [1; 2; 3; 4; 5; 6; 7]).

(** [updateNextArrows()]; [rand1] and [rand2] are the values [Math.random()]
    gives to its first and second [getRandomArrow] call ([rand1] is not
    drawn when the preview holds an arrow).  [arrow_path] calls [toString]
    on both arrows, so an [undefined] arrow throws. *)
Definition updateNextArrows (rand1 rand2 : Q) (st : game) : option game :=
  next ← match next_next_arrow st with
         | None => getRandomArrow rand1
         | Some a => Some a
         end;
  preview ← getRandomArrow rand2;
  Some (set_next_arrows (Some next) (Some preview) st).

(** ** New game *)

(** The inner and the outer loop of [clearGrid]. *)
Fixpoint clear_row (i : Z) (columns : list Z) (st : game) : option game :=
  match columns with
  | [] => Some st
  | j :: rest =>
      r ← updateGridCell i j status_zero st; clear_row i rest (fst r)
  end.

Fixpoint clear_rows (rows : list Z) (st : game) : option game :=
  match rows with
  | [] => Some st
  | i :: rest =>
      st1 ← clear_row i [0; 1; 2; 3; 4] st; clear_rows rest st1
  end.

Definition clearGrid (st : game) : option game :=
  clear_rows [0; 1; 2; 3; 4] st.

Definition loadNewGame (rand1 rand2 : Q) (st : game) : option game :=
  st1 ← updateNextArrows rand1 rand2 st;
  let st2 := set_spins_remaining (number 3) st1 in
  let st3 := set_score (number 0) st2 in
  let st4 := set_arrows_placed 0 st3 in
  clearGrid st4.

(** ** Saved grid *)

(** [window.localStorage] on the keys ["cell0"], ["cell1"], ...: what
    [getItem("cell" + k)] returns, [None] for [null].  The strings it holds
    are those [saveGame] writes, cell statuses. *)
Definition cell_storage : Type := Z -> option status.

Definition setItem (k : Z) (s : status) (storage : cell_storage)
  : cell_storage :=
  fun k' => if k' =? k then Some s else storage k'.

(** The loop of [saveGame] over the grid cells. *)
Fixpoint save_cells (ids : list Z) (st : game) (storage : cell_storage)
  : option cell_storage :=
  match ids with
  | [] => Some storage
  | i :: rest =>
      s ← cell_status st i; save_cells rest st (setItem i s storage)
  end.

Definition saveGame_cells (st : game) (storage : cell_storage)
  : option cell_storage :=
  save_cells cell_ids st storage.

(** [arrows.includes(parseInt(saved_status)) ? saved_status : "0"]. *)
Definition restored_status (saved : option status) : status :=
  match saved with
  | Some s => if includes arrows (parseInt s) then s else status_zero
  | None => status_zero
  end.

(** The loop of [initializeGame] that restores the grid. *)
Fixpoint restore_cells (ids : list Z) (storage : cell_storage) (st : game)
  : option game :=
  match ids with
  | [] => Some st
  | k :: rest =>
      let saved_status := restored_status (storage k) in
      let ij := grid_indices k in
      st2 ← (if negb (is_zero saved_status) then
               let st1 := set_arrows_placed (arrows_placed st + 1) st in
               if arrows_placed st1 =? 25
               then fst <$> endGameCheck st1
               else Some st1
             else Some st);
      r ← updateGridCell (fst ij) (snd ij) saved_status st2;
      restore_cells rest storage (fst r)
  end.

(** The grid part of [initializeGame] on a saved game: [arrows_placed = 0]
    and the loop.  (The counters are restored by [initializeGame_counters];
    the colour and the next arrows are left out; the loop reads none of
    them.) *)
Definition initializeGame_cells (storage : cell_storage) (st : game)
  : option game :=
  restore_cells cell_ids storage (set_arrows_placed 0 st).

(** ** Saved counters *)

(** [isNaN(saved) ? fallback : saved], where [saved] is the [parseInt] of
    the stored item and [fallback] the string literal of the code. *)
Definition restored_counter (fallback : string) (saved : jsnum) : jsval :=
  match saved with
  | NaN => VStr fallback
  | Int _ => VNum saved
  end.

(** The counters part of [initializeGame] on a saved game; [saved_spins]
    and [saved_score] are [parseInt(getItem('spins'))] and
    [parseInt(getItem('score'))]. *)
Definition initializeGame_counters (saved_spins saved_score : jsnum)
    (st : game) : game :=
  let st1 := set_spins_remaining (restored_counter "3" saved_spins) st in
  set_score (restored_counter "0" saved_score) st1.

(** [initializeGame] on a saved game, in the order of the code:
    [arrows_placed = 0], the counters, the grid loop.  (The colour and the
    next arrows it restores between the counters and the loop are left
    out.) *)
Definition initializeGame_saved (saved_spins saved_score : jsnum)
    (storage : cell_storage) (st : game) : option game :=
  restore_cells cell_ids storage
    (initializeGame_counters saved_spins saved_score
       (set_arrows_placed 0 st)).

(** ** Dropping the next arrow *)

(** The [mouseup] / [touchend] handler of the next-arrow drag;
    [na_status] is [na.dataset.status]. *)
Definition dropNextArrow (na_status : status) (x y : Q) (rand1 rand2 : Q)
    (st : game) : option game :=
  if in_grid x y then
    let cell_i := pixel_cell y in
    let cell_j := pixel_cell x in
    r ← insertNewArrow cell_i cell_j na_status st;
    if (snd r : bool) then
      st1 ← updateNextArrows rand1 rand2 (fst r);
      let st2 := set_arrows_placed (arrows_placed st1 + 1) st1 in
      if arrows_placed st2 =? 25 then fst <$> endGameCheck st2
      else Some st2
    else Some (fst r)
  else Some st.

(** ** More vocabulary *)

(** A status that holds 0 or an arrow of the taxonomy. *)
Definition legal_status (s : status) : bool :=
  match s with
  | Num (Int n) => (n =? 0) || includes arrows (Int n)
  | _ => false
  end.

(** The number of cells that are not empty. *)
Definition occupied (l : list status) : Z :=
  Z.of_nat (length (List.filter (fun s => negb (is_zero s)) l)).

(** The arrows of a column, top to bottom. *)
Definition column_arrows (l : list (option status)) : list (option status) :=
  List.filter (fun c => negb (is_empty_cell c)) l.

(** The position of an animation in its chain. *)
Definition stage_index (s : stage) : Z :=
  match s with
  | Anim1 => 0
  | Anim2 => 1
  | Anim3 => 2
  | Anim4 => 3
  end.

(** An animation as [applyGravitySteps] and its callbacks build them: it
    started in a cell of rows 0..3, moves in its own column and has dropped
    one row per animation played. *)
Definition animation_ok (a : animation) : Prop :=
  0 <= anim_i a /\ 0 <= anim_j a <= 4
  /\ env_col (anim_environment a) = anim_j a
  /\ env_row (anim_environment a) = anim_i a + stage_index (anim_stage a)
  /\ env_row (anim_environment a) <= 3.

(** The grid has its 25 cells, every animation whose callback is still to
    run ([pending] ones of the current frame, then the ones in flight) is
    one the engine started, and every column in [animating_columns] has
    such an animation. *)
Definition engine_ok (pending : list animation) (st : game) : Prop :=
  length (cells st) = 25%nat
  /\ Forall animation_ok (pending ++ in_flight st)
  /\ (forall j, is_animating st j = true ->
        Exists (fun a => anim_j a = j) (pending ++ in_flight st)).

Definition board_ok (st : game) : Prop := engine_ok [] st.

(** [st'] differs from [st] at most in the cells and the locks of the
    columns [cols]. *)
Definition changes_within (cols : list Z) (st st' : game) : Prop :=
  length (cells st') = length (cells st)
  /\ (forall id, 0 <= id -> ~ In (Z.rem id 5) cols ->
        cell_status st' id = cell_status st id)
  /\ (forall k, ~ In k cols -> is_animating st' k = is_animating st k).

(** A new game in which an up arrow was dropped on the top cell of column
    2: the cell is vacated, the cell below is reserved, the column is
    locked and the first animation is in flight. *)
Definition arrow_falling : game :=
  mkGame (<[7%nat := AnimatingTo]> empty_cells) (number 0) (number 3) 0 [2]
         None None
         [mkAnim (mkEnv 0 2 (Num (Int 1))) 0 2 Anim1] false.

(** Both next arrows are set and one-directional. *)
Definition queue_ok (st : game) : Prop :=
  exists a b,
    next_arrow st = Some a /\ next_next_arrow st = Some b
    /\ In a basic_arr /\ In b basic_arr.

(** The next arrows and the end-of-game flag agree. *)
Definition same_queue (st st' : game) : Prop :=
  next_arrow st' = next_arrow st
  /\ next_next_arrow st' = next_next_arrow st.

(** A saved grid of 25 arrows: 17 everywhere but 23 in the last cell, so
    that the only moves combine cell 24 with one of its neighbours. *)
Definition saved_17_23 : cell_storage :=
  fun k => Some (Num (Int (if k =? 24 then 23 else 17))).

(** ** Dragging a grid cell *)

(** The grid listeners: pressing at [(x1, y1)] clones the touched cell,
    releasing at [(x2, y2)] calls [handleAction] with the clone.  Nothing
    happens when the pointer is pressed off the grid.  (No animation frame
    is taken to run between the press and the release.) *)
Definition dragCell (x1 y1 x2 y2 : Q) (st : game) : option game :=
  if in_grid x1 y1 then
    let touched := grid_id (pixel_cell y1) (pixel_cell x1) in
    clone_status ← cell_status st touched;
    fst <$> handleAction st touched clone_status x2 y2
  else Some st.

(** Two cells of the grid touch, by a side or by a corner. *)
Definition adjacent (a b : Z) : bool :=
  (Z.abs (fst (grid_indices a) - fst (grid_indices b)) <=? 1)
  && (Z.abs (snd (grid_indices a) - snd (grid_indices b)) <=? 1)
  && negb (a =? b).


(** The cell holds an arrow that gravity may move: its status is neither
    "0" nor "animatingto". *)
Definition holds_arrow (c : option status) : bool :=
  match c with
  | Some s => negb (is_zero s || is_animatingto s)
  | None => false
  end.

(** Cell [(i, j)] and the cell below it are on the grid and the cell below
    is empty. *)
Definition can_fall (st : game) (i j : Z) : bool :=
  cell_in_gravity_range i j && cell_in_gravity_range (i + 1) j
  && is_empty_cell (cell_status st (grid_id (i + 1) j)).

(** No animation in flight belongs to column [j]. *)
Definition column_quiet (st : game) (j : Z) : bool :=
  forallb (fun a => negb (anim_j a =? j)) (in_flight st).

(** [st0] is [st] as column [j] sees it: the same cells and the same lock
    in column [j], and in flight the animations of column [j] only. *)
Definition column_view (j : Z) (st st0 : game) : Prop :=
  length (cells st) = 25%nat /\ length (cells st0) = 25%nat
  /\ (forall r, 0 <= r <= 4 ->
        cell_status st (grid_id r j) = cell_status st0 (grid_id r j))
  /\ is_animating st j = is_animating st0 j
  /\ in_flight st0 = List.filter (fun a => anim_j a =? j) (in_flight st).

(** Two runs of an operation, one on each state, throw together or return
    states related by [column_view] (and the same value). *)
Definition views (j : Z) (o o0 : option game) : Prop :=
  match o, o0 with
  | Some a, Some b => column_view j a b
  | None, None => True
  | _, _ => False
  end.

Definition views_with {A : Type} (j : Z) (o o0 : option (game * A)) : Prop :=
  match o, o0 with
  | Some (a, x), Some (b, y) => column_view j a b /\ x = y
  | None, None => True
  | _, _ => False
  end.

(** The board with every animation and every lock dropped. *)
Definition stilled (st : game) : game :=
  set_in_flight [] (set_animating_columns [] st).

(** ** More examples *)

(** Two 40s side by side in the bottom row, arrows above both, and an
    arrow in column 2. *)
Definition two_maximal_arrows : game :=
  set_arrows_placed 7
    (with_cells [(10, 2); (15, 3); (20, 40); (21, 40); (11, 4); (16, 7);
                 (22, 5)]).

(** [two_maximal_arrows] in the middle of the Cancel of cell 20 onto cell
    21: both cells are rewritten and gravity was applied above cell 20, not
    yet above cell 21.  Column 0 is locked and its two arrows are falling. *)
Definition cancel_under_way : game :=
  mkGame (<[20%nat := AnimatingTo]>
            (<[15%nat := AnimatingTo]>
               (cells (with_cells [(11, 4); (16, 7); (22, 5)]))))
         (number 514) (number 4) 5 [0] None None
         [mkAnim (mkEnv 3 0 (Num (Int 3))) 3 0 Anim1;
          mkAnim (mkEnv 2 0 (Num (Int 2))) 2 0 Anim1]
         false.

(** The cells of a saved game: two 40s and two 8s in the bottom row. *)
Definition saved_bottom_row : cell_storage :=
  cell_status (with_cells [(20, 40); (21, 40); (22, 8); (23, 8)]).


(** * Properties *)

(** ** Geometry *)

Lemma grid_id_indices n :
  grid_id (fst (grid_indices n)) (snd (grid_indices n)) = n.
Proof.
  unfold grid_id, grid_indices; simpl.
  pose proof (Z.quot_rem' n 5) as H.
  replace (n - Z.rem n 5) with (Z.quot n 5 * 5) by lia.
  rewrite Z.quot_mul by lia. lia.
Qed.

Lemma grid_indices_id i j :
  0 <= i -> 0 <= j <= 4 -> grid_indices (grid_id i j) = (i, j).
Proof.
  intros Hi Hj. unfold grid_indices, grid_id.
  assert (Hrem : Z.rem (i * 5 + j) 5 = j).
  { rewrite Z.rem_mod_nonneg by lia.
    rewrite Z.add_comm, Z.mod_add by lia. apply Z.mod_small; lia. }
  rewrite Hrem. replace (i * 5 + j - j) with (i * 5) by lia.
  rewrite Z.quot_mul by lia. reflexivity.
Qed.

Lemma pixel_cell_bounds p :
  Qle_bool 1 p = true -> Qle_bool p 299 = true -> 0 <= pixel_cell p <= 4.
Proof.
  intros H1 H2. apply Qle_bool_iff in H1, H2. unfold pixel_cell.
  assert (Hlo : (1 / 60 <= p / 60)%Q).
  { apply Qmult_le_compat_r; [exact H1 | discriminate]. }
  assert (Hhi : (p / 60 <= 299 / 60)%Q).
  { apply Qmult_le_compat_r; [exact H2 | discriminate]. }
  apply Qfloor_resp_le in Hlo, Hhi.
  change (Qfloor (1 / 60)) with 0 in Hlo.
  change (Qfloor (299 / 60)) with 4 in Hhi. lia.
Qed.

Lemma in_grid_cells x y :
  in_grid x y = true ->
  0 <= pixel_cell x <= 4 /\ 0 <= pixel_cell y <= 4.
Proof.
  unfold in_grid. rewrite !andb_true_iff. intros [[[H1 H2] H3] H4].
  split; apply pixel_cell_bounds; assumption.
Qed.

Lemma in_grid_dest x y : in_grid x y = true -> 0 <= dest_id x y < 25.
Proof.
  intros H. apply in_grid_cells in H. unfold dest_id, grid_id. lia.
Qed.

(** ** The cell store *)

Ltac game_fields :=
  unfold set_cells, set_score, set_spins_remaining, set_arrows_placed,
    set_animating_columns, set_next_arrows, set_in_flight, set_game_over;
  cbn [cells score spins_remaining arrows_placed animating_columns
       next_arrow next_next_arrow in_flight game_over
       score_delta action_dest_content action_bonus action_arrows_removed].

Lemma cell_status_eq st id :
  0 <= id -> cell_status st id = cells st !! Z.to_nat id.
Proof.
  intros H. unfold cell_status.
  destruct (Z.ltb_spec id 0); [lia | reflexivity].
Qed.

Lemma cell_status_is_Some st id :
  0 <= id < Z.of_nat (length (cells st)) -> is_Some (cell_status st id).
Proof.
  intros H. rewrite cell_status_eq by lia. apply lookup_lt_is_Some. lia.
Qed.

Lemma cell_status_range st id s :
  cell_status st id = Some s -> 0 <= id < Z.of_nat (length (cells st)).
Proof.
  unfold cell_status. destruct (Z.ltb_spec id 0); [discriminate|].
  intros Hs. apply lookup_lt_Some in Hs. lia.
Qed.

Lemma set_status_eq id s st :
  0 <= id < Z.of_nat (length (cells st)) ->
  set_status id s st = Some (set_cells (<[Z.to_nat id := s]> (cells st)) st).
Proof.
  intros H. unfold set_status.
  destruct (Z.leb_spec 0 id); [| lia].
  destruct (Z.ltb_spec id (Z.of_nat (length (cells st)))); [reflexivity | lia].
Qed.

Lemma updateGridCell_eq i j c st :
  is_animating st j = false ->
  0 <= grid_id i j < Z.of_nat (length (cells st)) ->
  updateGridCell i j c st =
  Some (set_cells (<[Z.to_nat (grid_id i j) := c]> (cells st)) st, true).
Proof.
  intros Ha Hr. unfold updateGridCell. rewrite Ha.
  rewrite set_status_eq by exact Hr. reflexivity.
Qed.

Lemma resolved_dest st a src dest origin dest_cell :
  0 <= dest_cell < Z.of_nat (length (cells st)) ->
  cell_status (resolved st a src dest origin dest_cell) dest_cell =
  Some (Num (action_dest_content a src dest)).
Proof.
  intros H. rewrite cell_status_eq by lia. unfold resolved; cbn [cells].
  apply list_lookup_insert_eq. rewrite length_insert. lia.
Qed.

Lemma resolved_origin st a src dest origin dest_cell :
  0 <= origin < Z.of_nat (length (cells st)) -> 0 <= dest_cell ->
  origin <> dest_cell ->
  cell_status (resolved st a src dest origin dest_cell) origin =
  Some status_zero.
Proof.
  intros H Hd Hne. rewrite cell_status_eq by lia. unfold resolved; cbn [cells].
  rewrite list_lookup_insert_ne by lia.
  apply list_lookup_insert_eq. lia.
Qed.

(** ** The move resolver on an admitted, classifiable move *)

Lemma resolve_applied st origin clone_status x y dest_status :
  move_admitted st origin x y ->
  cell_status st (dest_id x y) = Some dest_status ->
  classifyAction (parseInt clone_status) (parseInt dest_status)
                 (dest_id x y - origin) <> NoAction ->
  handleAction_resolve st origin clone_status x y =
  Some (Applied
          (resolved st
             (classifyAction (parseInt clone_status) (parseInt dest_status)
                             (dest_id x y - origin))
             (parseInt clone_status) (parseInt dest_status)
             origin (dest_id x y))
          (gravity_calls (parseInt clone_status) (parseInt dest_status)
             (dest_id x y - origin) (grid_indices origin)
             (pixel_cell y) (pixel_cell x) (Int 0)
             (action_dest_content
                (classifyAction (parseInt clone_status) (parseInt dest_status)
                                (dest_id x y - origin))
                (parseInt clone_status) (parseInt dest_status)))).
Proof.
  intros (Hgrid & Hj & Ho & Hlen & Horigin & Hedge) Hdest Hact.
  pose proof (cell_status_range _ _ _ Hdest) as Hd.
  unfold handleAction_resolve. rewrite Hgrid, Hj, Ho. cbn [orb].
  fold (dest_id x y). rewrite Hdest. cbn [mbind option_bind].
  rewrite Hedge. cbn [negb].
  pose proof (grid_id_indices origin) as Hid.
  assert (Hso : snd (grid_indices origin) = Z.rem origin 5) by reflexivity.
  destruct (classifyAction _ _ _) eqn:Hc; [| | | congruence].
  - rewrite updateGridCell_eq;
      [| rewrite Hso; exact Ho | rewrite Hid; game_fields; lia].
    cbn [mbind option_bind fst].
    rewrite updateGridCell_eq;
      [| exact Hj | fold (dest_id x y); game_fields; rewrite length_insert; lia].
    cbn [mbind option_bind fst]. rewrite Hid. fold (dest_id x y).
    unfold resolved, status_zero. game_fields. rewrite ?Z.add_0_r. reflexivity.
  - rewrite updateGridCell_eq;
      [| rewrite Hso; exact Ho | rewrite Hid; game_fields; lia].
    cbn [mbind option_bind fst].
    rewrite updateGridCell_eq;
      [| exact Hj | fold (dest_id x y); game_fields; rewrite length_insert; lia].
    cbn [mbind option_bind fst]. rewrite Hid. fold (dest_id x y).
    unfold resolved, status_zero. game_fields. rewrite ?Z.add_0_r. reflexivity.
  - rewrite updateGridCell_eq;
      [| rewrite Hso; destruct (strict_eq _ _); exact Ho
       | rewrite Hid; destruct (strict_eq _ _); game_fields; lia].
    cbn [mbind option_bind fst].
    rewrite updateGridCell_eq;
      [| destruct (strict_eq _ _); exact Hj
       | fold (dest_id x y); destruct (strict_eq _ _); game_fields;
         rewrite length_insert; lia].
    cbn [mbind option_bind fst]. rewrite Hid. fold (dest_id x y).
    unfold resolved, status_zero.
    destruct (strict_eq _ _) eqn:Hb; game_fields; rewrite Hb, ?Z.add_0_r;
      reflexivity.
Qed.

(** What an admitted move with a known classification leaves behind. *)
Lemma resolve_outcome st origin clone_status x y dest_status a :
  move_admitted st origin x y ->
  cell_status st (dest_id x y) = Some dest_status ->
  classifyAction (parseInt clone_status) (parseInt dest_status)
                 (dest_id x y - origin) = a ->
  a <> NoAction ->
  dest_id x y <> origin ->
  exists st' calls,
    handleAction_resolve st origin clone_status x y = Some (Applied st' calls)
    /\ st' = resolved st a (parseInt clone_status) (parseInt dest_status)
                      origin (dest_id x y)
    /\ cell_status st' (dest_id x y) =
       Some (Num (action_dest_content a (parseInt clone_status)
                                      (parseInt dest_status)))
    /\ cell_status st' origin = Some (Num (Int 0)).
Proof.
  intros Hadm Hdest Hc Ha Hne.
  pose proof (resolve_applied _ _ clone_status _ _ _ Hadm Hdest) as R.
  rewrite Hc in R. specialize (R Ha).
  destruct Hadm as (Hgrid & _ & _ & Hlen & Horigin & _).
  pose proof (in_grid_dest _ _ Hgrid) as Hd.
  eexists _, _. split; [exact R |]. split; [reflexivity |].
  split; [apply resolved_dest | apply resolved_origin]; lia.
Qed.

(** ** Edge resolver *)

(** C2.  [resolveEdgeError] accepts every distance of absolute value 5;
    accepts a distance of absolute value 1 exactly when source and
    destination are in the same row; accepts a distance of absolute value 4
    or 6 exactly when the rows differ by one; and accepts every other
    distance.  Cells 4 and 10 are in rows 0 and 2 and distance 6 between
    them is rejected; cells 3 and 9 are in rows 0 and 1 and distance 6
    between them is accepted. *)
Theorem resolveEdgeError_rules :
  (forall src dest dist,
     (Z.abs dist = 5 -> resolveEdgeError src dest dist = true)
     /\ (Z.abs dist = 1 ->
         (resolveEdgeError src dest dist = true <-> fst src = fst dest))
     /\ (Z.abs dist = 4 \/ Z.abs dist = 6 ->
         (resolveEdgeError src dest dist = true
          <-> Z.abs (fst src - fst dest) = 1))
     /\ (Z.abs dist <> 1 -> Z.abs dist <> 4 -> Z.abs dist <> 5 ->
         Z.abs dist <> 6 -> resolveEdgeError src dest dist = true))
  /\ grid_indices 4 = (0, 4) /\ grid_indices 10 = (2, 0)
  /\ resolveEdgeError (grid_indices 4) (grid_indices 10) 6 = false
  /\ grid_indices 3 = (0, 3) /\ grid_indices 9 = (1, 4)
  /\ resolveEdgeError (grid_indices 3) (grid_indices 9) 6 = true.
Proof.
  split; [| repeat split].
  intros [sr sc] [dr dc] dist; unfold resolveEdgeError; cbn [fst].
  split; [| split; [| split]].
  - intros ->. reflexivity.
  - intros ->; cbn. apply Z.eqb_eq.
  - intros [-> | ->]; cbn; apply Z.eqb_eq.
  - intros H1 H4 H5 H6.
    destruct (Z.eqb_spec (Z.abs dist) 5); [lia|].
    destruct (Z.eqb_spec (Z.abs dist) 1); [lia|].
    destruct (Z.eqb_spec (Z.abs dist) (5 - 1)); [lia|].
    destruct (Z.eqb_spec (Z.abs dist) (5 + 1)); [lia|]. reflexivity.
Qed.

(** ** One-directional arrows *)

Ltac split_tests :=
  repeat match goal with
         | |- context [Z.eqb ?a ?b] => destruct (Z.eqb_spec a b)
         end.

(** ** Case analysis on arrow values *)

Lemma arrow_cases (x : Z) :
  x = 1 \/ x = 5 \/ x = 8 \/ x = 3 \/ x = 10 \/ x = 4 \/ x = 2 \/ x = 7
  \/ x = 14 \/ x = 9 \/ x = 6 \/ x = 11 \/ x = 17 \/ x = 23 \/ x = 40
  \/ includes arrows (Int x) = false.
Proof.
  destruct (includes arrows (Int x)) eqn:E; [| tauto].
  cbn in E. rewrite !orb_true_iff in E. rewrite !Z.eqb_eq in E.
  intuition congruence.
Qed.

Lemma includes_unknown x l :
  includes arrows (Int x) = false -> (forall y, In y l -> In y arrows) ->
  includes l (Int x) = false.
Proof.
  cbn [includes]. intros H Hl.
  destruct (existsb (Z.eqb x) l) eqn:E; [| reflexivity].
  apply existsb_exists in E as (y & Hy & Heq). apply Z.eqb_eq in Heq; subst y.
  assert (existsb (Z.eqb x) arrows = true); [| congruence].
  apply existsb_exists. exists x. split; [apply Hl, Hy | apply Z.eqb_refl].
Qed.

Lemma unknown_not_basic x :
  includes arrows (Int x) = false -> includes basic_arr (Int x) = false.
Proof. intros H. apply includes_unknown; [exact H|]. cbn; tauto. Qed.

Lemma unknown_not_mid x :
  includes arrows (Int x) = false -> includes mid_arr (Int x) = false.
Proof. intros H. apply includes_unknown; [exact H|]. cbn; tauto. Qed.

Lemma unknown_neq x c :
  includes arrows (Int x) = false -> In c arrows ->
  (x =? c) = false /\ (c =? x) = false.
Proof.
  intros H Hc. cbn [includes] in H.
  assert (x <> c).
  { intros ->. assert (existsb (Z.eqb c) arrows = true); [| congruence].
    apply existsb_exists. exists c. split; [exact Hc | apply Z.eqb_refl]. }
  split; apply Z.eqb_neq; congruence.
Qed.

(** Rewrites every test that involves a value outside [arrows]. *)
Ltac use_unknown :=
  repeat match goal with
         | H : includes arrows (Int ?x) = false |- _ =>
             first
               [ rewrite (unknown_not_basic x H)
               | rewrite (unknown_not_mid x H)
               | match goal with
                 | |- context [Z.eqb x ?c] =>
                     rewrite (proj1 (unknown_neq x c H ltac:(cbn; tauto)))
                 | |- context [Z.eqb ?c x] =>
                     rewrite (proj2 (unknown_neq x c H ltac:(cbn; tauto)))
                 end ]
         end.

Ltac each_arrow x H :=
  destruct (arrow_cases x)
    as [->|[->|[->|[->|[->|[->|[->|[->|[->|[->|[->|[->|[->|[->|[->|H]]]]]]]]]]]]]]].

Lemma classify_NaN_l b d : classifyAction NaN b d = NoAction.
Proof.
  unfold classifyAction; cbn.
  destruct (_ || _); reflexivity.
Qed.

Lemma classify_NaN_r a d : classifyAction a NaN d = NoAction.
Proof.
  unfold classifyAction.
  destruct (includes basic_arr a).
  { destruct (triple_of a) as [[? ?|? ? ?]|]; destruct a; reflexivity. }
  destruct (includes mid_arr a).
  { destruct (triple_of a) as [[? ?|? ? ?]|]; destruct a; reflexivity. }
  destruct (existsb _ _); destruct a; cbn; rewrite ?andb_false_r; reflexivity.
Qed.

(** ** Mirrored moves *)

Lemma mirror_on_integers x y d :
  classifyAction (Int x) (Int y) d = classifyAction (Int y) (Int x) (- d)
  /\ (classifyAction (Int x) (Int y) d <> NoAction ->
      tier_score (Int x) = tier_score (Int y)).
Proof.
  each_arrow x Hx; each_arrow y Hy;
  unfold classifyAction, tier_score; cbn [strict_eq]; use_unknown; cbn;
  use_unknown; rewrite ?Z.abs_opp;
  split_tests; cbn;
  (split; [ first [reflexivity | lia]
          | intros; first [reflexivity | congruence | lia] ]).
Qed.

(** C3.  For all arrow values [a], [b] and every signed distance [d],
    [classifyAction a b d] and [classifyAction b a (-d)] are the same
    outcome, and unless it is [-1] the score that [handleAction] adds for
    it, computed from the tier score of the respective source value, is the
    same for both ([score_delta] is the amount [handleAction] adds on an
    admitted move). *)
Theorem classify_mirror (a b : jsnum) (d : Z) :
  classifyAction a b d = classifyAction b a (- d)
  /\ (classifyAction a b d <> NoAction ->
      score_delta (classifyAction a b d) (tier_score a)
      = score_delta (classifyAction b a (- d)) (tier_score b))
  /\ (forall st origin clone_status x y dest_status,
        move_admitted st origin x y ->
        cell_status st (dest_id x y) = Some dest_status ->
        parseInt clone_status = a -> parseInt dest_status = b ->
        dest_id x y - origin = d ->
        classifyAction a b d <> NoAction ->
        exists st' calls,
          handleAction_resolve st origin clone_status x y
          = Some (Applied st' calls)
          /\ score st' = js_plus (score st)
                                 (score_delta (classifyAction a b d)
                                              (tier_score a))).
Proof.
  assert (Hmirror :
    classifyAction a b d = classifyAction b a (- d)
    /\ (classifyAction a b d <> NoAction ->
        score_delta (classifyAction a b d) (tier_score a)
        = score_delta (classifyAction b a (- d)) (tier_score b))).
  { destruct a as [x|], b as [y|];
      rewrite ?classify_NaN_l, ?classify_NaN_r;
      try (split; [reflexivity | congruence]).
    destruct (mirror_on_integers x y d) as [Hc Ht].
    split; [exact Hc |]. intros Hn. rewrite <- Hc, (Ht Hn). reflexivity. }
  destruct Hmirror as [Hc Hs]. split; [exact Hc |]. split; [exact Hs |].
  intros st origin clone_status x y dest_status Hadm Hdest <- <- <- Hn.
  eexists _, _. split.
  - apply (resolve_applied _ _ _ _ _ _ Hadm Hdest Hn).
  - reflexivity.
Qed.

(** ** Two-directional arrows *)

Ltac decide_classification :=
  unfold classifyAction; cbn; split_tests; cbn;
  split; intros; first [reflexivity | discriminate | lia | intuition lia].

Lemma mid_cancel c dists cancel inv d :
  In c mid_arr -> action_triples c = Some (Double dists cancel inv) ->
  classifyAction (Int c) (Int c) d = Cancel <-> Z.abs d = cancel.
Proof.
  intros Hc Ht. cbn in Hc.
  repeat (destruct Hc as [<- | Hc]); [.. | contradiction];
    cbn in Ht; injection Ht as <- <- <-; decide_classification.
Qed.

Lemma mid_combine c dists cancel inv d :
  In c mid_arr -> action_triples c = Some (Double dists cancel inv) ->
  classifyAction (Int c) (Int inv) d = Combine <-> In (Z.abs d) dists.
Proof.
  intros Hc Ht. cbn in Hc.
  repeat (destruct Hc as [<- | Hc]); [.. | contradiction];
    cbn in Ht; injection Ht as <- <- <-; decide_classification.
Qed.

Lemma mid_entry c :
  In c mid_arr ->
  exists dists cancel inv,
    action_triples c = Some (Double dists cancel inv)
    /\ tier_score (Int c) = 4
    /\ 0 <= c + inv /\ ~ In 0 dists.
Proof.
  intros Hc. cbn in Hc.
  repeat (destruct Hc as [<- | Hc]); [.. | contradiction];
    (eexists _, _, _; split; [reflexivity |]; split; [reflexivity |];
     split; [lia |]; cbn; lia).
Qed.

(** C5.  Every two-directional arrow [c] has an entry
    [[[dists, cancel], inv]] in [action_triples]; [classifyAction c c d] is
    Cancel exactly when [|d| = cancel]; [classifyAction c inv d] is Combine
    exactly when [|d|] is one of [dists]; and an admitted move of [c] onto
    [inv] at such a distance leaves [(c + inv) mod 80] in the destination
    cell and 0 in the source cell and adds [2^(u+1)] to the score, the rule
    of the one-directional Combine, with [u = 4]. *)
Theorem compound_arrow_rules (c : Z) :
  In c mid_arr ->
  exists dists cancel inv,
    action_triples c = Some (Double dists cancel inv)
    /\ (forall d, classifyAction (Int c) (Int c) d = Cancel
                  <-> Z.abs d = cancel)
    /\ (forall d, classifyAction (Int c) (Int inv) d = Combine
                  <-> In (Z.abs d) dists)
    /\ tier_score (Int c) = 4
    /\ forall st origin x y,
         move_admitted st origin x y ->
         cell_status st (dest_id x y) = Some (Num (Int inv)) ->
         In (Z.abs (dest_id x y - origin)) dists ->
         exists st' calls,
           handleAction_resolve st origin (Num (Int c)) x y
           = Some (Applied st' calls)
           /\ cell_status st' (dest_id x y)
              = Some (Num (Int ((c + inv) mod 80)))
           /\ cell_status st' origin = Some (Num (Int 0))
           /\ score st' = js_plus (score st) (2 ^ (tier_score (Int c) + 1)).
Proof.
  intros Hc.
  destruct (mid_entry c Hc) as (dists & cancel & inv & Ht & Hu & Hsum & H0).
  exists dists, cancel, inv. split; [exact Ht |].
  split; [intros d; apply (mid_cancel _ _ _ _ _ Hc Ht) |].
  split; [intros d; apply (mid_combine _ _ _ _ _ Hc Ht) |].
  split; [exact Hu |].
  intros st origin x y Hadm Hdest Hdist.
  destruct (resolve_outcome st origin (Num (Int c)) x y _ Combine Hadm Hdest)
    as (st' & calls & Hr & -> & Hd & Ho).
  - apply (mid_combine _ _ _ _ _ Hc Ht), Hdist.
  - discriminate.
  - intros Heq. rewrite Heq, Z.sub_diag in Hdist. exact (H0 Hdist).
  - eexists _, calls. split; [exact Hr |].
    split; [| split; [exact Ho | reflexivity]].
    rewrite Hd. cbn. rewrite Z.rem_mod_nonneg by lia. reflexivity.
Qed.

Lemma compound_arrow_rules_witness :
  exists st' calls,
    handleAction_resolve (with_cells [(4, 6); (9, 11)]) 4 (Num (Int 6))
                         (inject_Z 270) (inject_Z 90)
    = Some (Applied st' calls)
    /\ cell_status st' 9 = Some (Num (Int 17))
    /\ cell_status st' 4 = Some (Num (Int 0))
    /\ score st' = number 32.
Proof.
  destruct (compound_arrow_rules 6)
    as (dists & cancel & inv & Ht & _ & _ & _ & Hmove).
  - cbn. tauto.
  - cbn in Ht. injection Ht as <- <- <-.
    apply (Hmove (with_cells [(4, 6); (9, 11)]) 4 (inject_Z 270) (inject_Z 90)).
    + repeat split; try reflexivity; lia.
    + reflexivity.
    + cbn. tauto.
Defined.

(** ** Four- and eight-directional arrows *)

(** ** Rejected moves *)

Lemma classify_unknown_src a b d :
  includes arrows a = false -> classifyAction a b d = NoAction.
Proof.
  destruct a as [x|]; [| intros _; apply classify_NaN_l].
  destruct b as [y|]; [| intros _; apply classify_NaN_r].
  intros Hx. unfold classifyAction. use_unknown. cbn [strict_eq].
  use_unknown. rewrite ?andb_false_r. cbn.
  destruct (_ || _); reflexivity.
Qed.

Lemma classify_unknown_dest a b d :
  includes arrows b = false -> classifyAction a b d = NoAction.
Proof.
  destruct b as [y|]; [| intros _; apply classify_NaN_r].
  destruct a as [x|]; [| intros _; apply classify_NaN_l].
  intros Hy.
  each_arrow x Hx;
    unfold classifyAction; cbn [strict_eq]; use_unknown; cbn; use_unknown;
    rewrite ?andb_false_r; split_tests; cbn; reflexivity.
Qed.

Lemma resolve_rejected st origin clone_status x y :
  length (cells st) = 25%nat ->
  in_grid x y = true ->
  is_animating st (pixel_cell x) = true
  \/ is_animating st (Z.rem origin 5) = true
  \/ resolveEdgeError (grid_indices origin) (pixel_cell y, pixel_cell x)
                      (dest_id x y - origin) = false
  \/ (forall dest_status,
        cell_status st (dest_id x y) = Some dest_status ->
        classifyAction (parseInt clone_status) (parseInt dest_status)
                       (dest_id x y - origin) = NoAction) ->
  handleAction_resolve st origin clone_status x y = Some (Rejected st).
Proof.
  intros Hlen Hgrid H. unfold handleAction_resolve. rewrite Hgrid.
  destruct (is_animating st (pixel_cell x) || is_animating st (Z.rem origin 5))
    eqn:Ha; [reflexivity |].
  apply orb_false_iff in Ha as [Ha1 Ha2].
  destruct H as [H | [H | H]]; [congruence | congruence |].
  fold (dest_id x y).
  destruct (cell_status_is_Some st (dest_id x y)) as [ds Hds].
  { pose proof (in_grid_dest _ _ Hgrid). lia. }
  rewrite Hds. cbn [mbind option_bind].
  destruct (resolveEdgeError _ _ _) eqn:He; [| reflexivity].
  destruct H as [H | H]; [discriminate |].
  cbn [negb]. rewrite (H ds Hds). reflexivity.
Qed.

(** C7.  On a board of 25 cells, a move released outside the grid, a move
    whose source or destination column is in [animating_columns], a move
    that [resolveEdgeError] rejects, a move whose source or destination
    value is not in [arrows], and a move that [classifyAction] maps to [-1]
    all make [handleAction] return without an exception and leave the whole
    game state, so every cell, [score], [spins_remaining] and
    [arrows_placed], as it was. *)
Theorem invalid_move_is_noop st origin clone_status x y :
  length (cells st) = 25%nat ->
  in_grid x y = false
  \/ is_animating st (pixel_cell x) = true
  \/ is_animating st (Z.rem origin 5) = true
  \/ resolveEdgeError (grid_indices origin) (pixel_cell y, pixel_cell x)
                      (dest_id x y - origin) = false
  \/ includes arrows (parseInt clone_status) = false
  \/ (exists dest_status,
        cell_status st (dest_id x y) = Some dest_status
        /\ includes arrows (parseInt dest_status) = false)
  \/ (exists dest_status,
        cell_status st (dest_id x y) = Some dest_status
        /\ classifyAction (parseInt clone_status) (parseInt dest_status)
                          (dest_id x y - origin) = NoAction) ->
  exists r, handleAction st origin clone_status x y = Some (st, r).
Proof.
  intros Hlen H. unfold handleAction.
  destruct (in_grid x y) eqn:Hgrid.
  - exists Minus1. rewrite (resolve_rejected st origin clone_status x y Hlen Hgrid).
    + reflexivity.
    + destruct H as [H | [H | [H | [H | [H | [H | H]]]]]];
        [discriminate | tauto | tauto | tauto | | | ];
        right; right; right; intros ds Hds.
      * apply classify_unknown_src, H.
      * destruct H as (ds' & Hds' & Hu).
        assert (ds' = ds) by congruence; subst ds'.
        apply classify_unknown_dest, Hu.
      * destruct H as (ds' & Hds' & Hc).
        assert (ds' = ds) by congruence; subst ds'. exact Hc.
  - exists Undefined. unfold handleAction_resolve. rewrite Hgrid. reflexivity.
Qed.

Lemma invalid_move_is_noop_witness :
  exists r,
    handleAction (with_cells [(4, 10); (10, 4)]) 4 (Num (Int 10))
                 (inject_Z 30) (inject_Z 150)
    = Some (with_cells [(4, 10); (10, 4)], r).
Proof.
  apply (invalid_move_is_noop (with_cells [(4, 10); (10, 4)]) 4 (Num (Int 10))
                              (inject_Z 30) (inject_Z 150)).
  - reflexivity.
  - right; right; right; left. reflexivity.
Defined.

(** ** The move resolver and gravity do not throw *)

Lemma range_spec i j :
  cell_in_gravity_range i j = true <-> 0 <= i <= 4 /\ 0 <= j <= 4.
Proof.
  unfold cell_in_gravity_range.
  rewrite !andb_true_iff, !Z.leb_le. tauto.
Qed.

Lemma can_be_dropped_to_total i j st :
  length (cells st) = 25%nat ->
  exists b, can_be_dropped_to i j st = Some b
            /\ (b = true -> 0 <= i <= 4 /\ 0 <= j <= 4).
Proof.
  intros Hlen. unfold can_be_dropped_to.
  destruct (cell_in_gravity_range i j) eqn:Hr; cbn [negb].
  - apply range_spec in Hr.
    destruct (cell_status_is_Some st (grid_id i j)) as [s Hs];
      [unfold grid_id; lia |].
    rewrite Hs. exists (is_zero s). split; [reflexivity | tauto].
  - exists false. split; [reflexivity | discriminate].
Qed.

Lemma getAnimationEnvironment_total i j st :
  length (cells st) = 25%nat ->
  exists st' e,
    getAnimationEnvironment i j st = Some (st', e)
    /\ length (cells st') = 25%nat.
Proof.
  intros Hlen. unfold getAnimationEnvironment.
  destruct (cell_in_gravity_range i j) eqn:Hr; cbn [negb];
    [| exists st, None; tauto].
  apply range_spec in Hr.
  destruct (can_be_dropped_to_total (i + 1) j st Hlen) as (b & -> & Hb).
  cbn [mbind option_bind].
  destruct b; cbn [negb]; [| exists st, None; tauto].
  specialize (Hb eq_refl).
  set (st1 := if is_animating st j then st
              else set_animating_columns (animating_columns st ++ [j]) st).
  assert (Hlen1 : length (cells st1) = 25%nat)
    by (subst st1; destruct (is_animating st j); exact Hlen).
  destruct (cell_status_is_Some st1 (grid_id i j)) as [c Hc];
    [unfold grid_id; lia |].
  rewrite Hc. cbn [mbind option_bind].
  rewrite set_status_eq by (unfold grid_id; lia). cbn [mbind option_bind].
  rewrite set_status_eq
    by (unfold grid_id; cbn [cells set_cells]; rewrite length_insert; lia).
  cbn [mbind option_bind]. eexists _, _. split; [reflexivity |].
  cbn [cells set_cells]. rewrite !length_insert. exact Hlen1.
Qed.

Lemma applyGravitySteps_total i j st :
  length (cells st) = 25%nat ->
  exists st', applyGravitySteps i j st = Some st'
              /\ length (cells st') = 25%nat.
Proof.
  intros Hlen. unfold applyGravitySteps.
  destruct (getAnimationEnvironment_total i j st Hlen)
    as (st1 & e & -> & Hlen1).
  cbn [mbind option_bind]. destruct e; eexists; split; try reflexivity;
    exact Hlen1.
Qed.

Lemma applyActionGravity_rec_total fuel i j st :
  length (cells st) = 25%nat -> (0 < fuel)%nat ->
  (0 <= i < 4 -> i + 2 <= Z.of_nat fuel) ->
  exists st', applyActionGravity_rec fuel i j st = Some st'
              /\ length (cells st') = 25%nat.
Proof.
  revert i st. induction fuel as [| fuel IH]; intros i st Hlen Hpos Hfuel;
    [lia |].
  cbn [applyActionGravity_rec].
  destruct ((i <? 0) || (j <? 0) || (i >=? 4) || (j >? 4)) eqn:Hguard;
    [exists st; tauto |].
  rewrite !orb_false_iff in Hguard. destruct Hguard as [[[H1 H2] H3] H4].
  apply Z.ltb_ge in H1, H2. rewrite Z.geb_leb in H3. apply Z.leb_gt in H3.
  rewrite Z.gtb_ltb in H4. apply Z.ltb_ge in H4.
  destruct (cell_status_is_Some st (grid_id i j)) as [s Hs];
    [unfold grid_id; lia |].
  rewrite Hs. cbn [mbind option_bind].
  destruct (is_zero s || is_animatingto s); [exists st; tauto |].
  destruct (applyGravitySteps_total i j st Hlen) as (st1 & -> & Hlen1).
  cbn [mbind option_bind].
  apply IH; [exact Hlen1 | lia | lia].
Qed.

Lemma applyActionGravity_total i j st :
  length (cells st) = 25%nat ->
  exists st', applyActionGravity i j st = Some st'
              /\ length (cells st') = 25%nat.
Proof.
  intros Hlen. apply applyActionGravity_rec_total; [exact Hlen | lia | ].
  cbn. lia.
Qed.

Lemma apply_gravity_calls_total calls st :
  length (cells st) = 25%nat ->
  exists st', apply_gravity_calls calls st = Some st'
              /\ length (cells st') = 25%nat.
Proof.
  revert st. induction calls as [| [i j] rest IH]; intros st Hlen.
  - exists st. tauto.
  - cbn [apply_gravity_calls].
    destruct (applyActionGravity_total i j st Hlen) as (st1 & -> & Hlen1).
    cbn [mbind option_bind]. apply IH, Hlen1.
Qed.

(** X1.  On a board of 25 cells, a move whose clone comes from a cell of
    the board makes [handleAction] return, whatever the clone holds and
    wherever the pointer is released: no [TypeError] is thrown. *)
Theorem handleAction_returns st origin clone_status x y :
  length (cells st) = 25%nat -> 0 <= origin < 25 ->
  exists st' r, handleAction st origin clone_status x y = Some (st', r).
Proof.
  intros Hlen Horigin. unfold handleAction.
  destruct (in_grid x y) eqn:Hgrid;
    [| unfold handleAction_resolve; rewrite Hgrid; eexists _, _; reflexivity].
  destruct (is_animating st (pixel_cell x)) eqn:Hj.
  { rewrite (resolve_rejected _ _ _ _ _ Hlen Hgrid) by tauto.
    eexists _, _; reflexivity. }
  destruct (is_animating st (Z.rem origin 5)) eqn:Ho.
  { rewrite (resolve_rejected _ _ _ _ _ Hlen Hgrid) by tauto.
    eexists _, _; reflexivity. }
  destruct (resolveEdgeError (grid_indices origin) (pixel_cell y, pixel_cell x)
                             (dest_id x y - origin)) eqn:He.
  2:{ rewrite (resolve_rejected _ _ _ _ _ Hlen Hgrid) by tauto.
      eexists _, _; reflexivity. }
  destruct (cell_status_is_Some st (dest_id x y)) as [ds Hds].
  { pose proof (in_grid_dest _ _ Hgrid). lia. }
  destruct (classifyAction (parseInt clone_status) (parseInt ds)
                           (dest_id x y - origin)) eqn:Hc.
  4:{ rewrite (resolve_rejected _ _ _ _ _ Hlen Hgrid).
      - eexists _, _; reflexivity.
      - right; right; right. intros ds' Hds'.
        assert (ds' = ds) by congruence; subst ds'. exact Hc. }
  all: rewrite (resolve_applied st origin clone_status x y ds)
         by (repeat split; try assumption; try lia; rewrite Hc; discriminate);
       cbn [mbind option_bind];
       match goal with
       | |- context [apply_gravity_calls ?c ?s] =>
           destruct (apply_gravity_calls_total c s) as (st2 & -> & _);
           [ unfold resolved; cbn [cells]; rewrite !length_insert; exact Hlen
           | eexists _, _; reflexivity ]
       end.
Qed.

Lemma handleAction_returns_witness :
  exists st' r,
    handleAction column_with_gap 5 AnimatingTo (inject_Z 30) (inject_Z 30)
    = Some (st', r).
Proof.
  apply (handleAction_returns column_with_gap 5 AnimatingTo
                              (inject_Z 30) (inject_Z 30)).
  - reflexivity.
  - lia.
Defined.

(** ** Gravity scheduled by a vertical pair *)

Lemma same_column_vertical a b :
  0 <= a -> 0 <= b -> b - a = 5 \/ b - a = -5 ->
  snd (grid_indices a) = snd (grid_indices b).
Proof.
  intros Ha Hb H. unfold grid_indices; cbn [snd].
  rewrite !Z.rem_mod_nonneg by lia.
  destruct H as [H | H].
  - replace b with (a + 1 * 5) by lia. rewrite Z.mod_add by lia. reflexivity.
  - replace a with (b + 1 * 5) by lia. rewrite Z.mod_add by lia. reflexivity.
Qed.

Lemma single_gravity_call i j st :
  apply_gravity_calls [(i, j)] st ≫= (fun st2 => Some (st2, Undefined))
  = applyActionGravity i j st ≫= (fun st2 => Some (st2, Undefined)).
Proof.
  cbn [apply_gravity_calls]. destruct (applyActionGravity i j st); reflexivity.
Qed.

Lemma gravity_calls_up_onto_down o ci cj ns nd :
  gravity_calls (Int 1) (Int 5) (-5) o ci cj ns nd = [(ci - 1, cj)].
Proof. reflexivity. Qed.

Lemma gravity_calls_down_onto_up o ci cj ns nd :
  gravity_calls (Int 5) (Int 1) 5 o ci cj ns nd = [(fst o - 1, snd o)].
Proof. reflexivity. Qed.

(** C9.  When an admitted move brings source value 1 onto destination
    value 5 at signed distance -5, or source value 5 onto destination value
    1 at signed distance +5, both cells are cleared, they lie in one column,
    and [handleAction] makes exactly one call to [applyActionGravity]: on
    the cell directly above the upper of the two cleared cells; that call
    returns, and its result is what [handleAction] leaves. *)
Theorem vertical_pair_single_gravity st origin x y s t :
  move_admitted st origin x y ->
  cell_status st (dest_id x y) = Some (Num (Int t)) ->
  (s = 1 /\ t = 5 /\ dest_id x y - origin = -5)
  \/ (s = 5 /\ t = 1 /\ dest_id x y - origin = 5) ->
  exists st1,
    handleAction_resolve st origin (Num (Int s)) x y
    = Some (Applied st1
              [(fst (grid_indices (Z.min origin (dest_id x y))) - 1,
                snd (grid_indices (Z.min origin (dest_id x y))))])
    /\ cell_status st1 origin = Some (Num (Int 0))
    /\ cell_status st1 (dest_id x y) = Some (Num (Int 0))
    /\ snd (grid_indices origin) = snd (grid_indices (dest_id x y))
    /\ exists st2,
         applyActionGravity
           (fst (grid_indices (Z.min origin (dest_id x y))) - 1)
           (snd (grid_indices (Z.min origin (dest_id x y)))) st1
         = Some st2
         /\ handleAction st origin (Num (Int s)) x y = Some (st2, Undefined).
Proof.
  intros Hadm Hdest Hcase.
  pose proof Hadm as (Hgrid & _ & _ & Hlen & Horigin & _).
  pose proof (in_grid_dest _ _ Hgrid) as Hd.
  pose proof (in_grid_cells _ _ Hgrid) as [Hx Hy].
  assert (Hcol : snd (grid_indices origin) = snd (grid_indices (dest_id x y))).
  { apply same_column_vertical; lia. }
  assert (Hc : classifyAction (Int s) (Int t) (dest_id x y - origin) = Cancel).
  { destruct Hcase as [(-> & -> & ->) | (-> & -> & ->)]; reflexivity. }
  destruct (resolve_outcome st origin (Num (Int s)) x y _ Cancel Hadm Hdest Hc)
    as (st1 & calls & Hr & Hst1 & Hdc & Hoc); [discriminate | lia |].
  pose proof (resolve_applied st origin (Num (Int s)) x y _ Hadm Hdest) as R.
  cbn [parseInt] in R. rewrite Hc in R. specialize (R ltac:(discriminate)).
  rewrite Hr in R. injection R as _ Hcalls.
  assert (Hcalls' :
    calls = [(fst (grid_indices (Z.min origin (dest_id x y))) - 1,
              snd (grid_indices (Z.min origin (dest_id x y))))]).
  { rewrite Hcalls.
    destruct Hcase as [(-> & -> & Hdist) | (-> & -> & Hdist)];
      rewrite Hdist.
    - rewrite gravity_calls_up_onto_down, Z.min_r by lia. unfold dest_id.
      rewrite grid_indices_id by lia. reflexivity.
    - rewrite gravity_calls_down_onto_up, Z.min_l by lia. reflexivity. }
  exists st1. rewrite Hcalls' in Hr.
  split; [exact Hr |]. split; [exact Hoc |]. split; [exact Hdc |].
  split; [exact Hcol |].
  destruct (applyActionGravity_total
              (fst (grid_indices (Z.min origin (dest_id x y))) - 1)
              (snd (grid_indices (Z.min origin (dest_id x y)))) st1)
    as (st2 & Hg & _).
  { rewrite Hst1. unfold resolved; cbn [cells].
    rewrite !length_insert. exact Hlen. }
  exists st2. split; [exact Hg |].
  unfold handleAction. rewrite Hr. cbn [mbind option_bind].
  rewrite single_gravity_call, Hg. reflexivity.
Qed.

Lemma vertical_pair_single_gravity_witness :
  exists st1,
    handleAction_resolve (with_cells [(5, 7); (10, 5); (15, 1)]) 15
                         (Num (Int 1)) (inject_Z 30) (inject_Z 150)
    = Some (Applied st1 [(1, 0)])
    /\ cell_status st1 15 = Some (Num (Int 0))
    /\ cell_status st1 10 = Some (Num (Int 0))
    /\ snd (grid_indices 15) = snd (grid_indices 10)
    /\ exists st2,
         applyActionGravity 1 0 st1 = Some st2
         /\ handleAction (with_cells [(5, 7); (10, 5); (15, 1)]) 15
                         (Num (Int 1)) (inject_Z 30) (inject_Z 150)
            = Some (st2, Undefined).
Proof.
  apply (vertical_pair_single_gravity
           (with_cells [(5, 7); (10, 5); (15, 1)]) 15
           (inject_Z 30) (inject_Z 150) 1 5).
  - repeat split; try reflexivity; lia.
  - reflexivity.
  - left. repeat split.
Defined.

(** ** Counters are touched by the move resolver only *)

Lemma same_counters_refl st : same_counters st st.
Proof. repeat split. Qed.

Lemma same_counters_trans a b c :
  same_counters a b -> same_counters b c -> same_counters a c.
Proof. unfold same_counters. intuition congruence. Qed.

Lemma set_status_counters id s st st' :
  set_status id s st = Some st' -> same_counters st st'.
Proof.
  unfold set_status. case_match; [| discriminate].
  intros [= <-]. repeat split.
Qed.

Ltac counters_step :=
  match goal with
  | H : set_status _ _ _ = Some _ |- _ => apply set_status_counters in H
  end.

Ltac counters :=
  repeat (case_match || simplify_option_eq);
  try apply same_counters_refl;
  repeat counters_step;
  unfold same_counters in *; cbn in *; intuition congruence.

Lemma updateGridCell_counters i j c st st' ok :
  updateGridCell i j c st = Some (st', ok) -> same_counters st st'.
Proof. unfold updateGridCell. intros H. counters. Qed.

Lemma getAnimationEnvironment_counters i j st st' e :
  getAnimationEnvironment i j st = Some (st', e) -> same_counters st st'.
Proof. unfold getAnimationEnvironment. intros H. counters. Qed.

Lemma applyGravitySteps_counters i j st st' :
  applyGravitySteps i j st = Some st' -> same_counters st st'.
Proof.
  unfold applyGravitySteps. intros H.
  destruct (getAnimationEnvironment i j st) as [[st1 [e|]]|] eqn:E;
    cbn in H; [| | discriminate]; injection H as <-;
    apply getAnimationEnvironment_counters in E; exact E.
Qed.

Lemma applyActionGravity_rec_counters fuel i j st st' :
  applyActionGravity_rec fuel i j st = Some st' -> same_counters st st'.
Proof.
  revert i st. induction fuel as [| fuel IH]; intros i st H; [discriminate |].
  cbn [applyActionGravity_rec] in H.
  destruct (_ || _); [injection H as <-; apply same_counters_refl |].
  destruct (cell_status st (grid_id i j)) as [s|]; [| discriminate].
  cbn [mbind option_bind] in H.
  destruct (_ || _); [injection H as <-; apply same_counters_refl |].
  destruct (applyGravitySteps i j st) as [st1|] eqn:E; [| discriminate].
  cbn [mbind option_bind] in H.
  eapply same_counters_trans;
    [apply (applyGravitySteps_counters _ _ _ _ E) | apply (IH _ _ H)].
Qed.

Lemma apply_gravity_calls_counters calls st st' :
  apply_gravity_calls calls st = Some st' -> same_counters st st'.
Proof.
  revert st. induction calls as [| [i j] rest IH]; intros st H.
  - injection H as <-. apply same_counters_refl.
  - cbn [apply_gravity_calls] in H.
    destruct (applyActionGravity i j st) as [st1|] eqn:E; [| discriminate].
    eapply same_counters_trans;
      [apply (applyActionGravity_rec_counters _ _ _ _ _ E) | apply (IH _ H)].
Qed.

Lemma updateEnvironmentMidAnimation_counters e st st' e' :
  updateEnvironmentMidAnimation e st = Some (st', e') -> same_counters st st'.
Proof. unfold updateEnvironmentMidAnimation. intros H. counters. Qed.

Lemma updateEnvironmentPostAnimation_counters e st st' :
  updateEnvironmentPostAnimation e st = Some st' -> same_counters st st'.
Proof.
  unfold updateEnvironmentPostAnimation, updateGridCell. intros H. counters.
Qed.

Lemma on_finished_counters a st st' :
  on_finished a st = Some st' -> same_counters st st'.
Proof.
  assert (Hcont : forall row next,
            continue_or_land a row next st = Some st' -> same_counters st st').
  { unfold continue_or_land. intros row next H.
    destruct (can_be_dropped_to row (anim_j a) st) as [[|]|];
      cbn [mbind option_bind] in H; [| | discriminate].
    - destruct (updateEnvironmentMidAnimation _ st) as [[st1 e]|] eqn:E;
        [| discriminate].
      injection H as <-.
      apply updateEnvironmentMidAnimation_counters in E. exact E.
    - apply (updateEnvironmentPostAnimation_counters _ _ _ H). }
  unfold on_finished. destruct (anim_stage a); try apply Hcont.
  apply updateEnvironmentPostAnimation_counters.
Qed.

Lemma fire_all_counters l st st' :
  fire_all l st = Some st' -> same_counters st st'.
Proof.
  revert st. induction l as [| a rest IH]; intros st H.
  - injection H as <-. apply same_counters_refl.
  - cbn [fire_all] in H.
    destruct (on_finished a st) as [st1|] eqn:E; [| discriminate].
    eapply same_counters_trans;
      [apply (on_finished_counters _ _ _ E) | apply (IH _ H)].
Qed.

Lemma tier_score_values a :
  tier_score a = 2 \/ tier_score a = 4 \/ tier_score a = 9 \/ tier_score a = 6.
Proof. unfold tier_score. repeat case_match; tauto. Qed.

Lemma score_delta_positive a u :
  2 <= u -> a <> NoAction -> 0 < score_delta a u.
Proof.
  intros Hu Ha. destruct a; cbn; [lia | | | congruence].
  - apply Z.pow_pos_nonneg; lia.
  - pose proof (Z.pow_pos_nonneg 2 u); lia.
Qed.

(** What [handleAction_resolve] can answer. *)
Lemma resolve_cases st origin clone_status x y res :
  handleAction_resolve st origin clone_status x y = Some res ->
  res = OutsideGrid st \/ res = Rejected st
  \/ exists st1 calls dest_status,
       res = Applied st1 calls
       /\ cell_status st (dest_id x y) = Some dest_status
       /\ classifyAction (parseInt clone_status) (parseInt dest_status)
                         (dest_id x y - origin) <> NoAction
       /\ score st1
          = js_plus (score st)
              (score_delta
                 (classifyAction (parseInt clone_status) (parseInt dest_status)
                                 (dest_id x y - origin))
                 (tier_score (parseInt clone_status))).
Proof.
  unfold handleAction_resolve. fold (dest_id x y). intros H.
  destruct (in_grid x y); [| injection H as <-; tauto].
  destruct (is_animating st (pixel_cell x) || is_animating st (Z.rem origin 5));
    [injection H as <-; tauto |].
  destruct (cell_status st (dest_id x y)) as [ds|]; [| discriminate].
  cbn [mbind option_bind] in H.
  destruct (resolveEdgeError _ _ _); cbn [negb] in H;
    [| injection H as <-; tauto].
  cbv zeta in H.
  destruct (classifyAction _ _ _) eqn:Hc;
    [| | | injection H as <-; tauto];
    right; right;
    (match type of H with
     | (updateGridCell ?i ?j ?c ?s ≫= _) = _ =>
         destruct (updateGridCell i j c s) as [[s1 ok1]|] eqn:E1;
         [| discriminate]; cbn [mbind option_bind fst] in H
     end;
     match type of H with
     | (updateGridCell ?i ?j ?c ?s ≫= _) = _ =>
         destruct (updateGridCell i j c s) as [[s2 ok2]|] eqn:E2;
         [| discriminate]; cbn [mbind option_bind fst] in H
     end;
     injection H as <-;
     apply updateGridCell_counters in E1, E2;
     eexists _, _, ds; split; [reflexivity |]; split; [reflexivity |];
     rewrite Hc; split; [discriminate |];
     destruct E1 as (E1 & _), E2 as (E2 & _); rewrite E2, E1;
     try destruct (strict_eq _ _); reflexivity).
Qed.

(** ** Score *)

Lemma handleAction_score st origin clone_status x y st' r :
  handleAction st origin clone_status x y = Some (st', r) ->
  st' = st
  \/ exists dest_status,
       cell_status st (dest_id x y) = Some dest_status
       /\ classifyAction (parseInt clone_status) (parseInt dest_status)
                         (dest_id x y - origin) <> NoAction
       /\ score st'
          = js_plus (score st)
              (score_delta
                 (classifyAction (parseInt clone_status) (parseInt dest_status)
                                 (dest_id x y - origin))
                 (tier_score (parseInt clone_status))).
Proof.
  unfold handleAction. intros H.
  destruct (handleAction_resolve st origin clone_status x y) as [res|] eqn:E;
    [| discriminate].
  cbn [mbind option_bind] in H.
  destruct (resolve_cases _ _ _ _ _ _ E)
    as [-> | [-> | (st1 & calls & ds & -> & Hds & Hc & Hs)]].
  - injection H as <- _. tauto.
  - injection H as <- _. tauto.
  - destruct (apply_gravity_calls calls st1) as [st2|] eqn:G; [| discriminate].
    injection H as <- _.
    apply apply_gravity_calls_counters in G. destruct G as (G & _).
    right. exists ds. rewrite G. tauto.
Qed.

Lemma tier_score_at_least_2 a : 2 <= tier_score a.
Proof.
  destruct (tier_score_values a) as [E | [E | [E | E]]]; rewrite E; lia.
Qed.

(** An operation of the engine leaves [score] alone or is a [+=] of a
    positive amount. *)
Lemma engine_step_score st st' :
  engine_step st st' ->
  score st' = score st
  \/ exists delta, 0 < delta /\ score st' = js_plus (score st) delta.
Proof.
  intros [s origin cs x y s' r H
         | s i j content s' ok H
         | s before a after s' Hfl H
         | s s' H
         | s
         | s s' r H].
  - destruct (handleAction_score _ _ _ _ _ _ _ H)
      as [-> | (ds & _ & Hc & ->)]; [tauto |].
    right. eexists. split; [| reflexivity].
    apply score_delta_positive; [apply tier_score_at_least_2 | exact Hc].
  - left. unfold insertNewArrow in H.
    destruct (is_animating s j); [injection H as <- _; reflexivity |].
    destruct (_ || _); [injection H as <- _; reflexivity |].
    destruct (cell_status s (grid_id i j)) as [c|]; [| discriminate].
    cbn [mbind option_bind] in H.
    destruct (negb (is_zero c)); [injection H as <- _; reflexivity |].
    destruct (set_status (grid_id i j) content s) as [s1|] eqn:E1;
      [| discriminate].
    cbn [mbind option_bind] in H.
    destruct (applyGravitySteps i j s1) as [s2|] eqn:E2; [| discriminate].
    injection H as <- _.
    apply set_status_counters in E1. apply applyGravitySteps_counters in E2.
    destruct E1 as (E1 & _), E2 as (E2 & _). congruence.
  - left. apply on_finished_counters in H. destruct H as (H & _). exact H.
  - left. unfold frame in H. apply fire_all_counters in H.
    destruct H as (H & _). exact H.
  - left. unfold swapNextArrows.
    destruct (is_number_zero (spins_remaining s)); reflexivity.
  - left. unfold endGameCheck in H.
    destruct (scan_cells s cell_ids) as [[visited found]|]; [| discriminate].
    cbn [mbind option_bind snd] in H.
    destruct found; injection H as <- _; reflexivity.
Qed.

Lemma engine_steps_numeric_score st st' s :
  engine_steps st st' -> score st = number s ->
  exists s', score st' = number s' /\ s <= s'.
Proof.
  intros H. revert s. induction H as [| s1 s2 s3 H12 _ IH]; intros s Hs.
  - exists s. split; [exact Hs | lia].
  - destruct (engine_step_score _ _ H12) as [E | (delta & Hd & E)].
    + destruct (IH s) as (s' & Hs' & Hle); [congruence |].
      exists s'. tauto.
    + destruct (IH (s + delta)) as (s' & Hs' & Hle);
        [rewrite E, Hs; reflexivity |].
      exists s'. split; [exact Hs' | lia].
Qed.

(** X19.  A call of [handleAction] that returns either leaves the game
    state as it was or performs [score += amount] with the amount of the
    classified action: 2 for Merge, [2^(u+1)] for Combine, [2^u + 2] for
    Cancel, where the tier score [u] is at least 2 and the amount is
    positive.  On a number [+=] adds; every other operation of the engine (a
    new arrow, a gravity callback or a whole animation frame, a swap of the
    next arrows, the end-game check) leaves [score] alone.  So a [score]
    that is a number stays a number and never decreases through any
    sequence of operations. *)
Theorem score_never_decreases :
  (forall st origin clone_status x y st' r,
     handleAction st origin clone_status x y = Some (st', r) ->
     2 <= tier_score (parseInt clone_status)
     /\ (st' = st
         \/ exists dest_status a,
              cell_status st (dest_id x y) = Some dest_status
              /\ a = classifyAction (parseInt clone_status)
                                    (parseInt dest_status)
                                    (dest_id x y - origin)
              /\ a <> NoAction
              /\ score st'
                 = js_plus (score st)
                           (score_delta a (tier_score (parseInt clone_status)))
              /\ 0 < score_delta a (tier_score (parseInt clone_status))))
  /\ (forall u, score_delta Merge u = 2
                /\ score_delta Combine u = 2 ^ (u + 1)
                /\ score_delta Cancel u = 2 ^ u + 2)
  /\ (forall s amount, js_plus (number s) amount = number (s + amount))
  /\ (forall st st',
        engine_step st st' ->
        score st' = score st
        \/ exists delta, 0 < delta /\ score st' = js_plus (score st) delta)
  /\ (forall st st' s,
        engine_steps st st' -> score st = number s ->
        exists s', score st' = number s' /\ s <= s').
Proof.
  split; [| split; [| split; [| split]]].
  - intros st origin cs x y st' r H.
    pose proof (tier_score_at_least_2 (parseInt cs)) as Hu.
    split; [exact Hu |].
    destruct (handleAction_score _ _ _ _ _ _ _ H)
      as [-> | (ds & Hds & Hc & Hs)]; [tauto |].
    right. exists ds, (classifyAction (parseInt cs) (parseInt ds)
                                      (dest_id x y - origin)).
    repeat split; try assumption.
    apply score_delta_positive; assumption.
  - intros u. repeat split.
  - reflexivity.
  - apply engine_step_score.
  - intros st st' s. apply engine_steps_numeric_score.
Qed.

(** ** End-game check *)

Lemma first_hit_app {A} (f : A -> bool) (l1 l2 : list A) :
  first_hit f (l1 ++ l2)
  = if snd (first_hit f l1) then first_hit f l1
    else (fst (first_hit f l1) ++ fst (first_hit f l2), snd (first_hit f l2)).
Proof.
  induction l1 as [| a l1 IH]; cbn [first_hit app fst snd].
  - destruct (first_hit f l2); reflexivity.
  - destruct (f a); cbn [fst snd]; [reflexivity |].
    rewrite IH. destruct (first_hit f l1) as [v1 [|]]; reflexivity.
Qed.

Lemma first_hit_prefix {A} (f : A -> bool) (l : list A) :
  exists rest, l = fst (first_hit f l) ++ rest.
Proof.
  induction l as [| a l [rest IH]]; cbn [first_hit].
  - exists []. reflexivity.
  - destruct (f a); cbn [fst].
    + exists l. reflexivity.
    + exists rest. cbn [app]. rewrite <- IH. reflexivity.
Qed.

Lemma first_hit_found {A} (f : A -> bool) (l : list A) :
  snd (first_hit f l) = true ->
  exists before p,
    fst (first_hit f l) = before ++ [p] /\ f p = true
    /\ forall q, In q before -> f q = false.
Proof.
  induction l as [| a l IH]; cbn [first_hit]; [discriminate |].
  destruct (f a) eqn:Ha; cbn [fst snd].
  - intros _. exists [], a. repeat split; [exact Ha | intros q []].
  - intros H. destruct (IH H) as (before & p & Hv & Hp & Hb).
    exists (a :: before), p. rewrite Hv. repeat split; [exact Hp |].
    intros q [<- | Hq]; [exact Ha | apply Hb, Hq].
Qed.

Lemma first_hit_none {A} (f : A -> bool) (l : list A) :
  snd (first_hit f l) = false ->
  fst (first_hit f l) = l /\ forall q, In q l -> f q = false.
Proof.
  induction l as [| a l IH]; cbn [first_hit]; [intros _; split; [reflexivity | intros q []] |].
  destruct (f a) eqn:Ha; cbn [fst snd]; [discriminate |].
  intros H. destruct (IH H) as [Hv Hb]. rewrite Hv. split; [reflexivity |].
  intros q [<- | Hq]; [exact Ha | apply Hb, Hq].
Qed.

Lemma first_hit_exists {A} (f : A -> bool) (l : list A) :
  snd (first_hit f l) = true <-> exists p, In p l /\ f p = true.
Proof.
  split.
  - intros H. destruct (first_hit_found f l H) as (before & p & Hv & Hp & _).
    destruct (first_hit_prefix f l) as [rest Hl].
    exists p. split; [| exact Hp].
    rewrite Hl, Hv. apply in_or_app. left. apply in_or_app. right. left.
    reflexivity.
  - intros (p & Hin & Hp).
    destruct (snd (first_hit f l)) eqn:E; [reflexivity |].
    destruct (first_hit_none f l E) as [_ Hb]. rewrite (Hb p Hin) in Hp.
    discriminate.
Qed.

Lemma on_board_spec n : on_board n = true <-> 0 <= n < 25.
Proof. unfold on_board. rewrite andb_true_iff, Z.leb_le, Z.ltb_lt. tauto. Qed.

Lemma scan_neighbors_first_hit st i s neighbors :
  length (cells st) = 25%nat ->
  cell_status st i = Some s ->
  scan_neighbors st i (parseInt s) neighbors
  = Some (first_hit (pair_actionable st)
            (map (fun n => (i, n)) (List.filter on_board neighbors))).
Proof.
  intros Hlen Hi.
  induction neighbors as [| n rest IH]; [reflexivity |].
  cbn [scan_neighbors List.filter]. fold (on_board n).
  destruct (on_board n) eqn:Hn; [| exact IH].
  apply on_board_spec in Hn.
  destruct (cell_status_is_Some st n) as [sn Hsn]; [lia |].
  rewrite Hsn. cbn [mbind option_bind map first_hit].
  unfold pair_actionable at 1. cbn [fst snd]. rewrite Hi, Hsn.
  destruct (canCombine _ _ _ _ _); [reflexivity |].
  rewrite IH. reflexivity.
Qed.

Lemma scan_cells_first_hit st ids :
  length (cells st) = 25%nat ->
  (forall i, In i ids -> 0 <= i < 25) ->
  scan_cells st ids
  = Some (first_hit (pair_actionable st)
            (flat_map (fun i => map (fun n => (i, n))
                                    (List.filter on_board (getNeighbors i)))
                      ids)).
Proof.
  intros Hlen Hids.
  induction ids as [| i rest IH]; [reflexivity |].
  cbn [scan_cells flat_map].
  destruct (cell_status_is_Some st i) as [s Hs].
  { specialize (Hids i (or_introl eq_refl)). lia. }
  rewrite Hs. cbn [mbind option_bind].
  rewrite (scan_neighbors_first_hit st i s _ Hlen Hs).
  cbn [mbind option_bind]. rewrite first_hit_app.
  destruct (snd (first_hit _ _)); [reflexivity |].
  rewrite IH by (intros k Hk; apply Hids; right; exact Hk).
  reflexivity.
Qed.

Lemma cell_ids_range i : In i cell_ids <-> 0 <= i < 25.
Proof.
  unfold cell_ids. rewrite in_map_iff. split.
  - intros (k & <- & Hk). apply in_seq in Hk. lia.
  - intros H. exists (Z.to_nat i). split; [lia |]. apply in_seq. lia.
Qed.

Lemma scan_order_pairs i n :
  In (i, n) scan_order
  <-> 0 <= i < 25 /\ 0 <= n < 25 /\ In (n - i) action_dists.
Proof.
  unfold scan_order. rewrite in_flat_map. split.
  - intros (k & Hk & Hin). apply in_map_iff in Hin as (m & [= <- <-] & Hm).
    apply filter_In in Hm as [Hm Hr]. apply cell_ids_range in Hk.
    apply on_board_spec in Hr.
    unfold getNeighbors in Hm. apply in_map_iff in Hm as (o & <- & Ho).
    split; [exact Hk |]. split; [lia |].
    replace (k + o - k) with o by lia. exact Ho.
  - intros (Hi & Hn & Ho). exists i. split; [apply cell_ids_range, Hi |].
    apply in_map_iff. exists n. split; [reflexivity |].
    apply filter_In. split; [| apply on_board_spec; lia].
    unfold getNeighbors. apply in_map_iff. exists (n - i). split; [lia | exact Ho].
Qed.

(** Whether a pair of values is actionable does not depend on the sign of
    the distance. *)
Lemma sign_on_integers x y d :
  is_no_action (classifyAction (Int x) (Int y) (- d))
  = is_no_action (classifyAction (Int x) (Int y) d).
Proof.
  each_arrow x Hx; each_arrow y Hy;
  unfold classifyAction; cbn [strict_eq]; use_unknown; cbn;
  use_unknown; rewrite ?Z.abs_opp;
  split_tests; cbn; first [reflexivity | lia].
Qed.

Lemma classify_sign a b d :
  is_no_action (classifyAction a b (- d))
  = is_no_action (classifyAction a b d).
Proof.
  destruct a as [x|], b as [y|];
    rewrite ?classify_NaN_l, ?classify_NaN_r; try reflexivity.
  apply sign_on_integers.
Qed.

Lemma resolveEdgeError_sign src dest d :
  resolveEdgeError src dest (- d) = resolveEdgeError src dest d.
Proof. unfold resolveEdgeError. rewrite Z.abs_opp. reflexivity. Qed.

Lemma pair_actionable_iff st i n a b :
  0 <= i < 25 -> 0 <= n < 25 ->
  cell_status st i = Some a -> cell_status st n = Some b ->
  pair_actionable st (i, n) = true
  <-> resolveEdgeError (grid_indices i) (grid_indices n) (n - i) = true
      /\ classifyAction (parseInt a) (parseInt b) (n - i) <> NoAction.
Proof.
  intros Hi Hn Ha Hb. unfold pair_actionable. cbn [fst snd].
  rewrite Ha, Hb. unfold canCombine.
  replace (i - n) with (- (n - i)) by lia.
  rewrite resolveEdgeError_sign.
  rewrite (classify_sign (parseInt a) (parseInt b) (n - i)).
  destruct (Z.geb_spec i 0); [| lia]. destruct (Z.geb_spec n 0); [| lia].
  destruct (Z.leb_spec i 24); [| lia]. destruct (Z.leb_spec n 24); [| lia].
  cbn [andb]. rewrite andb_true_iff, negb_true_iff.
  destruct (classifyAction _ _ _); cbn; intuition congruence.
Qed.

(** C4.  On a board of 25 cells [endGameCheck] returns [false] exactly when
    there are a cell [i] in 0..24 and an offset [o] among -6, -5, -4, -1, 1,
    4, 5, 6 with [i + o] in 0..24 such that [resolveEdgeError] accepts
    source [i], neighbour [i + o] and offset [o], and [classifyAction] on
    their two values and [o] is not [-1].  When it returns [false] the last
    pair it examined is such a pair, no pair examined before it is, the
    pairs examined are an initial part of the scan order, and the state is
    unchanged; when it returns [true] it has examined the whole scan order
    without finding one and has opened the end-of-game menu. *)
Theorem endGameCheck_finds_first_move st :
  length (cells st) = 25%nat ->
  exists st' r visited,
    endGameCheck st = Some (st', r)
    /\ endGameCheck_visited st = Some visited
    /\ (r = false
        <-> exists i o a b,
              0 <= i < 25 /\ In o action_dists /\ 0 <= i + o < 25
              /\ cell_status st i = Some a /\ cell_status st (i + o) = Some b
              /\ resolveEdgeError (grid_indices i) (grid_indices (i + o)) o
                 = true
              /\ classifyAction (parseInt a) (parseInt b) o <> NoAction)
    /\ (r = false ->
        st' = st
        /\ exists before p rest,
             visited = before ++ [p] /\ scan_order = visited ++ rest
             /\ pair_actionable st p = true
             /\ forall q, In q before -> pair_actionable st q = false)
    /\ (r = true ->
        st' = endGameMenu st /\ game_over st' = true
        /\ visited = scan_order
        /\ forall q, In q scan_order -> pair_actionable st q = false).
Proof.
  intros Hlen.
  pose proof (scan_cells_first_hit st cell_ids Hlen
                (fun i H => proj1 (cell_ids_range i) H)) as Hscan.
  fold scan_order in Hscan.
  assert (Hmove :
    snd (first_hit (pair_actionable st) scan_order) = true
    <-> exists i o a b,
          0 <= i < 25 /\ In o action_dists /\ 0 <= i + o < 25
          /\ cell_status st i = Some a /\ cell_status st (i + o) = Some b
          /\ resolveEdgeError (grid_indices i) (grid_indices (i + o)) o = true
          /\ classifyAction (parseInt a) (parseInt b) o <> NoAction).
  { rewrite first_hit_exists. split.
    - intros ([i n] & Hin & Hp).
      apply scan_order_pairs in Hin as (Hi & Hn & Ho).
      destruct (cell_status_is_Some st i) as [a Ha]; [lia |].
      destruct (cell_status_is_Some st n) as [b Hb]; [lia |].
      destruct (proj1 (pair_actionable_iff st i n a b Hi Hn Ha Hb) Hp)
        as [Hedge Hclass].
      exists i, (n - i), a, b. replace (i + (n - i)) with n by lia. tauto.
    - intros (i & o & a & b & Hi & Ho & Hn & Ha & Hb & He & Hc).
      exists (i, i + o). split.
      + apply scan_order_pairs. replace (i + o - i) with o by lia. tauto.
      + apply (pair_actionable_iff st i (i + o) a b Hi Hn Ha Hb).
        replace (i + o - i) with o by lia. tauto. }
  unfold endGameCheck, endGameCheck_visited. rewrite Hscan.
  cbn [mbind option_bind fmap option_fmap option_map].
  destruct (snd (first_hit (pair_actionable st) scan_order)) eqn:Hfound.
  - exists st, false, (fst (first_hit (pair_actionable st) scan_order)).
    split; [reflexivity |]. split; [reflexivity |].
    split; [split; [intros _; apply Hmove; reflexivity | reflexivity] |].
    split; [| discriminate].
    intros _. split; [reflexivity |].
    destruct (first_hit_found _ _ Hfound) as (before & p & Hv & Hp & Hb).
    destruct (first_hit_prefix (pair_actionable st) scan_order) as [rest Hr].
    exists before, p, rest. rewrite <- Hv. tauto.
  - exists (endGameMenu st), true,
      (fst (first_hit (pair_actionable st) scan_order)).
    split; [reflexivity |]. split; [reflexivity |].
    split.
    { split; [discriminate |]. intros H. apply Hmove in H. discriminate. }
    split; [discriminate |].
    intros _. destruct (first_hit_none _ _ Hfound) as [Hv Hb].
    repeat split; [exact Hv | exact Hb].
Qed.

Lemma endGameCheck_finds_first_move_witness :
  exists st' r visited,
    endGameCheck two_up_arrows = Some (st', r)
    /\ endGameCheck_visited two_up_arrows = Some visited
    /\ (r = false
        <-> exists i o a b,
              0 <= i < 25 /\ In o action_dists /\ 0 <= i + o < 25
              /\ cell_status two_up_arrows i = Some a
              /\ cell_status two_up_arrows (i + o) = Some b
              /\ resolveEdgeError (grid_indices i) (grid_indices (i + o)) o
                 = true
              /\ classifyAction (parseInt a) (parseInt b) o <> NoAction)
    /\ (r = false ->
        st' = two_up_arrows
        /\ exists before p rest,
             visited = before ++ [p] /\ scan_order = visited ++ rest
             /\ pair_actionable two_up_arrows p = true
             /\ forall q, In q before -> pair_actionable two_up_arrows q = false)
    /\ (r = true ->
        st' = endGameMenu two_up_arrows /\ game_over st' = true
        /\ visited = scan_order
        /\ forall q, In q scan_order -> pair_actionable two_up_arrows q = false).
Proof.
  apply (endGameCheck_finds_first_move two_up_arrows). reflexivity.
Defined.

(** On [two_up_arrows] the scan stops at the third pair it examines. *)
Example two_up_arrows_scan :
  endGameCheck two_up_arrows = Some (two_up_arrows, false)
  /\ endGameCheck_visited two_up_arrows = Some [(0, 1); (0, 4); (0, 5)].
Proof. split; vm_compute; reflexivity. Qed.

(** ** Gravity *)

Lemma applyActionGravity_outside i j st :
  i < 0 \/ 4 <= i -> applyActionGravity i j st = Some st.
Proof.
  intros H. unfold applyActionGravity. cbn [applyActionGravity_rec].
  destruct (Z.ltb_spec i 0); [reflexivity |].
  destruct (Z.geb_spec i 4); [| lia].
  cbn [orb]. rewrite orb_true_r. reflexivity.
Qed.

Lemma insertNewArrow_outside i j content st :
  i < 0 \/ 4 < i -> insertNewArrow i j content st = Some (st, false).
Proof.
  intros H. unfold insertNewArrow.
  destruct (is_animating st j); [reflexivity |].
  destruct (Z.ltb_spec i 0); [reflexivity |].
  destruct (Z.gtb_spec i 4); [| lia].
  cbn [orb]. rewrite orb_true_r. reflexivity.
Qed.

(** Splits every cell that [H] inspects into "0", a positive number, a
    negative number, "NaN" and "animatingto". *)
Ltac split_cells H :=
  repeat match type of H with
         | context [match ?c with _ => _ end] =>
             is_var c;
             destruct c as [[[| ? | ?] |] |];
             vm_compute in H; try discriminate H
         end.

(** Exposes the 25 cells of a board at rest. *)
Ltac open_board st Hlen Hrest :=
  let cs := fresh "cs" in
  let an := fresh "an" in
  let fl := fresh "fl" in
  destruct st as [cs ? ? ? an ? ? fl ?];
  destruct Hrest as [Hfl Han];
  cbn [cells in_flight animating_columns] in Hlen, Hfl, Han; subst an fl;
  do 25 (destruct cs as [| ? cs]; [discriminate Hlen |]);
  destruct cs; [| discriminate Hlen]; clear Hlen.

Lemma action_gravity_outcome st i j :
  length (cells st) = 25%nat -> 0 <= j <= 4 -> at_rest st ->
  forallb is_numeral (column st j) = true ->
  exists col,
    gravity_outcome st i j = Some ([], only_floating st i j, col)
    /\ (only_floating st i j = true -> col = compact (column st j)).
Proof.
  intros Hlen Hj Hrest Hnum.
  open_board st Hlen Hrest.
  assert (Hi : i = 0 \/ i = 1 \/ i = 2 \/ i = 3 \/ (i < 0 \/ 4 <= i)) by lia.
  assert (Hj' : j = 0 \/ j = 1 \/ j = 2 \/ j = 3 \/ j = 4) by lia.
  clear Hj.
  destruct Hj' as [-> | [-> | [-> | [-> | ->]]]];
    vm_compute in Hnum; split_cells Hnum; clear Hnum;
    (destruct Hi as [-> | [-> | [-> | [-> | Hi]]]];
     [ | | | |
       unfold gravity_outcome, only_floating;
       rewrite (applyActionGravity_outside i _ _ Hi);
       cbn [forallb];
       rewrite !(proj2 (Z.eqb_neq _ i)) by lia;
       cbn [mbind option_bind] ];
     vm_compute; eexists;
     (split;
      [ reflexivity
      | first [ intros _; reflexivity | intros H; discriminate H ] ])).
Qed.

Lemma new_arrow_outcome st i j z :
  length (cells st) = 25%nat -> 0 <= j <= 4 -> at_rest st ->
  forallb is_numeral (column st j) = true ->
  settled_column st j = true ->
  exists accepted : bool,
    drop_outcome st i j (Num (Int z))
    = Some (accepted, [], true,
            if accepted
            then compact (<[Z.to_nat i := Some (Num (Int z))]> (column st j))
            else column st j).
Proof.
  intros Hlen Hj Hrest Hnum Hset.
  open_board st Hlen Hrest.
  assert (Hi : i = 0 \/ i = 1 \/ i = 2 \/ i = 3 \/ i = 4 \/ (i < 0 \/ 4 < i))
    by lia.
  assert (Hj' : j = 0 \/ j = 1 \/ j = 2 \/ j = 3 \/ j = 4) by lia.
  clear Hj.
  destruct Hj' as [-> | [-> | [-> | [-> | ->]]]];
    vm_compute in Hnum; split_cells Hnum; clear Hnum;
    vm_compute in Hset; try discriminate Hset; clear Hset;
    (destruct Hi as [-> | [-> | [-> | [-> | [-> | Hi]]]]];
     [ | | | | |
       exists false; unfold drop_outcome;
       rewrite (insertNewArrow_outside i _ _ _ Hi);
       vm_compute; reflexivity ];
     destruct z;
     match goal with
     | |- exists a, ?lhs = _ =>
         let v := eval vm_compute in lhs in
         match v with
         | Some (?a, _, _, _) => exists a
         end
     end;
     vm_compute; reflexivity).
Qed.

(** The arrows above a gap of two cells fall into it. *)
Example gap_is_filled :
  only_floating column_with_gap 1 0 = true
  /\ gravity_outcome column_with_gap 1 0
     = Some ([], true,
             [Some (Num (Int 0)); Some (Num (Int 0)); Some (Num (Int 2));
              Some (Num (Int 3)); Some (Num (Int 4))]).
Proof. split; vm_compute; reflexivity. Qed.

(** C8, as the specification states it, fails: in column 0 of
    [column_with_hole] (arrows in rows 0, 2 and 4, no animation in flight)
    [applyActionGravity 2 0] drops the arrow of row 2 to row 3 and stops at
    the empty cell of row 1; when every animation has finished the arrow of
    row 0 still has an empty cell directly beneath it. *)
Lemma gravity_leaves_floating_arrow :
  length (cells column_with_hole) = 25%nat
  /\ at_rest column_with_hole
  /\ column column_with_hole 0
     = [Some (Num (Int 1)); Some (Num (Int 0)); Some (Num (Int 1));
        Some (Num (Int 0)); Some (Num (Int 1))]
  /\ gravity_outcome column_with_hole 2 0
     = Some ([], false,
             [Some (Num (Int 1)); Some (Num (Int 0)); Some (Num (Int 0));
              Some (Num (Int 1)); Some (Num (Int 1))]).
Proof. repeat split. Qed.

(** * Further properties *)

(** ** Cell ids and grid coordinates *)

(** X2.  [grid_id] undoes [grid_indices] on every number; [grid_indices]
    undoes [grid_id] on every row from 0 and column 0..4; and the indices of
    a cell id 0..24 are a row and a column of the grid, the column being
    the remainder of the id by 5. *)
Theorem grid_coordinates_round_trip :
  (forall n, grid_id (fst (grid_indices n)) (snd (grid_indices n)) = n)
  /\ (forall i j, 0 <= i -> 0 <= j <= 4 -> grid_indices (grid_id i j) = (i, j))
  /\ (forall n, 0 <= n < 25 ->
        0 <= fst (grid_indices n) <= 4
        /\ 0 <= snd (grid_indices n) <= 4
        /\ n = 5 * fst (grid_indices n) + snd (grid_indices n)).
Proof.
  split; [exact grid_id_indices |]. split; [exact grid_indices_id |].
  intros n Hn. unfold grid_indices; cbn [fst snd].
  pose proof (Z.rem_bound_pos n 5). pose proof (Z.quot_rem' n 5).
  assert (n - Z.rem n 5 = Z.quot n 5 * 5) as -> by lia.
  rewrite Z.quot_mul by lia. lia.
Qed.

(** ** The next-arrow queue *)

Lemma random_arrow_cases rand :
  getRandomArrow rand = Some 1 \/ getRandomArrow rand = Some 2
  \/ getRandomArrow rand = Some 3 \/ getRandomArrow rand = Some 4
  \/ getRandomArrow rand = Some 5 \/ getRandomArrow rand = Some 7
  \/ getRandomArrow rand = Some 8 \/ getRandomArrow rand = Some 10.
Proof.
  unfold getRandomArrow. cbn [random_arrow_id].
  repeat (destruct (Qle_bool _ rand); cbn [negb]; [| cbn; tauto]).
  cbn. tauto.
Qed.

Lemma random_arrow_basic rand :
  exists a, getRandomArrow rand = Some a /\ In a basic_arr.
Proof.
  destruct (random_arrow_cases rand) as [H|[H|[H|[H|[H|[H|[H|H]]]]]]];
    rewrite H; eexists; (split; [reflexivity | cbn; tauto]).
Qed.

Lemma Qle_bool_false a b : Qle_bool a b = false <-> (b < a)%Q.
Proof.
  split.
  - intros H. apply Qnot_le_lt. intros Hle.
    apply Qle_bool_iff in Hle. congruence.
  - intros H. destruct (Qle_bool a b) eqn:E; [| reflexivity].
    apply Qle_bool_iff in E. exfalso. exact (Qlt_not_le _ _ H E).
Qed.

Ltac q_close :=
  first [ reflexivity | discriminate
        | unfold Qle; cbn; lia | unfold Qlt; cbn; lia ].

(** X3.  Whatever [Math.random()] gives, [getRandomArrow] returns one of
    the eight one-directional arrows; a value in the [k]-th eighth of
    [0, 1) gives the [k]-th entry of [1, 2, 3, 4, 5, 7, 8, 10], so every
    one-directional arrow is produced, each by one eighth of the values. *)
Theorem getRandomArrow_in_basic_arr :
  (forall rand, exists a, getRandomArrow rand = Some a /\ In a basic_arr)
  /\ (forall rand k,
        0 <= k <= 7 ->
        (inject_Z k / 8 <= rand)%Q -> (rand < inject_Z (k + 1) / 8)%Q ->
        getRandomArrow rand = valid_numbers !! Z.to_nat k)
  /\ (forall a, In a basic_arr ->
        exists rand, (0 <= rand)%Q /\ (rand < 1)%Q
                     /\ getRandomArrow rand = Some a).
Proof.
  split; [exact random_arrow_basic |]. split.
  - intros rand k Hk Hlo Hhi.
    assert (Htest : forall i, 1 <= i <= 7 ->
              negb (Qle_bool (inject_Z i / 8) rand) = (k <? i)).
    { intros i Hi. destruct (Z.ltb_spec k i) as [Hlt | Hge].
      - apply negb_true_iff, Qle_bool_false.
        eapply Qlt_le_trans; [exact Hhi |].
        apply Qmult_le_compat_r; [| discriminate].
        rewrite <- Zle_Qle. lia.
      - apply negb_false_iff, Qle_bool_iff.
        eapply Qle_trans; [| exact Hlo].
        apply Qmult_le_compat_r; [| discriminate].
        rewrite <- Zle_Qle. lia. }
    unfold getRandomArrow. cbn [random_arrow_id].
    rewrite !Htest by lia.
    assert (E : k = 0 \/ k = 1 \/ k = 2 \/ k = 3 \/ k = 4 \/ k = 5 \/ k = 6
                \/ k = 7) by lia.
    repeat (destruct E as [-> | E]; [reflexivity |]). subst k. reflexivity.
  - intros a Ha. cbn in Ha.
    repeat (destruct Ha as [<- | Ha]); [.. | contradiction].
    + exists 0%Q. repeat split; q_close.
    + exists (4 # 8). repeat split; q_close.
    + exists (6 # 8). repeat split; q_close.
    + exists (2 # 8). repeat split; q_close.
    + exists (7 # 8). repeat split; q_close.
    + exists (3 # 8). repeat split; q_close.
    + exists (1 # 8). repeat split; q_close.
    + exists (5 # 8). repeat split; q_close.
Qed.

(** ** The edge resolver and the neighbours of a cell *)

Lemma edge_resolver_table :
  forallb
    (fun a =>
       forallb
         (fun b =>
            Bool.eqb (existsb (Z.eqb (b - a)) action_dists
                      && resolveEdgeError (grid_indices a) (grid_indices b)
                                          (b - a))
                     (adjacent a b))
         cell_ids)
    cell_ids
  = true.
Proof. vm_compute. reflexivity. Qed.

(** X18.  On the grid, the offsets of [action_dists] that
    [resolveEdgeError] accepts are exactly those between two cells that
    touch: for cell ids [a] and [b] in 0..24, [b - a] is one of -6, -5, -4,
    -1, 1, 4, 5, 6 and is accepted by [resolveEdgeError] if and only if the
    rows and the columns of [a] and [b] differ by at most one and [a] is not
    [b].  The offsets that wrap around an edge of the grid are the ones it
    rejects. *)
Theorem edge_resolver_accepts_neighbours a b :
  0 <= a < 25 -> 0 <= b < 25 ->
  (In (b - a) action_dists
   /\ resolveEdgeError (grid_indices a) (grid_indices b) (b - a) = true)
  <-> adjacent a b = true.
Proof.
  intros Ha Hb. pose proof edge_resolver_table as T.
  rewrite forallb_forall in T.
  specialize (T a (proj2 (cell_ids_range a) Ha)).
  rewrite forallb_forall in T.
  specialize (T b (proj2 (cell_ids_range b) Hb)).
  apply Bool.eqb_prop in T. rewrite <- T, andb_true_iff.
  rewrite existsb_exists. split.
  - intros [Hin He]. split; [| exact He].
    exists (b - a). split; [exact Hin | apply Z.eqb_refl].
  - intros [(d & Hin & Hd) He]. apply Z.eqb_eq in Hd. subst d. tauto.
Qed.

Lemma edge_resolver_accepts_neighbours_witness :
  (In (9 - 3) action_dists
   /\ resolveEdgeError (grid_indices 3) (grid_indices 9) (9 - 3) = true)
  <-> adjacent 3 9 = true.
Proof.
  apply (edge_resolver_accepts_neighbours 3 9); lia.
Defined.

(** ** Inverting the move resolver *)

Lemma set_status_range id s st st' :
  set_status id s st = Some st' ->
  0 <= id < Z.of_nat (length (cells st))
  /\ st' = set_cells (<[Z.to_nat id := s]> (cells st)) st.
Proof.
  unfold set_status.
  destruct (Z.leb_spec 0 id); cbn [andb]; [| discriminate].
  destruct (Z.ltb_spec id (Z.of_nat (length (cells st)))); [| discriminate].
  intros [= <-]. split; [lia | reflexivity].
Qed.

Lemma updateGridCell_inv i j c st st' ok :
  updateGridCell i j c st = Some (st', ok) ->
  is_animating st j = false ->
  0 <= grid_id i j < Z.of_nat (length (cells st))
  /\ st' = set_cells (<[Z.to_nat (grid_id i j) := c]> (cells st)) st.
Proof.
  unfold updateGridCell. intros H Ha. rewrite Ha in H.
  destruct (set_status (grid_id i j) c st) as [s1|] eqn:E; [| discriminate].
  injection H as <- _. apply (set_status_range _ _ _ _ E).
Qed.

(** Every way [handleAction_resolve] rewrites the two cells. *)
Lemma resolve_inversion st origin clone_status x y st1 calls :
  handleAction_resolve st origin clone_status x y = Some (Applied st1 calls) ->
  exists dest_status,
    in_grid x y = true
    /\ is_animating st (pixel_cell x) = false
    /\ is_animating st (Z.rem origin 5) = false
    /\ 0 <= origin < Z.of_nat (length (cells st))
    /\ cell_status st (dest_id x y) = Some dest_status
    /\ resolveEdgeError (grid_indices origin) (pixel_cell y, pixel_cell x)
                        (dest_id x y - origin) = true
    /\ classifyAction (parseInt clone_status) (parseInt dest_status)
                      (dest_id x y - origin) <> NoAction
    /\ st1 = resolved st
               (classifyAction (parseInt clone_status) (parseInt dest_status)
                               (dest_id x y - origin))
               (parseInt clone_status) (parseInt dest_status)
               origin (dest_id x y)
    /\ calls = gravity_calls (parseInt clone_status) (parseInt dest_status)
                 (dest_id x y - origin) (grid_indices origin)
                 (pixel_cell y) (pixel_cell x) (Int 0)
                 (action_dest_content
                    (classifyAction (parseInt clone_status)
                                    (parseInt dest_status)
                                    (dest_id x y - origin))
                    (parseInt clone_status) (parseInt dest_status)).
Proof.
  unfold handleAction_resolve. fold (dest_id x y). intros H.
  destruct (in_grid x y) eqn:Hgrid; [| discriminate].
  destruct (is_animating st (pixel_cell x)) eqn:Hj; [discriminate |].
  destruct (is_animating st (Z.rem origin 5)) eqn:Ho; [discriminate |].
  cbn [orb] in H.
  destruct (cell_status st (dest_id x y)) as [ds|] eqn:Hds; [| discriminate].
  cbn [mbind option_bind] in H.
  destruct (resolveEdgeError _ _ _) eqn:He; cbn [negb] in H; [| discriminate].
  cbv zeta in H. exists ds.
  pose proof (cell_status_range _ _ _ Hds) as Hd.
  pose proof (grid_id_indices origin) as Hid.
  assert (Hso : snd (grid_indices origin) = Z.rem origin 5) by reflexivity.
  destruct (classifyAction _ _ _) eqn:Hc; [| | | discriminate];
    (match type of H with
     | (updateGridCell ?i ?j ?c ?s ≫= _) = _ =>
         destruct (updateGridCell i j c s) as [[s1 ok1]|] eqn:E1;
         [| discriminate]; cbn [mbind option_bind fst] in H;
         apply updateGridCell_inv in E1 as [Hr1 ->];
         [| rewrite Hso; try destruct (strict_eq _ _); exact Ho];
         rewrite Hid in Hr1; rewrite ?Hid in H
     end;
     match type of H with
     | (updateGridCell ?i ?j ?c ?s ≫= _) = _ =>
         destruct (updateGridCell i j c s) as [[s2 ok2]|] eqn:E2;
         [| discriminate]; cbn [mbind option_bind fst] in H;
         apply updateGridCell_inv in E2 as [Hr2 ->];
         [| try destruct (strict_eq _ _); exact Hj];
         fold (dest_id x y) in H
     end;
     injection H as <- <-;
     repeat (split; [first [reflexivity | assumption | discriminate
                           | destruct (strict_eq _ _); exact Hr1] |]);
     first [ reflexivity
           | split; [| reflexivity];
             unfold resolved, status_zero; game_fields;
             try destruct (strict_eq _ _); game_fields; reflexivity ]).
Qed.

(** ** What a gravity step may change *)

Lemma changes_within_refl cols st : changes_within cols st st.
Proof. repeat split. Qed.

Lemma changes_within_trans cols a b c :
  changes_within cols a b -> changes_within cols b c ->
  changes_within cols a c.
Proof.
  intros (L1 & C1 & A1) (L2 & C2 & A2). split; [congruence |]. split.
  - intros id H0 Hid. rewrite C2, C1 by assumption. reflexivity.
  - intros k Hk. rewrite A2, A1 by assumption. reflexivity.
Qed.

Lemma changes_within_mono cols cols' a b :
  (forall k, In k cols -> In k cols') ->
  changes_within cols a b -> changes_within cols' a b.
Proof.
  intros Hsub (L & C & A). split; [exact L |]. split.
  - intros id H0 Hid. apply C; [exact H0 | auto].
  - intros k Hk. apply A. auto.
Qed.

Lemma grid_id_column i j :
  0 <= i -> 0 <= j <= 4 -> Z.rem (grid_id i j) 5 = j.
Proof.
  intros Hi Hj. pose proof (grid_indices_id i j Hi Hj) as H.
  unfold grid_indices in H. injection H as _ H. exact H.
Qed.

Lemma changes_within_cell i j s st :
  0 <= i -> 0 <= j <= 4 ->
  changes_within [j] st
    (set_cells (<[Z.to_nat (grid_id i j) := s]> (cells st)) st).
Proof.
  intros Hi Hj. split; [cbn [cells set_cells]; apply length_insert |].
  split; [| reflexivity].
  intros id H0 Hid. rewrite !cell_status_eq by lia. cbn [cells set_cells].
  apply list_lookup_insert_ne. intros E.
  apply Hid. left. rewrite <- (grid_id_column i j Hi Hj).
  f_equal. unfold grid_id in *. lia.
Qed.

Lemma changes_within_lock j l st :
  (forall k, k <> j -> existsb (Z.eqb k) l = is_animating st k) ->
  changes_within [j] st (set_animating_columns l st).
Proof.
  intros H. split; [reflexivity |]. split; [reflexivity |].
  intros k Hk. apply H. intros ->. apply Hk. left. reflexivity.
Qed.

Lemma existsb_snoc k l j :
  existsb (Z.eqb k) (l ++ [j]) = existsb (Z.eqb k) l || (k =? j).
Proof. rewrite existsb_app. cbn. rewrite orb_false_r. reflexivity. Qed.

Lemma existsb_remove_element l j :
  existsb (Z.eqb j) (remove_element l j) = false.
Proof.
  unfold remove_element. induction l as [| a l IH]; [reflexivity |].
  rewrite filter_cons. destruct (decide (a ≠ j)) as [Hne | Heq].
  - cbn [existsb]. rewrite IH. destruct (Z.eqb_spec j a); [congruence |].
    reflexivity.
  - exact IH.
Qed.

Lemma existsb_remove_other l j k :
  k <> j -> existsb (Z.eqb k) (remove_element l j) = existsb (Z.eqb k) l.
Proof.
  intros Hk. unfold remove_element. induction l as [| a l IH]; [reflexivity |].
  rewrite filter_cons. destruct (decide (a ≠ j)) as [Hne | Heq].
  - cbn [existsb]. rewrite IH. reflexivity.
  - cbn [existsb]. rewrite IH. destruct (Z.eqb_spec k a); [| reflexivity].
    exfalso. apply Heq. congruence.
Qed.

(** ** The engine keeps the board well formed and does not throw *)

Lemma getAnimationEnvironment_spec i j st :
  length (cells st) = 25%nat ->
  getAnimationEnvironment i j st = Some (st, None)
  \/ exists st' content,
       getAnimationEnvironment i j st = Some (st', Some (mkEnv i j content))
       /\ 0 <= i <= 3 /\ 0 <= j <= 4
       /\ changes_within [j] st st'
       /\ in_flight st' = in_flight st
       /\ is_animating st' j = true.
Proof.
  intros Hlen. unfold getAnimationEnvironment.
  destruct (cell_in_gravity_range i j) eqn:Hr; cbn [negb]; [| tauto].
  apply range_spec in Hr.
  destruct (can_be_dropped_to_total (i + 1) j st Hlen) as (b & -> & Hb).
  cbn [mbind option_bind].
  destruct b; cbn [negb]; [| tauto].
  specialize (Hb eq_refl). right.
  set (st1 := if is_animating st j then st
              else set_animating_columns (animating_columns st ++ [j]) st).
  assert (Hlen1 : length (cells st1) = 25%nat)
    by (subst st1; destruct (is_animating st j); exact Hlen).
  assert (Hfl1 : in_flight st1 = in_flight st)
    by (subst st1; destruct (is_animating st j); reflexivity).
  assert (Han1 : is_animating st1 j = true).
  { subst st1. destruct (is_animating st j) eqn:E; [exact E |].
    unfold is_animating; cbn [animating_columns set_animating_columns].
    rewrite existsb_snoc, Z.eqb_refl. apply orb_true_r. }
  assert (Hch1 : changes_within [j] st st1).
  { subst st1. destruct (is_animating st j); [apply changes_within_refl |].
    apply changes_within_lock. intros k Hk. rewrite existsb_snoc.
    destruct (Z.eqb_spec k j); [congruence |]. apply orb_false_r. }
  destruct (cell_status_is_Some st1 (grid_id i j)) as [c Hc];
    [unfold grid_id; lia |].
  rewrite Hc. cbn [mbind option_bind].
  rewrite set_status_eq by (unfold grid_id; lia). cbn [mbind option_bind].
  rewrite set_status_eq
    by (unfold grid_id; cbn [cells set_cells]; rewrite length_insert; lia).
  cbn [mbind option_bind]. eexists _, _. split; [reflexivity |].
  split; [lia |]. split; [lia |]. split; [| split; [exact Hfl1 | exact Han1]].
  eapply changes_within_trans; [exact Hch1 |].
  eapply changes_within_trans; apply changes_within_cell; lia.
Qed.

Lemma applyGravitySteps_spec i j st :
  length (cells st) = 25%nat ->
  applyGravitySteps i j st = Some st
  \/ exists st' a,
       applyGravitySteps i j st = Some st'
       /\ changes_within [j] st st'
       /\ in_flight st' = in_flight st ++ [a]
       /\ animation_ok a /\ anim_j a = j /\ anim_stage a = Anim1
       /\ is_animating st' j = true.
Proof.
  intros Hlen. unfold applyGravitySteps.
  destruct (getAnimationEnvironment_spec i j st Hlen)
    as [-> | (st1 & c & -> & Hi & Hj & Hch & Hfl & Han)]; [tauto |].
  right. cbn [mbind option_bind]. eexists _, _. split; [reflexivity |].
  split; [exact Hch |].
  split; [cbn [in_flight start_animation set_in_flight];
          rewrite Hfl; reflexivity |].
  split; [unfold animation_ok; cbn; lia |].
  split; [reflexivity |]. split; [reflexivity | exact Han].
Qed.

Lemma Exists_middle {A} (P : A -> Prop) l1 l2 x :
  Exists P (l1 ++ l2) -> Exists P (l1 ++ l2 ++ [x]).
Proof.
  rewrite !Exists_app. intros [H | H]; [left; exact H | right; left; exact H].
Qed.

Lemma applyGravitySteps_ok pending i j st :
  engine_ok pending st ->
  exists st',
    applyGravitySteps i j st = Some st'
    /\ engine_ok pending st' /\ changes_within [j] st st'.
Proof.
  intros (Hlen & Hfl & Hlock).
  destruct (applyGravitySteps_spec i j st Hlen)
    as [-> | (st' & a & -> & Hch & Hfl' & Ha & Haj & _ & Han)].
  - exists st. split; [reflexivity |].
    split; [repeat split; assumption | apply changes_within_refl].
  - exists st'. split; [reflexivity |]. split; [| exact Hch].
    destruct Hch as (L & C & A).
    split; [congruence |]. rewrite Hfl'. split.
    + rewrite app_assoc. apply Forall_app. split; [exact Hfl |].
      constructor; [exact Ha | constructor].
    + intros k Hk. destruct (Z.eq_dec k j) as [-> | Hne].
      * rewrite app_assoc. apply Exists_app. right.
        constructor. exact Haj.
      * apply Exists_middle. apply Hlock. rewrite <- A; [exact Hk |].
        cbn. intuition.
Qed.

Lemma applyActionGravity_rec_ok pending fuel i j st :
  engine_ok pending st -> (0 < fuel)%nat ->
  (0 <= i < 4 -> i + 2 <= Z.of_nat fuel) ->
  exists st',
    applyActionGravity_rec fuel i j st = Some st'
    /\ engine_ok pending st' /\ changes_within [j] st st'.
Proof.
  revert i st. induction fuel as [| fuel IH]; intros i st Hok Hpos Hfuel;
    [lia |].
  cbn [applyActionGravity_rec].
  destruct ((i <? 0) || (j <? 0) || (i >=? 4) || (j >? 4)) eqn:Hguard;
    [exists st; split; [reflexivity | split;
                        [exact Hok | apply changes_within_refl]] |].
  rewrite !orb_false_iff in Hguard. destruct Hguard as [[[H1 H2] H3] H4].
  apply Z.ltb_ge in H1, H2. rewrite Z.geb_leb in H3. apply Z.leb_gt in H3.
  rewrite Z.gtb_ltb in H4. apply Z.ltb_ge in H4.
  destruct (cell_status_is_Some st (grid_id i j)) as [s Hs];
    [destruct Hok as [Hlen _]; unfold grid_id; lia |].
  rewrite Hs. cbn [mbind option_bind].
  destruct (is_zero s || is_animatingto s);
    [exists st; split; [reflexivity | split;
                        [exact Hok | apply changes_within_refl]] |].
  destruct (applyGravitySteps_ok pending i j st Hok) as (st1 & -> & Hok1 & Hch1).
  cbn [mbind option_bind].
  destruct (IH (i - 1) st1 Hok1) as (st2 & E & Hok2 & Hch2); [lia | lia |].
  exists st2. split; [exact E |]. split; [exact Hok2 |].
  eapply changes_within_trans; eassumption.
Qed.

Lemma applyActionGravity_ok i j st :
  board_ok st ->
  exists st',
    applyActionGravity i j st = Some st'
    /\ board_ok st' /\ changes_within [j] st st'.
Proof.
  intros Hok. apply applyActionGravity_rec_ok; [exact Hok | lia | cbn; lia].
Qed.

Lemma apply_gravity_calls_ok cols calls st :
  board_ok st ->
  (forall c, In c calls -> In (snd c) cols) ->
  exists st',
    apply_gravity_calls calls st = Some st'
    /\ board_ok st' /\ changes_within cols st st'.
Proof.
  revert st. induction calls as [| [i j] rest IH]; intros st Hok Hcols.
  - exists st. split; [reflexivity |].
    split; [exact Hok | apply changes_within_refl].
  - cbn [apply_gravity_calls].
    destruct (applyActionGravity_ok i j st Hok) as (st1 & -> & Hok1 & Hch1).
    cbn [mbind option_bind].
    destruct (IH st1 Hok1) as (st2 & E & Hok2 & Hch2);
      [intros c Hc; apply Hcols; right; exact Hc |].
    exists st2. split; [exact E |]. split; [exact Hok2 |].
    eapply changes_within_trans; [| exact Hch2].
    eapply changes_within_mono; [| exact Hch1].
    intros k [<- | []]. apply (Hcols (i, j)). left. reflexivity.
Qed.

Lemma updateEnvironmentMidAnimation_ok e st :
  length (cells st) = 25%nat ->
  0 <= env_row e -> env_row e + 2 <= 4 -> 0 <= env_col e <= 4 ->
  exists st',
    updateEnvironmentMidAnimation e st
    = Some (st', mkEnv (env_row e + 1) (env_col e) (env_content e))
    /\ changes_within [env_col e] st st'
    /\ in_flight st' = in_flight st
    /\ animating_columns st' = animating_columns st.
Proof.
  intros Hlen Hr0 Hr Hc. unfold updateEnvironmentMidAnimation.
  rewrite set_status_eq by (unfold grid_id; lia). cbn [mbind option_bind].
  rewrite set_status_eq
    by (unfold grid_id; cbn [cells set_cells]; rewrite length_insert; lia).
  cbn [mbind option_bind].
  rewrite set_status_eq
    by (unfold grid_id; cbn [cells set_cells]; rewrite !length_insert; lia).
  cbn [mbind option_bind]. eexists. split; [reflexivity |].
  split; [| split; reflexivity].
  eapply changes_within_trans; [| apply changes_within_cell; lia].
  eapply changes_within_trans; apply changes_within_cell; lia.
Qed.

Lemma updateEnvironmentPostAnimation_ok e st :
  length (cells st) = 25%nat ->
  0 <= env_row e <= 3 -> 0 <= env_col e <= 4 ->
  exists st',
    updateEnvironmentPostAnimation e st = Some st'
    /\ changes_within [env_col e] st st'
    /\ in_flight st' = in_flight st
    /\ is_animating st' (env_col e) = false.
Proof.
  intros Hlen Hr Hc. unfold updateEnvironmentPostAnimation.
  set (st1 := if is_animating st (env_col e)
              then set_animating_columns
                     (remove_element (animating_columns st) (env_col e)) st
              else st).
  assert (Hlen1 : length (cells st1) = 25%nat)
    by (subst st1; destruct (is_animating st (env_col e)); exact Hlen).
  assert (Hfl1 : in_flight st1 = in_flight st)
    by (subst st1; destruct (is_animating st (env_col e)); reflexivity).
  assert (Han1 : is_animating st1 (env_col e) = false).
  { subst st1. destruct (is_animating st (env_col e)) eqn:E; [| exact E].
    apply existsb_remove_element. }
  assert (Hch1 : changes_within [env_col e] st st1).
  { subst st1. destruct (is_animating st (env_col e));
      [| apply changes_within_refl].
    apply changes_within_lock. intros k Hk.
    apply existsb_remove_other, Hk. }
  destruct (cell_status_is_Some st1 (grid_id (env_row e + 1) (env_col e)))
    as [next Hnext]; [unfold grid_id; lia |].
  rewrite Hnext. cbn [mbind option_bind].
  assert (Hst2 : exists st2,
            (if is_animatingto next
             then fst <$> updateGridCell (env_row e + 1) (env_col e)
                                         (env_content e) st1
             else Some st1) = Some st2
            /\ length (cells st2) = 25%nat
            /\ changes_within [env_col e] st1 st2
            /\ in_flight st2 = in_flight st
            /\ is_animating st2 (env_col e) = false).
  { destruct (is_animatingto next);
      [| exists st1; repeat split; assumption].
    rewrite updateGridCell_eq by (try exact Han1; unfold grid_id; lia).
    eexists. split; [reflexivity |].
    cbn [cells set_cells in_flight fst]. rewrite length_insert.
    split; [exact Hlen1 |].
    split; [apply changes_within_cell; lia |]. tauto. }
  destruct Hst2 as (st2 & -> & Hlen2 & Hch2 & Hfl2 & Han2).
  cbn [mbind option_bind].
  destruct (cell_status_is_Some st2 (grid_id (env_row e) (env_col e)))
    as [cur Hcur]; [unfold grid_id; lia |].
  rewrite Hcur. cbn [mbind option_bind].
  destruct (is_zero cur).
  - rewrite set_status_eq by (unfold grid_id; lia).
    eexists. split; [reflexivity |].
    split; [| split; [exact Hfl2 | exact Han2]].
    eapply changes_within_trans; [exact Hch1 |].
    eapply changes_within_trans; [exact Hch2 |].
    apply changes_within_cell; lia.
  - exists st2. split; [reflexivity |].
    split; [| split; [exact Hfl2 | exact Han2]].
    eapply changes_within_trans; eassumption.
Qed.

(** A callback either lands its arrow, which unlocks the column, or starts
    the next animation of the chain. *)
Lemma on_finished_spec a st :
  length (cells st) = 25%nat -> animation_ok a ->
  exists st',
    on_finished a st = Some st'
    /\ changes_within [anim_j a] st st'
    /\ ((in_flight st' = in_flight st
         /\ is_animating st' (anim_j a) = false)
        \/ exists a',
             in_flight st' = in_flight st ++ [a']
             /\ animation_ok a' /\ anim_j a' = anim_j a
             /\ stage_index (anim_stage a')
                = stage_index (anim_stage a) + 1).
Proof.
  intros Hlen (Hi & Hj & Hcol & Hrow & Hr3).
  assert (Hsi : 0 <= stage_index (anim_stage a) <= 3)
    by (destruct (anim_stage a); cbn; lia).
  assert (Hpost : exists st',
            updateEnvironmentPostAnimation (anim_environment a) st = Some st'
            /\ changes_within [anim_j a] st st'
            /\ ((in_flight st' = in_flight st
                 /\ is_animating st' (anim_j a) = false)
                \/ exists a',
                     in_flight st' = in_flight st ++ [a']
                     /\ animation_ok a' /\ anim_j a' = anim_j a
                     /\ stage_index (anim_stage a')
                        = stage_index (anim_stage a) + 1)).
  { destruct (updateEnvironmentPostAnimation_ok (anim_environment a) st Hlen)
      as (st' & E & Hch & Hfl' & Han); [lia | lia |].
    rewrite Hcol in Hch, Han. exists st'. tauto. }
  assert (Hcont : forall next,
            stage_index next = stage_index (anim_stage a) + 1 ->
            exists st',
              continue_or_land a (anim_i a + stage_index next + 1) next st
              = Some st'
              /\ changes_within [anim_j a] st st'
              /\ ((in_flight st' = in_flight st
                   /\ is_animating st' (anim_j a) = false)
                  \/ exists a',
                       in_flight st' = in_flight st ++ [a']
                       /\ animation_ok a' /\ anim_j a' = anim_j a
                       /\ stage_index (anim_stage a')
                          = stage_index (anim_stage a) + 1)).
  { intros next Hnext. unfold continue_or_land.
    destruct (can_be_dropped_to_total (anim_i a + stage_index next + 1)
                                      (anim_j a) st Hlen) as (b & -> & Hb).
    cbn [mbind option_bind]. destruct b; [| exact Hpost].
    specialize (Hb eq_refl).
    destruct (updateEnvironmentMidAnimation_ok (anim_environment a) st Hlen)
      as (st1 & -> & Hch1 & Hfl1 & Han1); [lia | lia | lia |].
    cbn [mbind option_bind fst snd]. eexists. split; [reflexivity |].
    rewrite Hcol in Hch1.
    split; [exact Hch1 |]. right. eexists. split.
    { cbn [in_flight start_animation set_in_flight]. rewrite Hfl1.
      reflexivity. }
    split; [unfold animation_ok; cbn; lia |].
    split; [reflexivity | exact Hnext]. }
  unfold on_finished. destruct (anim_stage a) eqn:Hs.
  - replace (anim_i a + 2) with (anim_i a + stage_index Anim2 + 1)
      by (cbn; lia).
    apply Hcont. reflexivity.
  - replace (anim_i a + 3) with (anim_i a + stage_index Anim3 + 1)
      by (cbn; lia).
    apply Hcont. reflexivity.
  - replace (anim_i a + 4) with (anim_i a + stage_index Anim4 + 1)
      by (cbn; lia).
    apply Hcont. reflexivity.
  - exact Hpost.
Qed.

Lemma on_finished_ok pending a st :
  engine_ok (a :: pending) st ->
  exists st',
    on_finished a st = Some st'
    /\ engine_ok pending st' /\ changes_within [anim_j a] st st'.
Proof.
  intros (Hlen & Hfl & Hlock).
  cbn [app] in Hfl. apply Forall_cons in Hfl as [Ha Hfl].
  destruct (on_finished_spec a st Hlen Ha) as (st' & E & Hch & Hcases).
  exists st'. split; [exact E |]. split; [| exact Hch].
  pose proof Hch as (L & C & A).
  split; [congruence |].
  assert (Hother : forall k, k <> anim_j a -> is_animating st' k = true ->
                             Exists (fun b => anim_j b = k)
                                    (pending ++ in_flight st)).
  { intros k Hne Hk. rewrite A in Hk by (cbn; intuition).
    specialize (Hlock k Hk). cbn [app] in Hlock.
    apply Exists_cons in Hlock as [Hbad | Hlock]; [congruence | exact Hlock]. }
  destruct Hcases as [[Hfl' Han] | (a' & Hfl' & Ha' & Haj & _)].
  - rewrite Hfl'. split; [exact Hfl |].
    intros k Hk. apply Hother; [| exact Hk]. congruence.
  - rewrite Hfl'. split.
    + rewrite app_assoc. apply Forall_app. split; [exact Hfl |].
      constructor; [exact Ha' | constructor].
    + intros k Hk. destruct (Z.eq_dec k (anim_j a)) as [-> | Hne].
      * rewrite app_assoc. apply Exists_app. right. constructor. exact Haj.
      * apply Exists_middle, Hother; assumption.
Qed.

Lemma fire_all_ok l st :
  engine_ok l st ->
  exists st', fire_all l st = Some st' /\ board_ok st'
              /\ changes_within (map anim_j l) st st'.
Proof.
  revert st. induction l as [| a rest IH]; intros st Hok.
  - exists st. split; [reflexivity |].
    split; [exact Hok | apply changes_within_refl].
  - cbn [fire_all].
    destruct (on_finished_ok rest a st Hok) as (st1 & -> & Hok1 & Hch1).
    cbn [mbind option_bind].
    destruct (IH st1 Hok1) as (st2 & E & Hok2 & Hch2).
    exists st2. split; [exact E |]. split; [exact Hok2 |].
    eapply changes_within_trans.
    + eapply changes_within_mono; [| exact Hch1].
      intros k [<- | []]. left. reflexivity.
    + eapply changes_within_mono; [| exact Hch2].
      intros k Hk. right. exact Hk.
Qed.

Lemma frame_ok st :
  board_ok st ->
  exists st', frame st = Some st' /\ board_ok st'
              /\ changes_within (map anim_j (in_flight st)) st st'.
Proof.
  intros (Hlen & Hfl & Hlock). unfold frame.
  destruct (fire_all_ok (in_flight st) (set_in_flight [] st))
    as (st' & E & Hok & Hch).
  { split; [exact Hlen |]. cbn [in_flight set_in_flight app] in *.
    rewrite app_nil_r. split; [exact Hfl | exact Hlock]. }
  exists st'. split; [exact E |]. split; [exact Hok | exact Hch].
Qed.

Lemma engine_ok_ext pending st st' :
  length (cells st') = length (cells st) ->
  in_flight st' = in_flight st ->
  animating_columns st' = animating_columns st ->
  engine_ok pending st -> engine_ok pending st'.
Proof.
  intros L F A (Hlen & Hfl & Hlock). unfold engine_ok, is_animating.
  rewrite L, F, A. repeat split; assumption.
Qed.

Lemma insertNewArrow_ok i j content st :
  board_ok st ->
  exists st' ok,
    insertNewArrow i j content st = Some (st', ok)
    /\ board_ok st' /\ changes_within [j] st st'.
Proof.
  intros Hok. unfold insertNewArrow.
  assert (Hsame : exists st' ok,
            Some (st, false) = Some (st', ok)
            /\ board_ok st' /\ changes_within [j] st st').
  { exists st, false. split; [reflexivity |].
    split; [exact Hok | apply changes_within_refl]. }
  destruct (is_animating st j); [exact Hsame |].
  destruct ((i <? 0) || (j <? 0) || (i >? 4) || (j >? 4)) eqn:Hguard;
    [exact Hsame |].
  rewrite !orb_false_iff in Hguard. destruct Hguard as [[[H1 H2] H3] H4].
  apply Z.ltb_ge in H1, H2. rewrite Z.gtb_ltb in H3, H4.
  apply Z.ltb_ge in H3, H4.
  pose proof Hok as (Hlen & _).
  destruct (cell_status_is_Some st (grid_id i j)) as [s Hs];
    [unfold grid_id; lia |].
  rewrite Hs. cbn [mbind option_bind].
  destruct (is_zero s); cbn [negb]; [| exact Hsame].
  rewrite set_status_eq by (unfold grid_id; lia). cbn [mbind option_bind].
  match goal with
  | |- context [applyGravitySteps i j ?s] =>
      destruct (applyGravitySteps_ok [] i j s) as (st2 & -> & Hok2 & Hch2)
  end.
  { eapply engine_ok_ext; [| | | exact Hok]; try reflexivity.
    cbn [cells set_cells]. apply length_insert. }
  cbn [mbind option_bind]. exists st2, true. split; [reflexivity |].
  split; [exact Hok2 |].
  eapply changes_within_trans; [| exact Hch2].
  apply changes_within_cell; lia.
Qed.

Lemma handleAction_resolve_total st origin clone_status x y :
  length (cells st) = 25%nat -> 0 <= origin < 25 ->
  exists res, handleAction_resolve st origin clone_status x y = Some res.
Proof.
  intros Hlen Horigin.
  destruct (in_grid x y) eqn:Hgrid;
    [| unfold handleAction_resolve; rewrite Hgrid; eexists; reflexivity].
  destruct (is_animating st (pixel_cell x)) eqn:Hj.
  { rewrite (resolve_rejected _ _ _ _ _ Hlen Hgrid) by tauto.
    eexists; reflexivity. }
  destruct (is_animating st (Z.rem origin 5)) eqn:Ho.
  { rewrite (resolve_rejected _ _ _ _ _ Hlen Hgrid) by tauto.
    eexists; reflexivity. }
  destruct (resolveEdgeError (grid_indices origin) (pixel_cell y, pixel_cell x)
                             (dest_id x y - origin)) eqn:He.
  2:{ rewrite (resolve_rejected _ _ _ _ _ Hlen Hgrid) by tauto.
      eexists; reflexivity. }
  destruct (cell_status_is_Some st (dest_id x y)) as [ds Hds].
  { pose proof (in_grid_dest _ _ Hgrid). lia. }
  destruct (classifyAction (parseInt clone_status) (parseInt ds)
                           (dest_id x y - origin)) eqn:Hc.
  4:{ rewrite (resolve_rejected _ _ _ _ _ Hlen Hgrid).
      - eexists; reflexivity.
      - right; right; right. intros ds' Hds'.
        assert (ds' = ds) by congruence; subst ds'. exact Hc. }
  all: rewrite (resolve_applied st origin clone_status x y ds)
         by (repeat split; try assumption; try lia; rewrite Hc; discriminate);
       eexists; reflexivity.
Qed.

Lemma gravity_calls_columns src dest d origin ci cj ns nd c :
  In c (gravity_calls src dest d origin ci cj ns nd) ->
  In (snd c) [snd origin; cj].
Proof.
  unfold gravity_calls.
  destruct (_ && _); [intros [<- | []]; cbn; tauto |].
  destruct (_ && _); [intros [<- | []]; cbn; tauto |].
  intros H. apply in_app_or in H as [H | H].
  - destruct (strict_eq ns (Int 0)); [| destruct H].
    destruct H as [<- | []]. cbn; tauto.
  - destruct (strict_eq nd (Int 0)); [| destruct H].
    destruct H as [<- | []]. cbn; tauto.
Qed.

Lemma resolved_changes_within st a src dest origin x y :
  in_grid x y = true -> 0 <= origin ->
  changes_within [Z.rem origin 5; pixel_cell x] st
                 (resolved st a src dest origin (dest_id x y)).
Proof.
  intros Hgrid Ho. apply in_grid_cells in Hgrid as [Hx Hy].
  split; [unfold resolved; cbn [cells]; rewrite !length_insert; reflexivity |].
  split; [| reflexivity].
  intros id H0 Hid. rewrite !cell_status_eq by lia.
  unfold resolved; cbn [cells].
  rewrite !list_lookup_insert_ne; [reflexivity | |].
  - intros E. apply Hid. left. f_equal. lia.
  - intros E. apply Hid. right. left.
    rewrite <- (grid_id_column (pixel_cell y) (pixel_cell x)) by lia.
    f_equal. unfold dest_id, grid_id in *. lia.
Qed.

(** Whatever [handleAction] returns, it has changed its two columns only. *)
Lemma handleAction_keeps_ok st origin clone_status x y st' r :
  board_ok st ->
  handleAction st origin clone_status x y = Some (st', r) ->
  board_ok st' /\ changes_within [Z.rem origin 5; pixel_cell x] st st'.
Proof.
  intros Hok H. unfold handleAction in H.
  destruct (handleAction_resolve st origin clone_status x y) as [res|] eqn:E;
    [| discriminate].
  cbn [mbind option_bind] in H.
  destruct res as [s | s | s calls].
  - destruct (resolve_cases _ _ _ _ _ _ E) as [D | [D | (? & ? & ? & D & _)]];
      try discriminate D.
    injection D as ->. injection H as <- _.
    split; [exact Hok | apply changes_within_refl].
  - destruct (resolve_cases _ _ _ _ _ _ E) as [D | [D | (? & ? & ? & D & _)]];
      try discriminate D.
    injection D as ->. injection H as <- _.
    split; [exact Hok | apply changes_within_refl].
  - apply resolve_inversion in E
      as (ds & Hgrid & Hj & Ho & Horigin & Hds & He & Hc & -> & ->).
    match type of H with
    | context [apply_gravity_calls ?c ?s] =>
        destruct (apply_gravity_calls_ok [Z.rem origin 5; pixel_cell x] c s)
          as (st2 & E2 & Hok2 & Hch2)
    end.
    + eapply engine_ok_ext; [| | | exact Hok]; try reflexivity.
      unfold resolved; cbn [cells]. rewrite !length_insert. reflexivity.
    + intros c Hc'. apply gravity_calls_columns in Hc'. exact Hc'.
    + rewrite E2 in H. injection H as <- _. split; [exact Hok2 |].
      eapply changes_within_trans; [| exact Hch2].
      apply resolved_changes_within; [exact Hgrid | lia].
Qed.

Lemma handleAction_ok st origin clone_status x y :
  board_ok st -> 0 <= origin < 25 ->
  exists st' r,
    handleAction st origin clone_status x y = Some (st', r)
    /\ board_ok st'
    /\ changes_within [Z.rem origin 5; pixel_cell x] st st'.
Proof.
  intros Hok Horigin. pose proof Hok as (Hlen & _).
  assert (H : exists st' r,
            handleAction st origin clone_status x y = Some (st', r)).
  { unfold handleAction.
    destruct (handleAction_resolve_total st origin clone_status x y Hlen Horigin)
      as [res E].
    rewrite E. cbn [mbind option_bind].
    destruct res as [s | s | s calls]; try (eexists _, _; reflexivity).
    apply resolve_inversion in E
      as (ds & Hgrid & Hj & Ho & _ & Hds & He & Hc & -> & ->).
    match goal with
    | |- context [apply_gravity_calls ?c ?s] =>
        destruct (apply_gravity_calls_total c s) as (st2 & -> & _);
        [ unfold resolved; cbn [cells]; rewrite !length_insert; exact Hlen
        | eexists _, _; reflexivity ]
    end. }
  destruct H as (st' & r & E). exists st', r. split; [exact E |].
  apply (handleAction_keeps_ok _ _ _ _ _ _ _ Hok E).
Qed.

Lemma endGameCheck_ok st :
  length (cells st) = 25%nat ->
  exists r : bool,
    endGameCheck st = Some (if r then endGameMenu st else st, r).
Proof.
  intros Hlen. unfold endGameCheck.
  rewrite (scan_cells_first_hit st cell_ids Hlen)
    by (intros i Hi; apply cell_ids_range, Hi).
  cbn [mbind option_bind].
  destruct (snd (first_hit _ _)); [exists false | exists true]; reflexivity.
Qed.

Lemma callback_ok st before a after :
  board_ok st -> in_flight st = before ++ a :: after ->
  exists st',
    on_finished a (set_in_flight (before ++ after) st) = Some st'
    /\ board_ok st'.
Proof.
  intros (Hlen & Hfl & Hlock) E. cbn [app] in Hfl, Hlock.
  destruct (on_finished_ok [] a (set_in_flight (before ++ after) st))
    as (st' & E' & Hok' & _).
  { split; [exact Hlen |]. cbn [in_flight set_in_flight app].
    rewrite E in Hfl, Hlock. split.
    - apply Forall_app in Hfl as [Hb Ha].
      apply Forall_cons in Ha as [Ha Haft].
      constructor; [exact Ha |]. apply Forall_app. tauto.
    - intros j Hj. specialize (Hlock j Hj).
      rewrite Exists_app, Exists_cons in Hlock.
      rewrite Exists_cons, Exists_app. tauto. }
  exists st'. tauto.
Qed.

Lemma engine_step_ok st st' :
  board_ok st -> engine_step st st' -> board_ok st'.
Proof.
  intros Hok Hstep. revert Hok.
  destruct Hstep as [s origin cs x y s' r H
                    | s i j content s' ok H
                    | s before a after s' Hfl H
                    | s s' H
                    | s
                    | s s' r H]; intros Hok.
  - apply (handleAction_keeps_ok _ _ _ _ _ _ _ Hok H).
  - destruct (insertNewArrow_ok i j content s Hok) as (s2 & ok2 & E & Hok2 & _).
    rewrite E in H. injection H as <- _. exact Hok2.
  - destruct (callback_ok s before a after Hok Hfl) as (s2 & E & Hok2).
    rewrite E in H. injection H as <-. exact Hok2.
  - destruct (frame_ok s Hok) as (s2 & E & Hok2 & _).
    rewrite E in H. injection H as <-. exact Hok2.
  - unfold swapNextArrows.
    destruct (is_number_zero (spins_remaining s)); [exact Hok |].
    eapply engine_ok_ext; [| | | exact Hok]; reflexivity.
  - pose proof Hok as (Hlen & _).
    destruct (endGameCheck_ok s Hlen) as [r' E]. rewrite E in H.
    injection H as <- _. destruct r'; [| exact Hok].
    eapply engine_ok_ext; [| | | exact Hok]; reflexivity.
Qed.

Lemma engine_steps_ok st st' :
  board_ok st -> engine_steps st st' -> board_ok st'.
Proof.
  intros Hok H. induction H as [| s1 s2 s3 Hstep _ IH]; [exact Hok |].
  apply IH, (engine_step_ok _ _ Hok Hstep).
Qed.

(** X4.  A board is well formed when it has 25 cells, every animation in
    flight is one [applyGravitySteps] or one of its callbacks started (in a
    cell of rows 0..3, in its own column, one row lower per animation
    played) and every column of [animating_columns] has an animation in
    flight.  Starting from a well formed board, after any sequence of moves,
    new arrows, animation callbacks in any order, frames, swaps and end-game
    checks the board is well formed, and the next operation returns:
    [handleAction] for a clone taken from a cell of the board,
    [insertNewArrow], each pending callback, a whole frame and
    [endGameCheck] throw no [TypeError]. *)
Theorem engine_never_throws st st' :
  board_ok st -> engine_steps st st' ->
  board_ok st'
  /\ (forall origin clone_status x y,
        0 <= origin < 25 ->
        is_Some (handleAction st' origin clone_status x y))
  /\ (forall i j content, is_Some (insertNewArrow i j content st'))
  /\ (forall before a after,
        in_flight st' = before ++ a :: after ->
        is_Some (on_finished a (set_in_flight (before ++ after) st')))
  /\ is_Some (frame st')
  /\ is_Some (endGameCheck st').
Proof.
  intros Hok Hsteps.
  pose proof (engine_steps_ok _ _ Hok Hsteps) as Hok'.
  split; [exact Hok' |]. split; [| split; [| split; [| split]]].
  - intros origin cs x y Horigin.
    destruct (handleAction_ok st' origin cs x y Hok' Horigin)
      as (s & r & E & _).
    rewrite E. eexists; reflexivity.
  - intros i j content.
    destruct (insertNewArrow_ok i j content st' Hok') as (s & ok & E & _).
    rewrite E. eexists; reflexivity.
  - intros before a after Hfl.
    destruct (callback_ok st' before a after Hok' Hfl) as (s & E & _).
    rewrite E. eexists; reflexivity.
  - destruct (frame_ok st' Hok') as (s & E & _).
    rewrite E. eexists; reflexivity.
  - destruct Hok' as (Hlen & _).
    destruct (endGameCheck_ok st' Hlen) as [r E].
    rewrite E. eexists; reflexivity.
Qed.

Lemma engine_never_throws_witness :
  board_ok arrow_falling
  /\ (forall origin clone_status x y,
        0 <= origin < 25 ->
        is_Some (handleAction arrow_falling origin clone_status x y))
  /\ (forall i j content, is_Some (insertNewArrow i j content arrow_falling))
  /\ (forall before a after,
        in_flight arrow_falling = before ++ a :: after ->
        is_Some (on_finished a (set_in_flight (before ++ after) arrow_falling)))
  /\ is_Some (frame arrow_falling)
  /\ is_Some (endGameCheck arrow_falling).
Proof.
  apply (engine_never_throws new_game arrow_falling).
  - split; [reflexivity |].
    split; [constructor | intros j Hj; discriminate Hj].
  - apply (steps_cons new_game arrow_falling arrow_falling).
    + apply (step_insert new_game 0 2 (Num (Int 1)) arrow_falling true).
      reflexivity.
    + apply steps_refl.
Defined.

(** ** Gravity ends *)

Lemma fire_all_in_flight (P : animation -> Prop) l st st' :
  engine_ok l st ->
  (forall a a', In a l -> animation_ok a' -> anim_j a' = anim_j a ->
                stage_index (anim_stage a') = stage_index (anim_stage a) + 1 ->
                P a') ->
  Forall P (in_flight st) ->
  fire_all l st = Some st' ->
  Forall P (in_flight st').
Proof.
  revert st. induction l as [| a rest IH]; intros st Hok Hnew HP H.
  - injection H as <-. exact HP.
  - cbn [fire_all] in H.
    destruct (on_finished_ok rest a st Hok) as (st1 & E & Hok1 & _).
    pose proof Hok as (Hlen & Hfl & _). cbn [app] in Hfl.
    apply Forall_cons in Hfl as [Ha _].
    destruct (on_finished_spec a st Hlen Ha) as (st1' & E' & _ & Hcases).
    rewrite E in E'. injection E' as <-.
    rewrite E in H. cbn [mbind option_bind] in H.
    apply (IH st1 Hok1); [| | exact H].
    + intros b b' Hb. apply Hnew. right. exact Hb.
    + destruct Hcases as [[-> _] | (a' & -> & Ha' & Haj & Hst)];
        [exact HP |].
      apply Forall_app. split; [exact HP |].
      constructor; [| constructor].
      apply (Hnew a a'); [left; reflexivity | assumption ..].
Qed.

Lemma run_frames_ok cols n k st :
  board_ok st ->
  Forall (fun a => k <= stage_index (anim_stage a) /\ In (anim_j a) cols)
         (in_flight st) ->
  4 <= k + Z.of_nat n ->
  exists st',
    run_frames n st = Some st'
    /\ board_ok st' /\ in_flight st' = []
    /\ changes_within cols st st'
    /\ same_counters st st'.
Proof.
  revert k st. induction n as [| n IH]; intros k st Hok Hst Hk.
  - exists st. split; [reflexivity |]. split; [exact Hok |].
    split; [| split; [apply changes_within_refl | apply same_counters_refl]].
    destruct (in_flight st) as [| a l]; [reflexivity |].
    apply Forall_cons in Hst as [[Ha _] _].
    destruct (anim_stage a); cbn in Ha; lia.
  - cbn [run_frames].
    destruct (in_flight st) as [| a l] eqn:Hfl.
    { exists st. split; [reflexivity |]. split; [exact Hok |].
      split; [exact Hfl |].
      split; [apply changes_within_refl | apply same_counters_refl]. }
    rewrite <- Hfl in *.
    destruct (frame_ok st Hok) as (st1 & E & Hok1 & Hch1).
    rewrite E. cbn [mbind option_bind].
    assert (Hst1 : Forall (fun a => k + 1 <= stage_index (anim_stage a)
                                    /\ In (anim_j a) cols) (in_flight st1)).
    { unfold frame in E.
      refine (fire_all_in_flight _ _ _ _ _ _ _ E).
      - destruct Hok as (Hlen & Hfl' & Hlock).
        split; [exact Hlen |]. cbn [in_flight set_in_flight app] in *.
        rewrite app_nil_r. split; [exact Hfl' | exact Hlock].
      - intros b b' Hb _ Hj Hs.
        rewrite Forall_forall in Hst. apply list_elem_of_In in Hb.
        destruct (Hst b Hb) as [Hk' Hc]. split; [lia | congruence].
      - constructor. }
    destruct (IH (k + 1) st1 Hok1 Hst1) as (st2 & E2 & Hok2 & Hfl2 & Hch2 & Hc2);
      [lia |].
    exists st2. split; [exact E2 |]. split; [exact Hok2 |].
    split; [exact Hfl2 |]. split.
    + eapply changes_within_trans; [| exact Hch2].
      eapply changes_within_mono; [| exact Hch1].
      intros j Hj. apply in_map_iff in Hj as (b & <- & Hb).
      rewrite Forall_forall in Hst. apply list_elem_of_In in Hb.
      apply (Hst b Hb).
    + eapply same_counters_trans; [| exact Hc2].
      unfold frame in E. apply fire_all_counters in E. exact E.
Qed.

Lemma no_lock_left st :
  (forall j, is_animating st j = false) -> animating_columns st = [].
Proof.
  intros H. destruct (animating_columns st) as [| j l] eqn:E; [reflexivity |].
  specialize (H j). unfold is_animating in H. rewrite E in H.
  cbn [existsb] in H. rewrite Z.eqb_refl in H. discriminate H.
Qed.

(** X5.  On a well formed board gravity ends: after at most four animation
    frames no animation is in flight and no column is locked, however many
    arrows were falling and in whichever columns.  The board still has its
    25 cells, [score], [spins_remaining] and [arrows_placed] are what they
    were, and only cells of columns that had an animation in flight have
    changed. *)
Theorem gravity_ends st :
  board_ok st ->
  exists st',
    settle st = Some st'
    /\ at_rest st'
    /\ length (cells st') = 25%nat
    /\ same_counters st st'
    /\ (forall id,
          0 <= id -> ~ In (Z.rem id 5) (map anim_j (in_flight st)) ->
          cell_status st' id = cell_status st id).
Proof.
  intros Hok. unfold settle.
  destruct (run_frames_ok (map anim_j (in_flight st)) 4 0 st Hok)
    as (st' & E & Hok' & Hfl' & (_ & Hch & _) & Hc); [| lia |].
  { apply Forall_forall. intros a Ha. split.
    - destruct (anim_stage a); cbn; lia.
    - apply in_map, list_elem_of_In, Ha. }
  exists st'. split; [exact E |].
  destruct Hok' as (Hlen & _ & Hlock). rewrite Hfl' in Hlock.
  split; [| split; [exact Hlen | split; [exact Hc | exact Hch]]].
  split; [exact Hfl' |]. apply no_lock_left. intros j.
  destruct (is_animating st' j) eqn:Hj; [| reflexivity].
  specialize (Hlock j Hj). cbn [app] in Hlock.
  apply Exists_nil in Hlock. destruct Hlock.
Qed.

Lemma gravity_ends_witness :
  exists st',
    settle arrow_falling = Some st'
    /\ at_rest st'
    /\ length (cells st') = 25%nat
    /\ same_counters arrow_falling st'
    /\ (forall id,
          0 <= id ->
          ~ In (Z.rem id 5) (map anim_j (in_flight arrow_falling)) ->
          cell_status st' id = cell_status arrow_falling id).
Proof.
  apply (gravity_ends arrow_falling).
  split; [reflexivity |]. split.
  - constructor; [| constructor]. unfold animation_ok; cbn. lia.
  - intros j Hj. cbn. constructor.
    unfold is_animating in Hj. cbn in Hj.
    destruct (Z.eqb_spec j 2); [cbn; congruence | discriminate Hj].
Defined.

(** X6.  On a well formed board every operation stays in its columns: a
    move changes cells (and locks) of the source and destination columns
    only, a new arrow only its own column, and a frame only the columns of
    the animations in flight.  This covers the gravity the operation starts,
    not only the cells it rewrites itself. *)
Theorem operations_stay_in_their_columns st :
  board_ok st ->
  (forall origin clone_status x y st' r,
     handleAction st origin clone_status x y = Some (st', r) ->
     changes_within [Z.rem origin 5; pixel_cell x] st st')
  /\ (forall i j content st' ok,
        insertNewArrow i j content st = Some (st', ok) ->
        changes_within [j] st st')
  /\ (forall a before after st',
        in_flight st = before ++ a :: after ->
        on_finished a (set_in_flight (before ++ after) st) = Some st' ->
        changes_within [anim_j a] st st')
  /\ (forall st',
        frame st = Some st' ->
        changes_within (map anim_j (in_flight st)) st st').
Proof.
  intros Hok. split; [| split; [| split]].
  - intros origin cs x y st' r H.
    apply (handleAction_keeps_ok _ _ _ _ _ _ _ Hok H).
  - intros i j content st' ok H.
    destruct (insertNewArrow_ok i j content st Hok) as (s & ok' & E & _ & Hch).
    rewrite E in H. injection H as <- _. exact Hch.
  - intros a before after st' Hfl H.
    destruct Hok as (Hlen & Hall & _). cbn [app] in Hall. rewrite Hfl in Hall.
    apply Forall_app in Hall as [_ Hall].
    apply Forall_cons in Hall as [Ha _].
    destruct (on_finished_spec a (set_in_flight (before ++ after) st) Hlen Ha)
      as (s & E & Hch & _).
    rewrite E in H. injection H as <-. exact Hch.
  - intros st' H.
    destruct (frame_ok st Hok) as (s & E & _ & Hch).
    rewrite E in H. injection H as <-. exact Hch.
Qed.

Lemma operations_stay_in_their_columns_witness :
  (forall origin clone_status x y st' r,
     handleAction arrow_falling origin clone_status x y = Some (st', r) ->
     changes_within [Z.rem origin 5; pixel_cell x] arrow_falling st')
  /\ (forall i j content st' ok,
        insertNewArrow i j content arrow_falling = Some (st', ok) ->
        changes_within [j] arrow_falling st')
  /\ (forall a before after st',
        in_flight arrow_falling = before ++ a :: after ->
        on_finished a (set_in_flight (before ++ after) arrow_falling)
        = Some st' ->
        changes_within [anim_j a] arrow_falling st')
  /\ (forall st',
        frame arrow_falling = Some st' ->
        changes_within (map anim_j (in_flight arrow_falling))
                       arrow_falling st').
Proof.
  apply (operations_stay_in_their_columns arrow_falling).
  split; [reflexivity |]. split.
  - constructor; [| constructor]. unfold animation_ok; cbn. lia.
  - intros j Hj. cbn. constructor.
    unfold is_animating in Hj. cbn in Hj.
    destruct (Z.eqb_spec j 2); [cbn; congruence | discriminate Hj].
Defined.

(** ** What an accepted action does to the values *)

Ltac in_list := cbn [In]; repeat first [left; reflexivity | right].

Lemma classify_dist x y d :
  classifyAction (Int x) (Int y) d <> NoAction -> In d action_dists.
Proof.
  each_arrow x Hx; each_arrow y Hy;
  unfold classifyAction; cbn [strict_eq]; use_unknown; cbn;
  use_unknown; split_tests; cbn;
  intros Hc; try congruence; lia.
Qed.

Lemma classify_merge x y d :
  classifyAction (Int x) (Int y) d = Merge -> x = y /\ In x basic_arr.
Proof.
  each_arrow x Hx; each_arrow y Hy;
  unfold classifyAction; cbn [strict_eq]; use_unknown; cbn;
  use_unknown; split_tests; cbn;
  intros Hc; try discriminate Hc; (split; [reflexivity | in_list]).
Qed.

Lemma classify_combine x y d :
  classifyAction (Int x) (Int y) d = Combine ->
  In (x, y) [(1, 5); (5, 1); (8, 3); (3, 8); (2, 7); (7, 2); (10, 4); (4, 10);
             (11, 6); (6, 11); (9, 14); (14, 9); (17, 23); (23, 17)].
Proof.
  each_arrow x Hx; each_arrow y Hy;
  unfold classifyAction; cbn [strict_eq]; use_unknown; cbn;
  use_unknown; split_tests; cbn;
  intros Hc; try discriminate Hc; in_list.
Qed.

Lemma includes_In l x : includes l (Int x) = true <-> In x l.
Proof.
  cbn [includes]. rewrite existsb_exists. split.
  - intros (y & Hy & E). apply Z.eqb_eq in E. congruence.
  - intros H. exists x. split; [exact H | apply Z.eqb_refl].
Qed.

Lemma classify_facts a b d :
  classifyAction a b d <> NoAction ->
  exists x y,
    a = Int x /\ b = Int y
    /\ In x arrows /\ In y arrows /\ In d action_dists
    /\ (classifyAction a b d = Merge -> x = y)
    /\ (classifyAction a b d = Combine ->
        In (Z.rem (x + y) 80) arrows
        /\ tier_score (Int x) < tier_score (Int (Z.rem (x + y) 80))).
Proof.
  intros Hc.
  destruct a as [x|]; [| rewrite classify_NaN_l in Hc; congruence].
  destruct b as [y|]; [| rewrite classify_NaN_r in Hc; congruence].
  exists x, y. split; [reflexivity |]. split; [reflexivity |].
  split.
  { apply includes_In. destruct (includes arrows (Int x)) eqn:E; [reflexivity |].
    rewrite (classify_unknown_src _ _ _ E) in Hc. congruence. }
  split.
  { apply includes_In. destruct (includes arrows (Int y)) eqn:E; [reflexivity |].
    rewrite (classify_unknown_dest _ _ _ E) in Hc. congruence. }
  split; [apply (classify_dist _ _ _ Hc) |].
  split; [intros H; apply (classify_merge _ _ _ H) |].
  intros H. apply classify_combine in H. cbn [In] in H.
  repeat (destruct H as [[= <- <-] | H]); [.. | destruct H];
    (split; [in_list | reflexivity]).
Qed.

Lemma arrow_not_zero v : In v arrows -> v <> 0.
Proof. cbn. lia. Qed.

Lemma parseInt_Int s v : parseInt s = Int v -> s = Num (Int v).
Proof. destruct s as [n|]; cbn; [intros -> | discriminate]. reflexivity. Qed.

Lemma legal_arrow v : In v arrows -> legal_status (Num (Int v)) = true.
Proof.
  intros H. cbn [legal_status]. apply orb_true_iff. right.
  apply includes_In, H.
Qed.

(** X7.  An accepted move leaves "0" in the source cell and writes the
    destination cell only: the dragged arrow itself after a Merge, an arrow
    of the next tier after a Combine (a two-directional arrow from two
    one-directional ones, 17 or 23 from two two-directional ones, 40 from 17
    and 23), and "0" after a Cancel; no other cell is rewritten.  So a move
    never puts a value on the board that is neither 0 nor one of [arrows]. *)
Theorem accepted_move_writes_arrows st origin clone_status x y st1 calls :
  handleAction_resolve st origin clone_status x y = Some (Applied st1 calls) ->
  exists src dest v,
    parseInt clone_status = Int src
    /\ cell_status st (dest_id x y) = Some (Num (Int dest))
    /\ In src arrows /\ In dest arrows
    /\ cell_status st1 origin = Some (Num (Int 0))
    /\ cell_status st1 (dest_id x y) = Some (Num (Int v))
    /\ match classifyAction (Int src) (Int dest) (dest_id x y - origin) with
       | Merge => v = src /\ src = dest
       | Combine =>
           v = Z.rem (src + dest) 80 /\ In v arrows
           /\ tier_score (Int src) < tier_score (Int v)
       | Cancel => v = 0
       | NoAction => False
       end
    /\ (forall id, id <> origin -> id <> dest_id x y ->
                   cell_status st1 id = cell_status st id)
    /\ (Forall (fun s => legal_status s = true) (cells st) ->
        Forall (fun s => legal_status s = true) (cells st1)).
Proof.
  intros H. apply resolve_inversion in H
    as (ds & Hgrid & Hj & Ho & Horigin & Hds & He & Hc & -> & _).
  destruct (classify_facts _ _ _ Hc)
    as (src & dest & Hsrc & Hdest & Hin1 & Hin2 & Hd & Hmerge & Hcombine).
  pose proof (in_grid_dest _ _ Hgrid) as Hdest_range.
  pose proof (cell_status_range _ _ _ Hds) as Hdr.
  assert (Hne : origin <> dest_id x y).
  { intros E. rewrite E, Z.sub_diag in Hd. cbn in Hd. lia. }
  apply parseInt_Int in Hdest. subst ds.
  rewrite Hsrc in *. cbn [parseInt] in *.
  set (a := classifyAction (Int src) (Int dest) (dest_id x y - origin)) in *.
  assert (Hv : exists v,
            action_dest_content a (Int src) (Int dest) = Int v
            /\ (v = 0 \/ In v arrows)
            /\ match a with
               | Merge => v = src /\ src = dest
               | Combine =>
                   v = Z.rem (src + dest) 80 /\ In v arrows
                   /\ tier_score (Int src) < tier_score (Int v)
               | Cancel => v = 0
               | NoAction => False
               end).
  { destruct a eqn:Ea; cbn [action_dest_content js_add js_rem].
    - exists src. specialize (Hmerge eq_refl). tauto.
    - destruct (Hcombine eq_refl) as [Hr Ht].
      exists (Z.rem (src + dest) 80). cbn. tauto.
    - exists 0. tauto.
    - congruence. }
  destruct Hv as (v & Hv & Hlegal & Hcase).
  exists src, dest, v. split; [reflexivity |]. split; [exact Hds |].
  split; [exact Hin1 |]. split; [exact Hin2 |].
  split; [apply resolved_origin; lia |].
  split; [rewrite resolved_dest by lia; rewrite Hv; reflexivity |].
  split; [exact Hcase |]. split.
  - intros id Hid1 Hid2. unfold cell_status, resolved; cbn [cells].
    destruct (id <? 0) eqn:Hneg; [reflexivity |]. apply Z.ltb_ge in Hneg.
    rewrite !list_lookup_insert_ne by lia. reflexivity.
  - intros Hall. unfold resolved; cbn [cells]. rewrite Hv.
    apply Forall_insert; [apply Forall_insert; [exact Hall | reflexivity] |].
    destruct Hlegal as [-> | Hlegal]; [reflexivity | apply legal_arrow, Hlegal].
Qed.

Lemma accepted_move_writes_arrows_witness :
  exists src dest v,
    parseInt (Num (Int 1)) = Int src
    /\ cell_status two_up_arrows (dest_id (inject_Z 30) (inject_Z 90))
       = Some (Num (Int dest))
    /\ In src arrows /\ In dest arrows
    /\ cell_status (resolved two_up_arrows Merge (Int 1) (Int 1) 0 5) 0
       = Some (Num (Int 0))
    /\ cell_status (resolved two_up_arrows Merge (Int 1) (Int 1) 0 5)
                   (dest_id (inject_Z 30) (inject_Z 90))
       = Some (Num (Int v))
    /\ match classifyAction (Int src) (Int dest)
                            (dest_id (inject_Z 30) (inject_Z 90) - 0) with
       | Merge => v = src /\ src = dest
       | Combine =>
           v = Z.rem (src + dest) 80 /\ In v arrows
           /\ tier_score (Int src) < tier_score (Int v)
       | Cancel => v = 0
       | NoAction => False
       end
    /\ (forall id, id <> 0 -> id <> dest_id (inject_Z 30) (inject_Z 90) ->
                   cell_status (resolved two_up_arrows Merge (Int 1) (Int 1) 0 5)
                               id
                   = cell_status two_up_arrows id)
    /\ (Forall (fun s => legal_status s = true) (cells two_up_arrows) ->
        Forall (fun s => legal_status s = true)
               (cells (resolved two_up_arrows Merge (Int 1) (Int 1) 0 5))).
Proof.
  apply (accepted_move_writes_arrows two_up_arrows 0 (Num (Int 1))
           (inject_Z 30) (inject_Z 90) _ [(-1, 0)]).
  reflexivity.
Defined.

(** ** Counting the arrows on the grid *)

Lemma occupied_insert l n s old :
  l !! n = Some old ->
  occupied (<[n := s]> l)
  = occupied l - (if is_zero old then 0 else 1) + (if is_zero s then 0 else 1).
Proof.
  unfold occupied. revert n. induction l as [| c l IH]; intros n H;
    [discriminate H |].
  destruct n as [| n].
  - cbn in H. injection H as ->. simpl.
    destruct (is_zero old), (is_zero s); simpl; lia.
  - cbn in H. specialize (IH n H). simpl.
    destruct (is_zero c), (is_zero old), (is_zero s); simpl in *; lia.
Qed.

(** X8.  When the clone carries the status of its origin cell, as the drag
    handlers build it, an accepted move takes off the grid exactly the
    arrows it subtracts from [arrows_placed]: one for a Merge or a Combine,
    two for a Cancel.  The difference between [arrows_placed] and the number
    of cells that are not "0" is the same before and after. *)
Theorem accepted_move_counts_arrows st origin clone_status x y st1 calls :
  handleAction_resolve st origin clone_status x y = Some (Applied st1 calls) ->
  cell_status st origin = Some clone_status ->
  exists dest_status,
    cell_status st (dest_id x y) = Some dest_status
    /\ occupied (cells st1)
       = occupied (cells st)
         - action_arrows_removed
             (classifyAction (parseInt clone_status) (parseInt dest_status)
                             (dest_id x y - origin))
    /\ arrows_placed st1
       = arrows_placed st
         - action_arrows_removed
             (classifyAction (parseInt clone_status) (parseInt dest_status)
                             (dest_id x y - origin))
    /\ occupied (cells st1) < occupied (cells st).
Proof.
  intros H Hclone. apply resolve_inversion in H
    as (ds & Hgrid & Hj & Ho & Horigin & Hds & He & Hc & -> & _).
  exists ds. split; [exact Hds |].
  destruct (classify_facts _ _ _ Hc)
    as (src & dest & Hsrc & Hdest & Hin1 & Hin2 & Hd & Hmerge & Hcombine).
  pose proof (in_grid_dest _ _ Hgrid) as Hdest_range.
  assert (Hne : origin <> dest_id x y).
  { intros E. rewrite E, Z.sub_diag in Hd. cbn in Hd. lia. }
  apply parseInt_Int in Hdest, Hsrc. subst ds clone_status.
  cbn [parseInt] in *.
  pose proof (arrow_not_zero _ Hin1) as Hs0.
  pose proof (arrow_not_zero _ Hin2) as Hd0.
  rewrite cell_status_eq in Hclone, Hds by lia.
  assert (Hcount :
            occupied (cells (resolved st
                               (classifyAction (Int src) (Int dest)
                                               (dest_id x y - origin))
                               (Int src) (Int dest) origin (dest_id x y)))
            = occupied (cells st)
              - action_arrows_removed
                  (classifyAction (Int src) (Int dest) (dest_id x y - origin))).
  { unfold resolved; cbn [cells].
    rewrite (occupied_insert _ _ _ (Num (Int dest)))
      by (rewrite list_lookup_insert_ne by lia; exact Hds).
    rewrite (occupied_insert _ _ _ (Num (Int src))) by exact Hclone.
    assert (Hzs : is_zero (Num (Int src)) = false)
      by (destruct src; [congruence | reflexivity ..]).
    assert (Hzd : is_zero (Num (Int dest)) = false)
      by (destruct dest; [congruence | reflexivity ..]).
    rewrite Hzs, Hzd. change (is_zero status_zero) with true.
    destruct (classifyAction (Int src) (Int dest) (dest_id x y - origin))
      eqn:Ea; cbn [action_dest_content action_arrows_removed js_add js_rem].
    - rewrite Hzs. cbv iota. lia.
    - destruct (Hcombine eq_refl) as [Hr _].
      apply arrow_not_zero in Hr. cbn [Z.eqb].
      assert (Hzr : is_zero (Num (Int (Z.rem (src + dest) 80))) = false)
        by (destruct (Z.rem (src + dest) 80); [congruence | reflexivity ..]).
      rewrite Hzr. cbv iota. lia.
    - change (is_zero (Num (Int 0))) with true. cbv iota. lia.
    - congruence. }
  split; [exact Hcount |]. split; [reflexivity |].
  rewrite Hcount.
  destruct (classifyAction (Int src) (Int dest) (dest_id x y - origin));
    cbn; try lia. congruence.
Qed.

Lemma accepted_move_counts_arrows_witness :
  exists dest_status,
    cell_status two_up_arrows (dest_id (inject_Z 30) (inject_Z 90))
    = Some dest_status
    /\ occupied (cells (resolved two_up_arrows Merge (Int 1) (Int 1) 0 5))
       = occupied (cells two_up_arrows)
         - action_arrows_removed
             (classifyAction (parseInt (Num (Int 1))) (parseInt dest_status)
                             (dest_id (inject_Z 30) (inject_Z 90) - 0))
    /\ arrows_placed (resolved two_up_arrows Merge (Int 1) (Int 1) 0 5)
       = arrows_placed two_up_arrows
         - action_arrows_removed
             (classifyAction (parseInt (Num (Int 1))) (parseInt dest_status)
                             (dest_id (inject_Z 30) (inject_Z 90) - 0))
    /\ occupied (cells (resolved two_up_arrows Merge (Int 1) (Int 1) 0 5))
       < occupied (cells two_up_arrows).
Proof.
  apply (accepted_move_counts_arrows two_up_arrows 0 (Num (Int 1))
           (inject_Z 30) (inject_Z 90) _ [(-1, 0)]).
  - reflexivity.
  - reflexivity.
Defined.

(** ** The end of the game *)

(** The pointer position in the middle of cell [(i, j)]. *)
Lemma pixel_cell_centre c :
  0 <= c <= 4 ->
  pixel_cell (inject_Z (60 * c + 30)) = c
  /\ Qle_bool 1 (inject_Z (60 * c + 30)) = true
  /\ Qle_bool (inject_Z (60 * c + 30)) 299 = true.
Proof.
  intros H.
  assert (Hc : c = 0 \/ c = 1 \/ c = 2 \/ c = 3 \/ c = 4) by lia.
  destruct Hc as [-> | [-> | [-> | [-> | ->]]]]; repeat split.
Qed.

Lemma centre_hits_cell n :
  0 <= n < 25 ->
  let x := inject_Z (60 * snd (grid_indices n) + 30) in
  let y := inject_Z (60 * fst (grid_indices n) + 30) in
  in_grid x y = true /\ pixel_cell x = snd (grid_indices n)
  /\ pixel_cell y = fst (grid_indices n) /\ dest_id x y = n.
Proof.
  intros Hn x y.
  assert (Hr : 0 <= fst (grid_indices n) <= 4 /\ 0 <= snd (grid_indices n) <= 4).
  { unfold grid_indices; cbn [fst snd].
    pose proof (Z.rem_bound_pos n 5). pose proof (Z.quot_rem' n 5).
    assert (n - Z.rem n 5 = Z.quot n 5 * 5) as -> by lia.
    rewrite Z.quot_mul by lia. lia. }
  destruct Hr as [Hi Hj].
  destruct (pixel_cell_centre _ Hi) as (Py & Ly & Uy).
  destruct (pixel_cell_centre _ Hj) as (Px & Lx & Ux).
  fold x in Px, Lx, Ux. fold y in Py, Ly, Uy.
  split; [unfold in_grid; rewrite Lx, Ux, Ly, Uy; reflexivity |].
  split; [exact Px |]. split; [exact Py |].
  unfold dest_id. rewrite Px, Py. apply grid_id_indices.
Qed.

(** X9.  On a board of 25 cells with no column locked, [endGameCheck]
    declares the game over exactly when no drag can change anything: it
    returns [true] if and only if every [handleAction] whose clone carries
    the status of its origin cell, released anywhere, leaves the game state
    as it was.  When it returns [false] some drag from one cell to the
    middle of another is accepted. *)
Theorem game_over_iff_no_move st :
  length (cells st) = 25%nat ->
  (forall j, is_animating st j = false) ->
  exists r : bool,
    endGameCheck st = Some (if r then endGameMenu st else st, r)
    /\ (r = true
        <-> forall origin clone_status x y st' rv,
              cell_status st origin = Some clone_status ->
              handleAction st origin clone_status x y = Some (st', rv) ->
              st' = st).
Proof.
  intros Hlen Hfree. unfold endGameCheck.
  rewrite (scan_cells_first_hit st cell_ids Hlen)
    by (intros i Hi; apply cell_ids_range, Hi).
  fold scan_order. cbn [mbind option_bind].
  destruct (snd (first_hit (pair_actionable st) scan_order)) eqn:Hhit.
  - exists false. split; [reflexivity |].
    split; [discriminate |]. intros Hnone. exfalso.
    apply first_hit_exists in Hhit as ([i n] & Hin & Hact).
    apply scan_order_pairs in Hin as (Hi & Hn & Hd).
    destruct (cell_status_is_Some st i) as [a Ha]; [lia |].
    destruct (cell_status_is_Some st n) as [b Hb]; [lia |].
    apply (pair_actionable_iff st i n a b Hi Hn Ha Hb) in Hact as [He Hc].
    destruct (centre_hits_cell n Hn) as (Hgrid & Px & Py & Hdest).
    set (x := inject_Z (60 * snd (grid_indices n) + 30)) in *.
    set (y := inject_Z (60 * fst (grid_indices n) + 30)) in *.
    assert (Hadm : move_admitted st i x y).
    { split; [exact Hgrid |]. split; [apply Hfree |]. split; [apply Hfree |].
      split; [exact Hlen |]. split; [exact Hi |].
      rewrite Px, Py, Hdest. rewrite <- surjective_pairing. exact He. }
    rewrite <- Hdest in Hb, Hc.
    pose proof (resolve_applied st i a x y b Hadm Hb Hc) as R.
    match type of R with
    | _ = Some (Applied ?s ?c) =>
        destruct (apply_gravity_calls_total c s) as (st2 & G & _);
        [unfold resolved; cbn [cells]; rewrite !length_insert; exact Hlen |];
        assert (Hmove : handleAction st i a x y = Some (st2, Undefined))
          by (unfold handleAction; rewrite R; cbn [mbind option_bind];
              rewrite G; reflexivity);
        apply apply_gravity_calls_counters in G as (_ & _ & Hplaced)
    end.
    specialize (Hnone i a x y st2 Undefined Ha Hmove). subst st2.
    unfold resolved in Hplaced; cbn [arrows_placed] in Hplaced.
    destruct (classifyAction (parseInt a) (parseInt b) (dest_id x y - i));
      cbn in Hplaced; try lia. congruence.
  - exists true. split; [reflexivity |].
    split; [| reflexivity]. intros _ origin cs x y st' rv Hcs H.
    apply first_hit_none in Hhit as [_ Hnone].
    unfold handleAction in H.
    destruct (handleAction_resolve st origin cs x y) as [res|] eqn:E;
      [| discriminate].
    cbn [mbind option_bind] in H.
    destruct res as [s | s | s calls].
    + destruct (resolve_cases _ _ _ _ _ _ E) as [D | [D | (? & ? & ? & D & _)]];
        try discriminate D.
      injection D as ->. injection H as <- _. reflexivity.
    + destruct (resolve_cases _ _ _ _ _ _ E) as [D | [D | (? & ? & ? & D & _)]];
        try discriminate D.
      injection D as ->. injection H as <- _. reflexivity.
    + exfalso. apply resolve_inversion in E
        as (ds & Hgrid & _ & _ & Horigin & Hds & He & Hc & _).
      rewrite Hlen in Horigin.
      pose proof (in_grid_dest _ _ Hgrid) as Hdest.
      destruct (classify_facts _ _ _ Hc) as (_ & _ & _ & _ & _ & _ & Hd & _).
      assert (Hin : In (origin, dest_id x y) scan_order)
        by (apply scan_order_pairs; split; [lia | split; [lia | exact Hd]]).
      specialize (Hnone _ Hin).
      assert (Hact : pair_actionable st (origin, dest_id x y) = true).
      { apply (pair_actionable_iff st origin (dest_id x y) cs ds);
          [lia | lia | exact Hcs | exact Hds |].
        split; [| exact Hc].
        unfold dest_id at 1. apply in_grid_cells in Hgrid as [Hx Hy].
        rewrite grid_indices_id by lia. exact He. }
      congruence.
Qed.

Lemma game_over_iff_no_move_witness :
  exists r : bool,
    endGameCheck two_up_arrows
    = Some (if r then endGameMenu two_up_arrows else two_up_arrows, r)
    /\ (r = true
        <-> forall origin clone_status x y st' rv,
              cell_status two_up_arrows origin = Some clone_status ->
              handleAction two_up_arrows origin clone_status x y
              = Some (st', rv) ->
              st' = two_up_arrows).
Proof.
  apply (game_over_iff_no_move two_up_arrows).
  - reflexivity.
  - intros j. reflexivity.
Defined.

(** ** The next arrows and the swaps *)

Lemma same_queue_refl st : same_queue st st.
Proof. split; reflexivity. Qed.

Lemma same_queue_trans a b c :
  same_queue a b -> same_queue b c -> same_queue a c.
Proof. unfold same_queue. intuition congruence. Qed.

Lemma set_status_queue id s st st' :
  set_status id s st = Some st' -> same_queue st st'.
Proof.
  intros H. apply set_status_range in H as [_ ->]. split; reflexivity.
Qed.

Ltac queue_step :=
  match goal with
  | H : set_status _ _ _ = Some _ |- _ => apply set_status_queue in H
  end.

Ltac queue :=
  repeat (case_match || simplify_option_eq);
  try apply same_queue_refl;
  repeat queue_step;
  unfold same_queue in *; cbn in *; intuition congruence.

Lemma getAnimationEnvironment_queue i j st st' e :
  getAnimationEnvironment i j st = Some (st', e) -> same_queue st st'.
Proof. unfold getAnimationEnvironment. intros H. queue. Qed.

Lemma applyGravitySteps_queue i j st st' :
  applyGravitySteps i j st = Some st' -> same_queue st st'.
Proof.
  unfold applyGravitySteps. intros H.
  destruct (getAnimationEnvironment i j st) as [[st1 [e|]]|] eqn:E;
    cbn in H; [| | discriminate]; injection H as <-;
    apply getAnimationEnvironment_queue in E; exact E.
Qed.

Lemma applyActionGravity_rec_queue fuel i j st st' :
  applyActionGravity_rec fuel i j st = Some st' -> same_queue st st'.
Proof.
  revert i st. induction fuel as [| fuel IH]; intros i st H; [discriminate |].
  cbn [applyActionGravity_rec] in H.
  destruct (_ || _); [injection H as <-; apply same_queue_refl |].
  destruct (cell_status st (grid_id i j)) as [s|]; [| discriminate].
  cbn [mbind option_bind] in H.
  destruct (_ || _); [injection H as <-; apply same_queue_refl |].
  destruct (applyGravitySteps i j st) as [st1|] eqn:E; [| discriminate].
  cbn [mbind option_bind] in H.
  eapply same_queue_trans;
    [apply (applyGravitySteps_queue _ _ _ _ E) | apply (IH _ _ H)].
Qed.

Lemma apply_gravity_calls_queue calls st st' :
  apply_gravity_calls calls st = Some st' -> same_queue st st'.
Proof.
  revert st. induction calls as [| [i j] rest IH]; intros st H.
  - injection H as <-. apply same_queue_refl.
  - cbn [apply_gravity_calls] in H.
    destruct (applyActionGravity i j st) as [st1|] eqn:E; [| discriminate].
    eapply same_queue_trans;
      [apply (applyActionGravity_rec_queue _ _ _ _ _ E) | apply (IH _ H)].
Qed.

Lemma updateEnvironmentMidAnimation_queue e st st' e' :
  updateEnvironmentMidAnimation e st = Some (st', e') -> same_queue st st'.
Proof. unfold updateEnvironmentMidAnimation. intros H. queue. Qed.

Lemma updateEnvironmentPostAnimation_queue e st st' :
  updateEnvironmentPostAnimation e st = Some st' -> same_queue st st'.
Proof.
  unfold updateEnvironmentPostAnimation, updateGridCell. intros H. queue.
Qed.

Lemma on_finished_queue a st st' :
  on_finished a st = Some st' -> same_queue st st'.
Proof.
  assert (Hcont : forall row next,
            continue_or_land a row next st = Some st' -> same_queue st st').
  { unfold continue_or_land. intros row next H.
    destruct (can_be_dropped_to row (anim_j a) st) as [[|]|];
      cbn [mbind option_bind] in H; [| | discriminate].
    - destruct (updateEnvironmentMidAnimation _ st) as [[st1 e]|] eqn:E;
        [| discriminate].
      injection H as <-.
      apply updateEnvironmentMidAnimation_queue in E. exact E.
    - apply (updateEnvironmentPostAnimation_queue _ _ _ H). }
  unfold on_finished. destruct (anim_stage a); try apply Hcont.
  apply updateEnvironmentPostAnimation_queue.
Qed.

Lemma fire_all_queue l st st' :
  fire_all l st = Some st' -> same_queue st st'.
Proof.
  revert st. induction l as [| a rest IH]; intros st H.
  - injection H as <-. apply same_queue_refl.
  - cbn [fire_all] in H.
    destruct (on_finished a st) as [st1|] eqn:E; [| discriminate].
    eapply same_queue_trans;
      [apply (on_finished_queue _ _ _ E) | apply (IH _ H)].
Qed.

Lemma insertNewArrow_queue i j content st st' ok :
  insertNewArrow i j content st = Some (st', ok) ->
  same_queue st st' /\ same_counters st st'.
Proof.
  unfold insertNewArrow. intros H.
  destruct (is_animating st j);
    [injection H as <- _; split;
     [apply same_queue_refl | apply same_counters_refl] |].
  destruct (_ || _);
    [injection H as <- _; split;
     [apply same_queue_refl | apply same_counters_refl] |].
  destruct (cell_status st (grid_id i j)) as [c|]; [| discriminate].
  cbn [mbind option_bind] in H.
  destruct (negb (is_zero c));
    [injection H as <- _; split;
     [apply same_queue_refl | apply same_counters_refl] |].
  destruct (set_status (grid_id i j) content st) as [s1|] eqn:E1;
    [| discriminate].
  cbn [mbind option_bind] in H.
  destruct (applyGravitySteps i j s1) as [s2|] eqn:E2; [| discriminate].
  injection H as <- _. split.
  - eapply same_queue_trans;
      [apply (set_status_queue _ _ _ _ E1)
      | apply (applyGravitySteps_queue _ _ _ _ E2)].
  - eapply same_counters_trans;
      [apply (set_status_counters _ _ _ _ E1)
      | apply (applyGravitySteps_counters _ _ _ _ E2)].
Qed.

Lemma classify_cancel x y d :
  classifyAction (Int x) (Int y) d = Cancel ->
  In (x, y) [(1, 5); (5, 1); (8, 3); (3, 8); (2, 7); (7, 2); (10, 4); (4, 10);
             (11, 11); (6, 6); (9, 9); (14, 14); (40, 40)].
Proof.
  each_arrow x Hx; each_arrow y Hy;
  unfold classifyAction; cbn [strict_eq]; use_unknown; cbn;
  use_unknown; split_tests; cbn;
  intros Hc; try discriminate Hc; in_list.
Qed.

(** The only accepted action that grants a swap cancels two 40 arrows. *)
Lemma action_bonus_values a b d :
  action_bonus (classifyAction a b d) a b = 0
  \/ (action_bonus (classifyAction a b d) a b = 1
      /\ a = Int 40 /\ b = Int 40
      /\ classifyAction a b d = Cancel).
Proof.
  destruct (classifyAction a b d) eqn:Hc; cbn [action_bonus]; try tauto.
  destruct a as [x|]; [| rewrite classify_NaN_l in Hc; discriminate].
  destruct b as [y|]; [| rewrite classify_NaN_r in Hc; discriminate].
  apply classify_cancel in Hc. cbn [In] in Hc.
  repeat (destruct Hc as [[= <- <-] | Hc]); [.. | destruct Hc]; cbn; tauto.
Qed.

Lemma handleAction_queue st origin clone_status x y st' r :
  handleAction st origin clone_status x y = Some (st', r) ->
  same_queue st st'
  /\ (spins_remaining st' = spins_remaining st
      \/ (spins_remaining st' = js_plus (spins_remaining st) 1
          /\ parseInt clone_status = Int 40
          /\ cell_status st (dest_id x y) = Some (Num (Int 40)))).
Proof.
  unfold handleAction. intros H.
  destruct (handleAction_resolve st origin clone_status x y) as [res|] eqn:E;
    [| discriminate].
  cbn [mbind option_bind] in H.
  destruct res as [s | s | s calls].
  - destruct (resolve_cases _ _ _ _ _ _ E) as [D | [D | (? & ? & ? & D & _)]];
      try discriminate D.
    injection D as ->. injection H as <- _.
    split; [apply same_queue_refl | tauto].
  - destruct (resolve_cases _ _ _ _ _ _ E) as [D | [D | (? & ? & ? & D & _)]];
      try discriminate D.
    injection D as ->. injection H as <- _.
    split; [apply same_queue_refl | tauto].
  - apply resolve_inversion in E
      as (ds & Hgrid & _ & _ & Horigin & Hds & He & Hc & -> & _).
    destruct (apply_gravity_calls calls _) as [st2|] eqn:G; [| discriminate].
    injection H as <- _.
    pose proof (apply_gravity_calls_queue _ _ _ G) as [Q1 Q2].
    pose proof (apply_gravity_calls_counters _ _ _ G) as (_ & S & _).
    split; [split; [rewrite Q1 | rewrite Q2]; reflexivity |].
    rewrite S. unfold resolved; cbn [spins_remaining].
    destruct (action_bonus_values (parseInt clone_status) (parseInt ds)
                                  (dest_id x y - origin))
      as [-> | (-> & Ha & Hb & _)]; [left; reflexivity |].
    right. split; [reflexivity |]. split; [exact Ha |].
    apply parseInt_Int in Hb. rewrite Hb in Hds. exact Hds.
Qed.

Lemma engine_step_queue st st' :
  engine_step st st' ->
  (queue_ok st -> queue_ok st')
  /\ (forall n, spins_remaining st = number n -> 0 <= n ->
        exists n', spins_remaining st' = number n' /\ 0 <= n').
Proof.
  assert (Hsame : forall s s',
            same_queue s s' -> spins_remaining s' = spins_remaining s ->
            (queue_ok s -> queue_ok s')
            /\ (forall n, spins_remaining s = number n -> 0 <= n ->
                  exists n', spins_remaining s' = number n' /\ 0 <= n')).
  { intros s s' [Q1 Q2] Hs. split.
    - intros (a & b & Ha & Hb & Hina & Hinb). exists a, b.
      rewrite Q1, Q2. tauto.
    - intros n Hn H0. exists n. split; [congruence | exact H0]. }
  intros [s origin cs x y s' r H
         | s i j content s' ok H
         | s before a after s' Hfl H
         | s s' H
         | s
         | s s' r H].
  - apply handleAction_queue in H as [Q [S | (S & _)]];
      [apply Hsame; assumption |].
    split; [apply (Hsame s s' Q eq_refl) || (destruct Q as [Q1 Q2];
            intros (a & b & Ha & Hb & Hina & Hinb); exists a, b;
            rewrite Q1, Q2; tauto) |].
    intros n Hn H0. exists (n + 1). rewrite S, Hn. split; [reflexivity | lia].
  - apply insertNewArrow_queue in H as [Q (_ & S & _)].
    apply Hsame; assumption.
  - pose proof (on_finished_queue _ _ _ H) as Q.
    apply on_finished_counters in H as (_ & S & _).
    apply Hsame; assumption.
  - unfold frame in H. pose proof (fire_all_queue _ _ _ H) as Q.
    apply fire_all_counters in H as (_ & S & _).
    apply Hsame; assumption.
  - unfold swapNextArrows.
    destruct (is_number_zero (spins_remaining s)) eqn:Hz.
    { split; [tauto |]. intros n Hn H0. exists n. tauto. }
    split.
    + intros (a & b & Ha & Hb & Hina & Hinb). exists b, a. cbn. tauto.
    + intros n Hn H0. rewrite Hn in Hz. cbn in Hz. apply Z.eqb_neq in Hz.
      exists (n - 1). cbn. rewrite Hn. split; [reflexivity | lia].
  - unfold endGameCheck in H.
    destruct (scan_cells s cell_ids) as [[visited found]|]; [| discriminate].
    cbn [mbind option_bind snd] in H.
    destruct found; injection H as <- _;
      [split; [tauto | intros n Hn H0; exists n; tauto] |].
    apply Hsame; [split; reflexivity | reflexivity].
Qed.

(** X10.  [updateNextArrows] moves the preview arrow to the front and draws
    a new preview; it never throws, and when the preview was unset or a
    one-directional arrow both next arrows are one-directional afterwards.
    Nothing else of the game changes.  Once both next arrows are
    one-directional they stay so through every move, new arrow, animation
    callback, frame, swap and end-game check. *)
Theorem next_arrows_are_basic :
  (forall rand1 rand2 st,
     exists st' next preview,
       updateNextArrows rand1 rand2 st = Some st'
       /\ next_arrow st' = Some next /\ next_next_arrow st' = Some preview
       /\ In preview basic_arr
       /\ (forall b, next_next_arrow st = Some b -> next = b)
       /\ (next_next_arrow st = None -> In next basic_arr)
       /\ cells st' = cells st /\ same_counters st st'
       /\ in_flight st' = in_flight st
       /\ animating_columns st' = animating_columns st)
  /\ (forall st st',
        engine_steps st st' -> queue_ok st -> queue_ok st').
Proof.
  split.
  - intros rand1 rand2 st. unfold updateNextArrows.
    destruct (random_arrow_basic rand2) as (p & Hp & Hinp).
    destruct (next_next_arrow st) as [b|] eqn:Hb.
    + cbn [mbind option_bind]. rewrite Hp. cbn [mbind option_bind].
      eexists _, b, p. split; [reflexivity |].
      repeat split; try assumption; try congruence; try discriminate.
    + destruct (random_arrow_basic rand1) as (n & Hn & Hinn).
      rewrite Hn. cbn [mbind option_bind]. rewrite Hp.
      cbn [mbind option_bind].
      eexists _, n, p. split; [reflexivity |].
      repeat split; try assumption; try congruence; try discriminate.
  - intros st st' H. induction H as [| s1 s2 s3 H12 _ IH]; [tauto |].
    intros Hq. apply IH. apply (engine_step_queue _ _ H12), Hq.
Qed.

(** X11.  A swap is refused when [spins_remaining] is the number 0 and
    otherwise decrements it, so a count that is a non-negative number stays
    one, whatever the player does; with both next arrows set and two swaps
    left, two swaps in a row give the next arrows back in their order.  The
    only move that touches the count is the one that cancels two 40 arrows:
    it performs [spins_remaining += 1], which adds 1 to a number and turns
    the string ["3"] of a restored game into ["31"]; a swap turns such a
    string back into a number. *)
Theorem swaps_are_never_negative :
  (forall st st' n,
     engine_steps st st' ->
     spins_remaining st = number n -> 0 <= n ->
     exists n', spins_remaining st' = number n' /\ 0 <= n')
  /\ (forall st, spins_remaining st = number 0 -> swapNextArrows st = st)
  /\ (forall st n,
        queue_ok st -> spins_remaining st = number n -> 2 <= n ->
        same_queue st (swapNextArrows (swapNextArrows st))
        /\ spins_remaining (swapNextArrows (swapNextArrows st))
           = number (n - 2)
        /\ next_arrow (swapNextArrows st) = next_next_arrow st
        /\ next_next_arrow (swapNextArrows st) = next_arrow st)
  /\ (forall st origin clone_status x y st' r,
        handleAction st origin clone_status x y = Some (st', r) ->
        spins_remaining st' = spins_remaining st
        \/ (spins_remaining st' = js_plus (spins_remaining st) 1
            /\ parseInt clone_status = Int 40
            /\ cell_status st (dest_id x y) = Some (Num (Int 40))))
  /\ (forall n, js_plus (number n) 1 = number (n + 1))
  /\ js_plus (VStr "3") 1 = VStr "31"
  /\ js_decrement (VStr "31") = number 30.
Proof.
  split; [| split; [| split; [| split; [| split; [| split]]]]].
  - intros st st' n H. revert n.
    induction H as [| s1 s2 s3 H12 _ IH]; intros n Hn H0.
    + exists n. tauto.
    + destruct (proj2 (engine_step_queue _ _ H12) n Hn H0) as (n1 & Hn1 & H1).
      apply (IH n1 Hn1 H1).
  - intros st H. unfold swapNextArrows. rewrite H. reflexivity.
  - intros st n _ Hn H. unfold swapNextArrows. rewrite Hn. cbn.
    destruct (Z.eqb_spec n 0); [lia |]. cbn.
    destruct (Z.eqb_spec (n + -1) 0); [lia |]. cbn.
    repeat split. unfold number, js_decrement. cbn. do 2 f_equal. lia.
  - intros st origin cs x y st' r H.
    apply (handleAction_queue _ _ _ _ _ _ _ H).
  - reflexivity.
  - reflexivity.
  - reflexivity.
Qed.

(** ** New game *)

(** What one [updateGridCell(i, j, '0')] of [clearGrid] does to the cells. *)
Lemma updateGridCell_clear i j c st :
  length c = 25%nat -> 0 <= i <= 4 -> 0 <= j <= 4 ->
  updateGridCell i j status_zero (set_cells c st)
  = Some (set_cells (if is_animating st j then c
                     else <[Z.to_nat (grid_id i j) := status_zero]> c) st,
          negb (is_animating st j)).
Proof.
  intros Hlen Hi Hj. unfold updateGridCell.
  change (is_animating (set_cells c st) j) with (is_animating st j).
  destruct (is_animating st j); [reflexivity |].
  rewrite set_status_eq by (cbn [cells set_cells]; unfold grid_id; lia).
  reflexivity.
Qed.

Lemma clear_row_cells i cols c st :
  length c = 25%nat -> 0 <= i <= 4 ->
  (forall j, In j cols -> 0 <= j <= 4) ->
  exists c',
    clear_row i cols (set_cells c st) = Some (set_cells c' st)
    /\ length c' = 25%nat
    /\ forall n,
         c' !! n
         = if existsb (Z.eqb (Z.of_nat n)) (map (grid_id i) cols)
              && negb (is_animating st (Z.rem (Z.of_nat n) 5))
           then Some status_zero else c !! n.
Proof.
  intros Hlen Hi. revert c Hlen.
  induction cols as [| j rest IH]; intros c Hlen Hcols.
  - exists c. split; [reflexivity |]. split; [exact Hlen |].
    intros n. reflexivity.
  - cbn [clear_row].
    assert (Hj : 0 <= j <= 4) by (apply Hcols; left; reflexivity).
    rewrite updateGridCell_clear by assumption.
    cbn [mbind option_bind fst].
    set (c1 := if is_animating st j then c
               else <[Z.to_nat (grid_id i j) := status_zero]> c).
    assert (Hlen1 : length c1 = 25%nat)
      by (subst c1; destruct (is_animating st j);
          rewrite ?length_insert; exact Hlen).
    destruct (IH c1 Hlen1) as (c' & E & Hlen' & Hc');
      [intros k Hk; apply Hcols; right; exact Hk |].
    exists c'. split; [exact E |]. split; [exact Hlen' |].
    intros n. rewrite Hc'. cbn [map existsb].
    destruct (Z.eqb_spec (Z.of_nat n) (grid_id i j)) as [En | En].
    + rewrite En, grid_id_column by lia. cbn [orb andb].
      subst c1. destruct (is_animating st j) eqn:Ha; cbn [negb].
      * rewrite andb_false_r. reflexivity.
      * rewrite andb_true_r.
        destruct (existsb _ _); [reflexivity |].
        replace n with (Z.to_nat (grid_id i j)) by lia.
        apply list_lookup_insert_eq. unfold grid_id. lia.
    + cbn [orb]. destruct (_ && _); [reflexivity |].
      subst c1. destruct (is_animating st j); [reflexivity |].
      apply list_lookup_insert_ne. unfold grid_id in *. lia.
Qed.

Lemma clear_rows_cells rows c st :
  length c = 25%nat ->
  (forall i, In i rows -> 0 <= i <= 4) ->
  exists c',
    clear_rows rows (set_cells c st) = Some (set_cells c' st)
    /\ length c' = 25%nat
    /\ forall n,
         c' !! n
         = if existsb (Z.eqb (Z.of_nat n))
                      (flat_map (fun i => map (grid_id i) [0; 1; 2; 3; 4]) rows)
              && negb (is_animating st (Z.rem (Z.of_nat n) 5))
           then Some status_zero else c !! n.
Proof.
  revert c. induction rows as [| i rest IH]; intros c Hlen Hrows.
  - exists c. split; [reflexivity |]. split; [exact Hlen |].
    intros n. reflexivity.
  - cbn [clear_rows].
    destruct (clear_row_cells i [0; 1; 2; 3; 4] c st Hlen)
      as (c1 & -> & Hlen1 & Hc1);
      [apply Hrows; left; reflexivity | cbn; lia |].
    cbn [mbind option_bind].
    destruct (IH c1 Hlen1) as (c' & E & Hlen' & Hc');
      [intros k Hk; apply Hrows; right; exact Hk |].
    exists c'. split; [exact E |]. split; [exact Hlen' |].
    intros n. rewrite Hc', Hc1. cbn [flat_map]. rewrite existsb_app.
    destruct (existsb _ (map (grid_id i) _)), (existsb _ (flat_map _ rest)),
      (is_animating st (Z.rem (Z.of_nat n) 5)); reflexivity.
Qed.

Lemma set_cells_same st : set_cells (cells st) st = st.
Proof. destruct st; reflexivity. Qed.

Lemma clearGrid_cells st :
  length (cells st) = 25%nat ->
  exists c',
    clearGrid st = Some (set_cells c' st)
    /\ length c' = 25%nat
    /\ forall id, 0 <= id < 25 ->
         c' !! Z.to_nat id
         = if is_animating st (Z.rem id 5) then cells st !! Z.to_nat id
           else Some status_zero.
Proof.
  intros Hlen. unfold clearGrid.
  destruct (clear_rows_cells [0; 1; 2; 3; 4] (cells st) st Hlen)
    as (c' & E & Hlen' & Hc'); [cbn; lia |].
  rewrite set_cells_same in E.
  exists c'. split; [exact E |]. split; [exact Hlen' |].
  intros id Hid. rewrite Hc', Z2Nat.id by lia.
  destruct (is_animating st (Z.rem id 5)); cbn [negb];
    [rewrite andb_false_r; reflexivity |].
  rewrite andb_true_r.
  assert (E25 : id = 0 \/ id = 1 \/ id = 2 \/ id = 3 \/ id = 4 \/ id = 5
              \/ id = 6 \/ id = 7 \/ id = 8 \/ id = 9 \/ id = 10 \/ id = 11
              \/ id = 12 \/ id = 13 \/ id = 14 \/ id = 15 \/ id = 16
              \/ id = 17 \/ id = 18 \/ id = 19 \/ id = 20 \/ id = 21
              \/ id = 22 \/ id = 23 \/ id = 24) by lia.
  repeat (destruct E25 as [-> | E25]; [reflexivity |]). subst id. reflexivity.
Qed.

(** X12.  [loadNewGame] on a board of 25 cells never throws.  It sets
    [score] to 0, [spins_remaining] to 3 and [arrows_placed] to 0 and draws
    the next arrows, but it empties the cells of the columns that are not
    locked only: [clearGrid] goes through [updateGridCell], which refuses a
    column in [animating_columns], so the cells of a column whose arrow is
    falling are left as they are, and so are the animations in flight and
    the locks.  With no column locked every cell is "0" afterwards. *)
Theorem new_game_keeps_locked_columns rand1 rand2 st :
  length (cells st) = 25%nat ->
  exists st',
    loadNewGame rand1 rand2 st = Some st'
    /\ score st' = number 0 /\ spins_remaining st' = number 3
    /\ arrows_placed st' = 0
    /\ (exists next preview,
          next_arrow st' = Some next /\ next_next_arrow st' = Some preview
          /\ In preview basic_arr
          /\ (forall b, next_next_arrow st = Some b -> next = b))
    /\ length (cells st') = 25%nat
    /\ (forall id, 0 <= id < 25 ->
          cell_status st' id
          = if is_animating st (Z.rem id 5) then cell_status st id
            else Some status_zero)
    /\ in_flight st' = in_flight st
    /\ animating_columns st' = animating_columns st
    /\ (animating_columns st = [] -> cells st' = empty_cells).
Proof.
  intros Hlen. unfold loadNewGame, updateNextArrows.
  destruct (random_arrow_basic rand2) as (p & Hp & Hinp).
  assert (Hnext : exists n,
            match next_next_arrow st with
            | Some a => Some a
            | None => getRandomArrow rand1
            end = Some n
            /\ forall b, next_next_arrow st = Some b -> n = b).
  { destruct (next_next_arrow st) as [b|].
    - exists b. split; [reflexivity | congruence].
    - destruct (random_arrow_basic rand1) as (n & Hn & _).
      exists n. split; [exact Hn | discriminate]. }
  destruct Hnext as (n & -> & Hn). cbn [mbind option_bind].
  rewrite Hp. cbn [mbind option_bind].
  match goal with
  | |- context [clearGrid ?s] =>
      destruct (clearGrid_cells s) as (c' & -> & Hlen' & Hc'); [exact Hlen |]
  end.
  eexists. split; [reflexivity |]. game_fields.
  split; [reflexivity |]. split; [reflexivity |]. split; [reflexivity |].
  split; [exists n, p; tauto |]. split; [exact Hlen' |].
  split; [| split; [reflexivity | split; [reflexivity |]]].
  - intros id Hid. rewrite !cell_status_eq by lia. cbn [cells].
    apply (Hc' id Hid).
  - intros Hfree. apply list_eq. intros k.
    destruct (Nat.lt_ge_cases k 25) as [Hk | Hk].
    + specialize (Hc' (Z.of_nat k)). rewrite Nat2Z.id in Hc'.
      rewrite Hc' by lia.
      unfold is_animating. game_fields.
      rewrite Hfree. cbn [existsb]. symmetry.
      unfold empty_cells. apply lookup_replicate_2. exact Hk.
    + rewrite !lookup_ge_None_2; [reflexivity | |].
      * unfold empty_cells. rewrite length_replicate. exact Hk.
      * rewrite Hlen'. exact Hk.
Qed.

Lemma new_game_keeps_locked_columns_witness :
  exists st',
    loadNewGame (1 # 3) (2 # 3) arrow_falling = Some st'
    /\ score st' = number 0 /\ spins_remaining st' = number 3
    /\ arrows_placed st' = 0
    /\ (exists next preview,
          next_arrow st' = Some next /\ next_next_arrow st' = Some preview
          /\ In preview basic_arr
          /\ (forall b, next_next_arrow arrow_falling = Some b -> next = b))
    /\ length (cells st') = 25%nat
    /\ (forall id, 0 <= id < 25 ->
          cell_status st' id
          = if is_animating arrow_falling (Z.rem id 5)
            then cell_status arrow_falling id
            else Some status_zero)
    /\ in_flight st' = in_flight arrow_falling
    /\ animating_columns st' = animating_columns arrow_falling
    /\ (animating_columns arrow_falling = [] -> cells st' = empty_cells).
Proof.
  apply (new_game_keeps_locked_columns (1 # 3) (2 # 3) arrow_falling).
  reflexivity.
Defined.

(** ** Saving and restoring the grid *)

Lemma save_cells_spec ids st storage :
  length (cells st) = 25%nat ->
  (forall i, In i ids -> 0 <= i < 25) ->
  exists storage',
    save_cells ids st storage = Some storage'
    /\ forall k, storage' k
                 = if existsb (Z.eqb k) ids then cell_status st k
                   else storage k.
Proof.
  intros Hlen. revert storage.
  induction ids as [| i rest IH]; intros storage Hids.
  - exists storage. split; reflexivity.
  - cbn [save_cells].
    destruct (cell_status_is_Some st i) as [s Hs];
      [specialize (Hids i (or_introl eq_refl)); lia |].
    rewrite Hs. cbn [mbind option_bind].
    destruct (IH (setItem i s storage)) as (storage' & E & H');
      [intros k Hk; apply Hids; right; exact Hk |].
    exists storage'. split; [exact E |].
    intros k. rewrite H'. cbn [existsb]. unfold setItem.
    destruct (existsb (Z.eqb k) rest); [rewrite orb_true_r; reflexivity |].
    rewrite orb_false_r. destruct (Z.eqb_spec k i); [congruence | reflexivity].
Qed.

Lemma occupied_cons s l :
  occupied (s :: l) = (if is_zero s then 0 else 1) + occupied l.
Proof.
  unfold occupied. cbn [List.filter].
  destruct (is_zero s); cbn [negb length]; lia.
Qed.

Lemma restore_cells_spec storage ids st :
  length (cells st) = 25%nat ->
  (forall j, is_animating st j = false) ->
  (forall k, In k ids -> 0 <= k < 25) ->
  arrows_placed st + Z.of_nat (length ids) <= 25 ->
  exists c' over,
    restore_cells ids storage st
    = Some (mkGame c' (score st) (spins_remaining st)
              (arrows_placed st
               + occupied (map (fun k => restored_status (storage k)) ids))
              (animating_columns st) (next_arrow st) (next_next_arrow st)
              (in_flight st) over)
    /\ length c' = 25%nat
    /\ (forall n,
          c' !! n
          = if existsb (Z.eqb (Z.of_nat n)) ids
            then Some (restored_status (storage (Z.of_nat n)))
            else cells st !! n)
    /\ (over = game_over st
        \/ (over = true
            /\ arrows_placed st
               + occupied (map (fun k => restored_status (storage k)) ids)
               = 25)).
Proof.
  revert st. induction ids as [| k rest IH]; intros st Hlen Hfree Hids Hcount.
  - exists (cells st), (game_over st). cbn [restore_cells map].
    change (occupied []) with 0. rewrite Z.add_0_r.
    split; [destruct st; reflexivity |]. split; [exact Hlen |].
    split; [intros n; reflexivity | tauto].
  - assert (Hk : 0 <= k < 25) by (apply Hids; left; reflexivity).
    assert (Hrest : forall k', In k' rest -> 0 <= k' < 25)
      by (intros k' Hk'; apply Hids; right; exact Hk').
    cbn [length] in Hcount. rewrite Nat2Z.inj_succ in Hcount.
    cbn [restore_cells map]. rewrite occupied_cons.
    set (saved := restored_status (storage k)).
    assert (Hwrite : forall s,
              length (cells s) = 25%nat ->
              (forall j, is_animating s j = false) ->
              updateGridCell (fst (grid_indices k)) (snd (grid_indices k))
                             saved s
              = Some (set_cells (<[Z.to_nat k := saved]> (cells s)) s, true)).
    { intros s Hs Hf. rewrite updateGridCell_eq;
        rewrite ?grid_id_indices; [reflexivity | apply Hf | lia]. }
    assert (Hlook : forall (c : list status) n,
              length c = 25%nat ->
              (if existsb (Z.eqb (Z.of_nat n)) rest
               then Some (restored_status (storage (Z.of_nat n)))
               else <[Z.to_nat k := saved]> c !! n)
              = if (Z.of_nat n =? k) || existsb (Z.eqb (Z.of_nat n)) rest
                then Some (restored_status (storage (Z.of_nat n)))
                else c !! n).
    { intros c n Hc. destruct (existsb _ rest); [rewrite orb_true_r;
                                                   reflexivity |].
      rewrite orb_false_r. destruct (Z.eqb_spec (Z.of_nat n) k) as [E | E].
      - rewrite E. replace n with (Z.to_nat k) by lia.
        apply list_lookup_insert_eq. lia.
      - apply list_lookup_insert_ne. lia. }
    destruct (is_zero saved) eqn:Hz; cbn [negb].
    + cbn [mbind option_bind]. rewrite (Hwrite st Hlen Hfree).
      cbn [mbind option_bind fst].
      destruct (IH (set_cells (<[Z.to_nat k := saved]> (cells st)) st))
        as (c' & over & E & Hlen' & Hc' & Hover);
        [cbn [cells set_cells]; rewrite length_insert; exact Hlen
        | exact Hfree | exact Hrest | cbn [arrows_placed set_cells]; lia |].
      exists c', over. cbn [cells set_cells] in *.
      split; [rewrite E; f_equal; f_equal; cbn; lia |].
      split; [exact Hlen' |]. split.
      * intros n. rewrite Hc'. cbn [existsb]. apply Hlook, Hlen.
      * cbn in Hover. destruct Hover as [-> | [-> Hover]]; [tauto |].
        right. split; [reflexivity | lia].
    + destruct (Z.eqb_spec (arrows_placed
                              (set_arrows_placed (arrows_placed st + 1) st))
                           25) as [E25 | E25].
      * cbn [arrows_placed set_arrows_placed] in E25.
        assert (rest = []) by (destruct rest; [reflexivity | cbn in Hcount; lia]).
        subst rest.
        destruct (endGameCheck_ok (set_arrows_placed (arrows_placed st + 1) st)
                                  Hlen) as [r Er].
        rewrite Er. cbn [fmap option_fmap option_map mbind option_bind fst].
        rewrite Hwrite; [| destruct r; exact Hlen | destruct r; exact Hfree].
        cbn [mbind option_bind fst restore_cells map].
        change (occupied []) with 0.
        exists (<[Z.to_nat k := saved]> (cells st)),
               (if r then true else game_over st).
        split; [destruct r; cbn; f_equal; f_equal; lia |].
        split; [rewrite length_insert; exact Hlen |]. split.
        -- intros n. pose proof (Hlook (cells st) n Hlen) as L.
           cbn [existsb] in L |- *. exact L.
        -- destruct r; [right; split; [reflexivity | lia] | tauto].
      * cbn [mbind option_bind]. rewrite Hwrite by assumption.
        cbn [mbind option_bind fst].
        cbn [arrows_placed set_arrows_placed] in E25.
        destruct (IH (set_cells (<[Z.to_nat k := saved]>
                                   (cells (set_arrows_placed
                                             (arrows_placed st + 1) st)))
                                (set_arrows_placed (arrows_placed st + 1) st)))
          as (c' & over & E & Hlen' & Hc' & Hover);
          [cbn [cells set_cells set_arrows_placed]; rewrite length_insert;
           exact Hlen
          | exact Hfree | exact Hrest | cbn; lia |].
        exists c', over. cbn [cells set_cells set_arrows_placed] in *.
        split; [rewrite E; f_equal; f_equal; cbn; lia |].
        split; [exact Hlen' |]. split.
        -- intros n. rewrite Hc'. cbn [existsb]. apply Hlook, Hlen.
        -- cbn in Hover. destruct Hover as [-> | [-> Hover]]; [tauto |].
           right. split; [reflexivity | lia].
Qed.

Lemma cell_ids_existsb id :
  0 <= id < 25 -> existsb (Z.eqb id) cell_ids = true.
Proof.
  intros H. apply existsb_exists. exists id.
  split; [apply cell_ids_range, H | apply Z.eqb_refl].
Qed.

Lemma restored_legal s :
  legal_status s = true -> restored_status (Some s) = s.
Proof.
  destruct s as [[n|]|]; cbn [legal_status]; try discriminate.
  intros H. cbn [restored_status parseInt].
  destruct (includes arrows (Int n)) eqn:E; [reflexivity |].
  rewrite orb_false_r in H. apply Z.eqb_eq in H. subst n. reflexivity.
Qed.

Lemma map_over_cell_ids {A} (f : option status -> A) (c : list status) :
  length c = 25%nat ->
  map (fun k => f (c !! Z.to_nat k)) cell_ids = map (fun s => f (Some s)) c.
Proof.
  intros H.
  do 25 (destruct c as [| ? c]; [discriminate H |]).
  destruct c; [reflexivity | discriminate H].
Qed.

(** X13.  [saveGame] followed by [initializeGame] on a board of 25 cells
    with no column locked gives every cell back when it held an arrow and
    "0" otherwise: a cell saved while it is reserved for a falling arrow
    ("animatingto") comes back empty, so an arrow saved in mid-fall is lost.
    [arrows_placed] is recounted as the number of arrows restored, and a
    board that holds only "0" and arrows is restored as it was. *)
Theorem saved_grid_round_trip st st0 storage0 :
  length (cells st) = 25%nat ->
  length (cells st0) = 25%nat ->
  (forall j, is_animating st0 j = false) ->
  exists storage st',
    saveGame_cells st storage0 = Some storage
    /\ initializeGame_cells storage st0 = Some st'
    /\ (forall id, 0 <= id < 25 -> storage id = cell_status st id)
    /\ (forall id, 0 <= id < 25 ->
          cell_status st' id = Some (restored_status (cell_status st id)))
    /\ arrows_placed st'
       = occupied (map (fun s => restored_status (Some s)) (cells st))
    /\ score st' = score st0
    /\ spins_remaining st' = spins_remaining st0
    /\ in_flight st' = in_flight st0
    /\ (Forall (fun s => legal_status s = true) (cells st) ->
        cells st' = cells st).
Proof.
  intros Hlen Hlen0 Hfree. unfold saveGame_cells, initializeGame_cells.
  destruct (save_cells_spec cell_ids st storage0 Hlen)
    as (storage & Es & Hs); [intros i Hi; apply cell_ids_range, Hi |].
  exists storage. rewrite Es.
  assert (Hst : forall id, 0 <= id < 25 -> storage id = cell_status st id)
    by (intros id Hid; rewrite Hs, cell_ids_existsb by exact Hid; reflexivity).
  destruct (restore_cells_spec storage cell_ids (set_arrows_placed 0 st0))
    as (c' & over & Er & Hlen' & Hc' & _);
    [exact Hlen0 | exact Hfree | intros k Hk; apply cell_ids_range, Hk
     | cbn; lia |].
  rewrite Er. eexists. split; [reflexivity |]. split; [reflexivity |].
  split; [exact Hst |]. cbn [cells score spins_remaining in_flight
                             arrows_placed set_arrows_placed].
  assert (Hcell : forall n, (n < 25)%nat ->
            c' !! n = Some (restored_status (cells st !! n))).
  { intros n Hn. rewrite Hc', cell_ids_existsb by lia.
    rewrite Hst by lia. rewrite cell_status_eq, Nat2Z.id by lia.
    reflexivity. }
  split; [| split; [| split; [reflexivity | split;
                                [reflexivity | split; [reflexivity |]]]]].
  - intros id Hid. rewrite !cell_status_eq by lia. cbn [cells].
    apply Hcell. lia.
  - rewrite Z.add_0_l. f_equal.
    rewrite <- (map_over_cell_ids (fun o => restored_status o)) by exact Hlen.
    apply map_ext_in. intros k Hk. apply cell_ids_range in Hk.
    rewrite Hst, cell_status_eq by lia. reflexivity.
  - intros Hlegal. apply list_eq. intros n.
    destruct (Nat.lt_ge_cases n 25) as [Hn | Hn].
    + rewrite (Hcell n Hn).
      destruct (cells st !! n) as [s|] eqn:E.
      * rewrite restored_legal; [reflexivity |].
        rewrite Forall_forall in Hlegal. apply Hlegal.
        apply list_elem_of_lookup. exists n. exact E.
      * apply lookup_ge_None_1 in E. lia.
    + rewrite !lookup_ge_None_2; [reflexivity | lia | lia].
Qed.

Lemma saved_grid_round_trip_witness :
  exists storage st',
    saveGame_cells arrow_falling (fun _ => None) = Some storage
    /\ initializeGame_cells storage new_game = Some st'
    /\ (forall id, 0 <= id < 25 -> storage id = cell_status arrow_falling id)
    /\ (forall id, 0 <= id < 25 ->
          cell_status st' id
          = Some (restored_status (cell_status arrow_falling id)))
    /\ arrows_placed st'
       = occupied (map (fun s => restored_status (Some s))
                       (cells arrow_falling))
    /\ score st' = score new_game
    /\ spins_remaining st' = spins_remaining new_game
    /\ in_flight st' = in_flight new_game
    /\ (Forall (fun s => legal_status s = true) (cells arrow_falling) ->
        cells st' = cells arrow_falling).
Proof.
  apply (saved_grid_round_trip arrow_falling new_game (fun _ => None)).
  - reflexivity.
  - reflexivity.
  - intros j. reflexivity.
Defined.

Lemma restore_cells_app storage l1 l2 st :
  restore_cells (l1 ++ l2) storage st
  = st1 ← restore_cells l1 storage st; restore_cells l2 storage st1.
Proof.
  revert st. induction l1 as [| k rest IH]; intros st; [reflexivity |].
  cbn [app restore_cells].
  destruct (if negb (is_zero (restored_status (storage k))) then _ else _)
    as [st2|]; [| reflexivity].
  cbn [mbind option_bind].
  destruct (updateGridCell _ _ _ st2) as [[st3 ok]|]; [| reflexivity].
  cbn [mbind option_bind fst]. apply IH.
Qed.

Lemma occupied_full l :
  Forall (fun s => is_zero s = false) l -> occupied l = Z.of_nat (length l).
Proof.
  induction 1 as [| s l Hs _ IH]; [reflexivity |].
  rewrite occupied_cons, Hs, IH. cbn [length]. lia.
Qed.

(** X14.  When the saved grid holds 25 arrows, [initializeGame] counts the
    25th while it restores the last cell and runs [endGameCheck] before that
    cell is written: the check sees cells 0..23 restored and cell 24 as the
    page had it.  The game is declared over on that board, whatever the
    saved arrow of cell 24 could have done. *)
Theorem restore_checks_before_last_cell storage st0 :
  length (cells st0) = 25%nat ->
  (forall j, is_animating st0 j = false) ->
  (forall id, 0 <= id < 25 -> is_zero (restored_status (storage id)) = false) ->
  exists st' seen (r : bool),
    initializeGame_cells storage st0 = Some st'
    /\ arrows_placed st' = 25
    /\ (forall id, 0 <= id < 25 ->
          cell_status st' id = Some (restored_status (storage id)))
    /\ (forall id, 0 <= id < 24 ->
          cell_status seen id = Some (restored_status (storage id)))
    /\ cell_status seen 24 = cell_status st0 24
    /\ endGameCheck seen = Some (if r then endGameMenu seen else seen, r)
    /\ game_over st' = if r then true else game_over st0.
Proof.
  intros Hlen Hfree Hfull. unfold initializeGame_cells.
  change cell_ids with (map Z.of_nat (seq 0 24) ++ [24]).
  rewrite restore_cells_app.
  assert (Hfirst : forall k, In k (map Z.of_nat (seq 0 24)) -> 0 <= k < 24).
  { intros k Hk. apply in_map_iff in Hk as (n & <- & Hn).
    apply in_seq in Hn. lia. }
  destruct (restore_cells_spec storage (map Z.of_nat (seq 0 24))
                               (set_arrows_placed 0 st0))
    as (c1 & over & E1 & Hlen1 & Hc1 & Hover);
    [exact Hlen | exact Hfree | intros k Hk; apply Hfirst in Hk; lia
     | cbn; lia |].
  rewrite E1. cbn [mbind option_bind].
  cbn [arrows_placed set_arrows_placed score spins_remaining animating_columns
       next_arrow next_next_arrow in_flight game_over cells] in *.
  assert (Hcount : occupied (map (fun k => restored_status (storage k))
                                 (map Z.of_nat (seq 0 24))) = 24).
  { rewrite occupied_full; [rewrite !length_map, length_seq; reflexivity |].
    apply Forall_forall. intros s Hs. apply list_elem_of_In in Hs.
    apply in_map_iff in Hs as (k & <- & Hk). apply Hfull.
    apply Hfirst in Hk. lia. }
  rewrite Hcount in *. rewrite Z.add_0_l in *.
  destruct Hover as [-> | [_ Hbad]]; [| lia].
  cbn [restore_cells]. rewrite (Hfull 24) by lia. cbn [negb].
  cbn [arrows_placed set_arrows_placed]. change (24 + 1 =? 25) with true.
  cbv iota.
  match goal with
  | |- context [endGameCheck ?s] =>
      set (seen := s); destruct (endGameCheck_ok seen Hlen1) as [r Er]
  end.
  rewrite Er. cbn [fmap option_fmap option_map mbind option_bind fst].
  rewrite updateGridCell_eq;
    [| destruct r; apply Hfree
     | rewrite grid_id_indices; destruct r; unfold endGameMenu, set_game_over;
       subst seen; cbn [cells set_arrows_placed]; rewrite Hlen1; lia].
  cbn [mbind option_bind fst].
  eexists _, seen, r. split; [reflexivity |].
  split; [destruct r; reflexivity |].
  assert (H24 : forall n, (n < 24)%nat ->
            existsb (Z.eqb (Z.of_nat n)) (map Z.of_nat (seq 0 24)) = true).
  { intros n Hn. apply existsb_exists. exists (Z.of_nat n).
    split; [| apply Z.eqb_refl]. apply in_map, in_seq. lia. }
  split; [| split; [| split; [| split; [exact Er | destruct r; reflexivity]]]].
  - intros id Hid. rewrite cell_status_eq by lia.
    assert (Hcells : forall b,
              cells (set_cells
                       (<[Z.to_nat (grid_id (fst (grid_indices 24))
                                            (snd (grid_indices 24)))
                          := restored_status (storage 24)]>
                          (cells (if b : bool then endGameMenu seen else seen)))
                       (if b then endGameMenu seen else seen))
              = <[24%nat := restored_status (storage 24)]> c1)
      by (intros []; reflexivity).
    rewrite Hcells.
    destruct (Z.eq_dec id 24) as [-> | Hne].
    + apply list_lookup_insert_eq. lia.
    + rewrite list_lookup_insert_ne by lia.
      rewrite Hc1, H24 by lia. rewrite Z2Nat.id by lia. reflexivity.
  - intros id Hid. rewrite cell_status_eq by lia. subst seen. cbn [cells].
    rewrite Hc1, H24 by lia. rewrite Z2Nat.id by lia. reflexivity.
  - rewrite !cell_status_eq by lia. subst seen. cbn [cells].
    rewrite Hc1. reflexivity.
Qed.

Lemma restore_checks_before_last_cell_witness :
  exists st' seen (r : bool),
    initializeGame_cells saved_17_23 new_game = Some st'
    /\ arrows_placed st' = 25
    /\ (forall id, 0 <= id < 25 ->
          cell_status st' id = Some (restored_status (saved_17_23 id)))
    /\ (forall id, 0 <= id < 24 ->
          cell_status seen id = Some (restored_status (saved_17_23 id)))
    /\ cell_status seen 24 = cell_status new_game 24
    /\ endGameCheck seen = Some (if r then endGameMenu seen else seen, r)
    /\ game_over st' = if r then true else game_over new_game.
Proof.
  apply (restore_checks_before_last_cell saved_17_23 new_game).
  - reflexivity.
  - intros j. reflexivity.
  - intros id _. unfold saved_17_23. destruct (id =? 24); reflexivity.
Defined.


Example full_board_restored_as_lost :
  exists st',
    initializeGame_cells saved_17_23 new_game = Some st'
    /\ game_over st' = true
    /\ classifyAction (Int 17) (Int 23) 1 = Combine
    /\ endGameCheck st' = Some (st', false).
Proof.
  destruct (initializeGame_cells saved_17_23 new_game) as [st'|] eqn:E;
    vm_compute in E; [| discriminate E].
  injection E as <-. eexists. split; [reflexivity |].
  split; [reflexivity |]. split; [reflexivity |]. vm_compute. reflexivity.
Qed.

(** ** Dropping the next arrow *)

Lemma applyGravitySteps_starts i j st :
  length (cells st) = 25%nat -> 0 <= i <= 3 -> 0 <= j <= 4 ->
  is_empty_cell (cell_status st (grid_id (i + 1) j)) = true ->
  exists st',
    applyGravitySteps i j st = Some st'
    /\ is_animating st' j = true
    /\ length (in_flight st') = S (length (in_flight st)).
Proof.
  intros Hlen Hi Hj Hbelow.
  destruct (applyGravitySteps_spec i j st Hlen)
    as [E | (st' & a & E & _ & Hfl & _ & _ & _ & Han)].
  - exfalso. unfold applyGravitySteps, getAnimationEnvironment in E.
    rewrite (proj2 (range_spec i j)) in E by lia. cbn [negb] in E.
    unfold can_be_dropped_to in E.
    rewrite (proj2 (range_spec (i + 1) j)) in E by lia. cbn [negb] in E.
    destruct (cell_status st (grid_id (i + 1) j)) as [b|]; [| discriminate].
    cbn [is_empty_cell] in Hbelow. cbn [mbind option_bind] in E.
    rewrite Hbelow in E. cbn [negb] in E.
    destruct (cell_status _ (grid_id i j)) as [c|]; [| discriminate].
    cbn [mbind option_bind] in E.
    destruct (set_status (grid_id i j) _ _) as [s2|] eqn:E2; [| discriminate].
    cbn [mbind option_bind] in E.
    destruct (set_status (grid_id (i + 1) j) _ s2) as [s3|] eqn:E3;
      [| discriminate].
    cbn [mbind option_bind] in E. injection E as E.
    apply set_status_range in E2 as [_ ->], E3 as [_ ->].
    apply (f_equal (fun s => length (in_flight s))) in E.
    cbn [in_flight start_animation set_in_flight set_cells] in E.
    rewrite length_app in E. cbn [length] in E.
    destruct (is_animating st j); cbn [in_flight set_animating_columns] in E;
      lia.
  - exists st'. split; [exact E |]. split; [exact Han |].
    rewrite Hfl, length_app. cbn [length]. lia.
Qed.

(** X15.  The drop handler of the next arrow on a well formed board never
    throws.  The drop is accepted exactly when the pointer is released on
    the grid, on an empty cell of a column that is not locked; otherwise
    nothing changes, the next arrows included.  An accepted drop adds one
    to [arrows_placed], moves the preview arrow to the front and draws a
    new one-directional preview, leaves [score] and [spins_remaining]
    alone, changes cells of its own column only, and when the cell below is
    empty it locks the column, so that a second drop on that column is
    refused until the arrow has landed. *)
Theorem next_arrow_drop na_status x y rand1 rand2 st :
  board_ok st ->
  exists st',
    dropNextArrow na_status x y rand1 rand2 st = Some st'
    /\ board_ok st'
    /\ changes_within [pixel_cell x] st st'
    /\ score st' = score st /\ spins_remaining st' = spins_remaining st
    /\ if in_grid x y && negb (is_animating st (pixel_cell x))
          && is_empty_cell (cell_status st (dest_id x y))
       then arrows_placed st' = arrows_placed st + 1
            /\ (exists next preview,
                  next_arrow st' = Some next
                  /\ next_next_arrow st' = Some preview
                  /\ In preview basic_arr
                  /\ (forall b, next_next_arrow st = Some b -> next = b))
            /\ (game_over st' = game_over st \/ arrows_placed st' = 25)
            /\ (pixel_cell y < 4 ->
                is_empty_cell (cell_status st (grid_id (pixel_cell y + 1)
                                                       (pixel_cell x)))
                = true ->
                forall na' x' y' r1 r2,
                  pixel_cell x' = pixel_cell x ->
                  dropNextArrow na' x' y' r1 r2 st' = Some st')
       else st' = st.
Proof.
  intros Hok. pose proof Hok as (Hlen & _).
  assert (Hsame : exists st',
            Some st = Some st'
            /\ board_ok st'
            /\ changes_within [pixel_cell x] st st'
            /\ score st' = score st /\ spins_remaining st' = spins_remaining st
            /\ st' = st).
  { exists st. split; [reflexivity |]. split; [exact Hok |].
    split; [apply changes_within_refl | tauto]. }
  unfold dropNextArrow.
  destruct (in_grid x y) eqn:Hgrid; cbn [andb]; [| exact Hsame].
  pose proof (in_grid_cells _ _ Hgrid) as [Hx Hy].
  unfold insertNewArrow. fold (dest_id x y).
  destruct (is_animating st (pixel_cell x)) eqn:Han; cbn [negb andb].
  { cbn [mbind option_bind fst snd]. exact Hsame. }
  replace ((pixel_cell y <? 0) || (pixel_cell x <? 0) || (pixel_cell y >? 4)
           || (pixel_cell x >? 4)) with false
    by (symmetry; rewrite !orb_false_iff, !Z.ltb_ge, !Z.gtb_ltb, !Z.ltb_ge; lia).
  destruct (cell_status_is_Some st (dest_id x y)) as [s Hs];
    [pose proof (in_grid_dest _ _ Hgrid); lia |].
  rewrite Hs. cbn [mbind option_bind is_empty_cell].
  destruct (is_zero s) eqn:Hz; cbn [negb];
    [| cbn [mbind option_bind fst snd]; exact Hsame].
  rewrite set_status_eq by (pose proof (in_grid_dest _ _ Hgrid); lia).
  cbn [mbind option_bind].
  set (st1 := set_cells (<[Z.to_nat (dest_id x y) := na_status]> (cells st)) st).
  assert (Hok1 : board_ok st1)
    by (eapply engine_ok_ext; [| | | exact Hok]; try reflexivity;
        apply length_insert).
  destruct (applyGravitySteps_ok [] (pixel_cell y) (pixel_cell x) st1 Hok1)
    as (st2 & E2 & Hok2 & Hch2).
  rewrite E2. cbn [mbind option_bind fst snd].
  pose proof (applyGravitySteps_queue _ _ _ _ E2) as [Q1 Q2].
  pose proof (applyGravitySteps_counters _ _ _ _ E2) as (C1 & C2 & C3).
  unfold updateNextArrows.
  destruct (random_arrow_basic rand2) as (p & Hp & Hinp).
  assert (Hnext : exists n,
            match next_next_arrow st2 with
            | Some a => Some a
            | None => getRandomArrow rand1
            end = Some n
            /\ forall b, next_next_arrow st = Some b -> n = b).
  { rewrite Q2. change (next_next_arrow st1) with (next_next_arrow st).
    destruct (next_next_arrow st) as [b|].
    - exists b. split; [reflexivity | congruence].
    - destruct (random_arrow_basic rand1) as (n & Hn & _).
      exists n. split; [exact Hn | discriminate]. }
  destruct Hnext as (n & -> & Hn). cbn [mbind option_bind].
  rewrite Hp. cbn [mbind option_bind].
  set (st3 := set_arrows_placed _ _).
  assert (Hok3 : board_ok st3)
    by (eapply engine_ok_ext; [| | | exact Hok2]; reflexivity).
  assert (Hch3 : changes_within [pixel_cell x] st st3).
  { eapply changes_within_trans;
      [apply (changes_within_cell (pixel_cell y) (pixel_cell x) na_status st);
       lia |].
    eapply changes_within_trans; [exact Hch2 |]. repeat split. }
  assert (Hlock : pixel_cell y < 4 ->
            is_empty_cell (cell_status st (grid_id (pixel_cell y + 1)
                                                   (pixel_cell x))) = true ->
            is_animating st2 (pixel_cell x) = true).
  { intros Hrow Hbelow.
    destruct (applyGravitySteps_starts (pixel_cell y) (pixel_cell x) st1)
      as (st2' & E2' & Han2 & _);
      [apply Hok1 | lia | lia | | congruence].
    rewrite cell_status_eq in Hbelow |- * by (unfold grid_id; lia).
    subst st1. cbn [cells set_cells].
    rewrite list_lookup_insert_ne by (unfold dest_id, grid_id; lia).
    exact Hbelow. }
  assert (Hrefuse : forall s' : game,
            is_animating s' (pixel_cell x) = true ->
            forall na' x' y' r1 r2,
              pixel_cell x' = pixel_cell x ->
              dropNextArrow na' x' y' r1 r2 s' = Some s').
  { intros s' Hs' na' x' y' r1 r2 Hx'. unfold dropNextArrow, insertNewArrow.
    rewrite Hx', Hs'. destruct (in_grid x' y'); reflexivity. }
  assert (Hfin : forall s' : game,
            s' = st3 \/ s' = endGameMenu st3 ->
            board_ok s'
            /\ changes_within [pixel_cell x] st s'
            /\ score s' = score st /\ spins_remaining s' = spins_remaining st
            /\ arrows_placed s' = arrows_placed st + 1
            /\ (exists next preview,
                  next_arrow s' = Some next
                  /\ next_next_arrow s' = Some preview
                  /\ In preview basic_arr
                  /\ (forall b, next_next_arrow st = Some b -> next = b))
            /\ (pixel_cell y < 4 ->
                is_empty_cell (cell_status st (grid_id (pixel_cell y + 1)
                                                       (pixel_cell x)))
                = true ->
                forall na' x' y' r1 r2,
                  pixel_cell x' = pixel_cell x ->
                  dropNextArrow na' x' y' r1 r2 s' = Some s')).
  { intros s' Hs'.
    assert (Hb : board_ok s')
      by (destruct Hs' as [-> | ->]; [exact Hok3 |];
          eapply engine_ok_ext; [| | | exact Hok3]; reflexivity).
    assert (Hc : changes_within [pixel_cell x] st s')
      by (destruct Hs' as [-> | ->]; [exact Hch3 |];
          eapply changes_within_trans; [exact Hch3 |]; repeat split).
    split; [exact Hb |]. split; [exact Hc |].
    split; [destruct Hs' as [-> | ->]; cbn; rewrite C1; reflexivity |].
    split; [destruct Hs' as [-> | ->]; cbn; rewrite C2; reflexivity |].
    split; [destruct Hs' as [-> | ->]; cbn; rewrite C3; reflexivity |].
    split; [exists n, p; destruct Hs' as [-> | ->]; cbn; tauto |].
    intros Hrow Hbelow. apply Hrefuse.
    specialize (Hlock Hrow Hbelow).
    destruct Hs' as [-> | ->]; exact Hlock. }
  destruct (Z.eqb_spec (arrows_placed st3) 25) as [E25 | E25].
  - destruct (endGameCheck_ok st3 (proj1 Hok3)) as [r Er]. rewrite Er.
    cbn [fmap option_fmap option_map fst].
    eexists. split; [reflexivity |].
    destruct (Hfin (if r then endGameMenu st3 else st3))
      as (H1 & H2 & H3 & H4 & H5 & H6 & H7); [destruct r; tauto |].
    repeat (split; [assumption |]). split; [| exact H7].
    right. rewrite H5. subst st3.
    cbn [arrows_placed set_arrows_placed set_next_arrows] in E25.
    rewrite C3 in E25. exact E25.
  - eexists. split; [reflexivity |].
    destruct (Hfin st3) as (H1 & H2 & H3 & H4 & H5 & H6 & H7); [tauto |].
    repeat (split; [assumption |]). split; [| exact H7].
    left. subst st3. cbn [game_over set_arrows_placed set_next_arrows].
    pose proof E2 as G. unfold applyGravitySteps in G.
    destruct (getAnimationEnvironment _ _ st1) as [[sg [e|]]|] eqn:Eg;
      [| | discriminate]; cbn [mbind option_bind] in G; injection G as <-;
      unfold getAnimationEnvironment, set_status in Eg;
      repeat (case_match || simplify_option_eq); reflexivity.
Qed.

Lemma next_arrow_drop_witness :
  exists st',
    dropNextArrow (Num (Int 1)) (inject_Z 150) (inject_Z 30) (1 # 3) (2 # 3)
                  new_game = Some st'
    /\ board_ok st'
    /\ changes_within [pixel_cell (inject_Z 150)] new_game st'
    /\ score st' = score new_game
    /\ spins_remaining st' = spins_remaining new_game
    /\ if in_grid (inject_Z 150) (inject_Z 30)
          && negb (is_animating new_game (pixel_cell (inject_Z 150)))
          && is_empty_cell
               (cell_status new_game (dest_id (inject_Z 150) (inject_Z 30)))
       then arrows_placed st' = arrows_placed new_game + 1
            /\ (exists next preview,
                  next_arrow st' = Some next
                  /\ next_next_arrow st' = Some preview
                  /\ In preview basic_arr
                  /\ (forall b, next_next_arrow new_game = Some b -> next = b))
            /\ (game_over st' = game_over new_game \/ arrows_placed st' = 25)
            /\ (pixel_cell (inject_Z 30) < 4 ->
                is_empty_cell
                  (cell_status new_game
                     (grid_id (pixel_cell (inject_Z 30) + 1)
                              (pixel_cell (inject_Z 150))))
                = true ->
                forall na' x' y' r1 r2,
                  pixel_cell x' = pixel_cell (inject_Z 150) ->
                  dropNextArrow na' x' y' r1 r2 st' = Some st')
       else st' = new_game.
Proof.
  apply (next_arrow_drop (Num (Int 1)) (inject_Z 150) (inject_Z 30)
                         (1 # 3) (2 # 3) new_game).
  split; [reflexivity |].
  split; [constructor | intros j Hj; discriminate Hj].
Defined.

(** ** Gravity keeps the arrows *)

(** X16.  Gravity neither loses nor duplicates an arrow.  On a board of 25
    cells at rest, in a column that holds numbers, [applyActionGravity i j]
    followed by every animation frame it causes ends with no animation in
    flight, and the column then holds the same arrows in the same order from
    top to bottom, whatever row [i] the call starts from and whether or not
    the column ends up settled. *)
Theorem gravity_keeps_arrows st i j :
  length (cells st) = 25%nat -> 0 <= j <= 4 -> at_rest st ->
  forallb is_numeral (column st j) = true ->
  exists (settled : bool) col,
    gravity_outcome st i j = Some ([], settled, col)
    /\ column_arrows col = column_arrows (column st j).
Proof.
  intros Hlen Hj Hrest Hnum.
  open_board st Hlen Hrest.
  assert (Hi : i = 0 \/ i = 1 \/ i = 2 \/ i = 3 \/ (i < 0 \/ 4 <= i)) by lia.
  assert (Hj' : j = 0 \/ j = 1 \/ j = 2 \/ j = 3 \/ j = 4) by lia.
  clear Hj.
  destruct Hj' as [-> | [-> | [-> | [-> | ->]]]];
    vm_compute in Hnum; split_cells Hnum; clear Hnum;
    (destruct Hi as [-> | [-> | [-> | [-> | Hi]]]];
     [ | | | |
       unfold gravity_outcome;
       rewrite (applyActionGravity_outside i _ _ Hi);
       cbn [mbind option_bind] ];
     vm_compute; eexists _, _; (split; reflexivity)).
Qed.

Lemma gravity_keeps_arrows_witness :
  exists (settled : bool) col,
    gravity_outcome column_with_hole 2 0 = Some ([], settled, col)
    /\ column_arrows col = column_arrows (column column_with_hole 0).
Proof.
  apply (gravity_keeps_arrows column_with_hole 2 0).
  - reflexivity.
  - lia.
  - split; reflexivity.
  - reflexivity.
Defined.

(** ** Dragging a grid cell *)

(** X17.  A drag of a grid cell on a well formed board never throws and
    changes cells of the two columns involved only.  Either it changes
    nothing at all, or it was pressed on an arrow and released on another
    cell that holds an arrow, and then [score += amount] was performed
    with a positive amount and [arrows_placed] has dropped.  Pressing and releasing on the same cell,
    pressing on an empty cell and releasing on an empty cell all change
    nothing; the next arrows are never touched. *)
Theorem cell_drag x1 y1 x2 y2 st :
  board_ok st ->
  exists st',
    dragCell x1 y1 x2 y2 st = Some st'
    /\ board_ok st'
    /\ changes_within [pixel_cell x1; pixel_cell x2] st st'
    /\ same_queue st st'
    /\ (st' = st
        \/ (in_grid x1 y1 = true /\ in_grid x2 y2 = true
            /\ dest_id x1 y1 <> dest_id x2 y2
            /\ (exists amount,
                  0 < amount /\ score st' = js_plus (score st) amount)
            /\ arrows_placed st' < arrows_placed st
            /\ exists a b,
                 cell_status st (dest_id x1 y1) = Some (Num (Int a))
                 /\ cell_status st (dest_id x2 y2) = Some (Num (Int b))
                 /\ In a arrows /\ In b arrows)).
Proof.
  intros Hok. pose proof Hok as (Hlen & _). unfold dragCell.
  destruct (in_grid x1 y1) eqn:Hgrid1.
  2:{ exists st. split; [reflexivity |]. split; [exact Hok |].
      split; [apply changes_within_refl |].
      split; [apply same_queue_refl | tauto]. }
  fold (dest_id x1 y1).
  pose proof (in_grid_dest _ _ Hgrid1) as Horigin.
  pose proof (in_grid_cells _ _ Hgrid1) as [Hx1 Hy1].
  destruct (cell_status_is_Some st (dest_id x1 y1)) as [cs Hcs]; [lia |].
  rewrite Hcs. cbn [mbind option_bind].
  destruct (handleAction_ok st (dest_id x1 y1) cs x2 y2 Hok Horigin)
    as (st' & r & E & Hok' & Hch).
  rewrite E. cbn [fmap option_fmap option_map fst].
  exists st'. split; [reflexivity |]. split; [exact Hok' |].
  split.
  { unfold dest_id at 1 in Hch. rewrite grid_id_column in Hch by lia.
    exact Hch. }
  split; [apply (handleAction_queue _ _ _ _ _ _ _ E) |].
  unfold handleAction in E.
  destruct (handleAction_resolve st (dest_id x1 y1) cs x2 y2) as [res|] eqn:R;
    [| discriminate].
  cbn [mbind option_bind] in E.
  destruct res as [s | s | s calls].
  - destruct (resolve_cases _ _ _ _ _ _ R) as [D | [D | (? & ? & ? & D & _)]];
      try discriminate D.
    injection D as ->. injection E as <- _. tauto.
  - destruct (resolve_cases _ _ _ _ _ _ R) as [D | [D | (? & ? & ? & D & _)]];
      try discriminate D.
    injection D as ->. injection E as <- _. tauto.
  - right. apply resolve_inversion in R
      as (ds & Hgrid2 & _ & _ & _ & Hds & He & Hc & -> & _).
    destruct (apply_gravity_calls calls _) as [st2|] eqn:G; [| discriminate].
    injection E as <- _.
    apply apply_gravity_calls_counters in G as (S1 & _ & S3).
    destruct (classify_facts _ _ _ Hc)
      as (a & b & Ha & Hb & Hina & Hinb & Hd & _).
    apply parseInt_Int in Ha, Hb. subst cs ds.
    split; [reflexivity |]. split; [exact Hgrid2 |].
    split.
    { intros Eq. rewrite Eq, Z.sub_diag in Hd. cbn in Hd. lia. }
    rewrite S1, S3. unfold resolved; cbn [score arrows_placed].
    split.
    { eexists. split; [| reflexivity].
      apply score_delta_positive; [apply tier_score_at_least_2 | exact Hc]. }
    split; [| exists a, b; tauto].
    destruct (classifyAction _ _ _); cbn; try lia. congruence.
Qed.

Lemma cell_drag_witness :
  exists st',
    dragCell (inject_Z 30) (inject_Z 30) (inject_Z 30) (inject_Z 90)
             two_up_arrows = Some st'
    /\ board_ok st'
    /\ changes_within [pixel_cell (inject_Z 30); pixel_cell (inject_Z 30)]
                      two_up_arrows st'
    /\ same_queue two_up_arrows st'
    /\ (st' = two_up_arrows
        \/ (in_grid (inject_Z 30) (inject_Z 30) = true
            /\ in_grid (inject_Z 30) (inject_Z 90) = true
            /\ dest_id (inject_Z 30) (inject_Z 30)
               <> dest_id (inject_Z 30) (inject_Z 90)
            /\ (exists amount,
                  0 < amount
                  /\ score st' = js_plus (score two_up_arrows) amount)
            /\ arrows_placed st' < arrows_placed two_up_arrows
            /\ exists a b,
                 cell_status two_up_arrows (dest_id (inject_Z 30) (inject_Z 30))
                 = Some (Num (Int a))
                 /\ cell_status two_up_arrows
                                (dest_id (inject_Z 30) (inject_Z 90))
                    = Some (Num (Int b))
                 /\ In a arrows /\ In b arrows)).
Proof.
  apply (cell_drag (inject_Z 30) (inject_Z 30) (inject_Z 30) (inject_Z 90)
                   two_up_arrows).
  split; [reflexivity |].
  split; [constructor | intros j Hj; discriminate Hj].
Defined.

(** * Moves, with the gravity they start *)

(** ** The cells after a gravity call *)

Lemma is_empty_cell_zero c : is_empty_cell c = true -> c = Some status_zero.
Proof.
  destruct c as [[[[| p | p] |] |] |]; cbn; intros H;
    first [discriminate H | reflexivity].
Qed.

Lemma cell_status_insert st k s id :
  0 <= k < Z.of_nat (length (cells st)) ->
  cell_status (set_cells (<[Z.to_nat k := s]> (cells st)) st) id
  = if id =? k then Some s else cell_status st id.
Proof.
  intros Hk. unfold cell_status; cbn [cells set_cells].
  destruct (Z.eqb_spec id k) as [-> | Hne].
  - destruct (Z.ltb_spec k 0); [lia |]. apply list_lookup_insert_eq. lia.
  - destruct (Z.ltb_spec id 0); [reflexivity |].
    apply list_lookup_insert_ne. lia.
Qed.

(** [applyGravitySteps] either leaves the cells alone or vacates cell
    [(i, j)] and reserves the cell below it. *)
Lemma applyGravitySteps_cells i j st :
  length (cells st) = 25%nat ->
  exists st',
    applyGravitySteps i j st = Some st'
    /\ length (cells st') = 25%nat
    /\ forall id,
         cell_status st' id
         = if can_fall st i j
           then if id =? grid_id (i + 1) j then Some AnimatingTo
                else if id =? grid_id i j then Some status_zero
                     else cell_status st id
           else cell_status st id.
Proof.
  intros Hlen. unfold applyGravitySteps, getAnimationEnvironment, can_fall.
  destruct (cell_in_gravity_range i j) eqn:Hr; cbn [negb andb];
    [| exists st; repeat split; assumption].
  unfold can_be_dropped_to.
  destruct (cell_in_gravity_range (i + 1) j) eqn:Hr1; cbn [negb andb];
    [| exists st; repeat split; assumption].
  apply range_spec in Hr, Hr1.
  destruct (cell_status_is_Some st (grid_id (i + 1) j)) as [below Hb];
    [unfold grid_id; lia |].
  rewrite Hb. cbn [mbind option_bind is_empty_cell].
  destruct (is_zero below); cbn [negb];
    [| exists st; repeat split; assumption].
  set (st1 := if is_animating st j then st
              else set_animating_columns (animating_columns st ++ [j]) st).
  assert (Hc1 : cells st1 = cells st)
    by (subst st1; destruct (is_animating st j); reflexivity).
  assert (Hs1 : forall id, cell_status st1 id = cell_status st id)
    by (intros id; unfold cell_status; rewrite Hc1; reflexivity).
  destruct (cell_status_is_Some st1 (grid_id i j)) as [c Hc];
    [rewrite Hc1; unfold grid_id; lia |].
  rewrite Hc. cbn [mbind option_bind].
  rewrite set_status_eq by (rewrite Hc1; unfold grid_id; lia).
  cbn [mbind option_bind].
  rewrite set_status_eq
    by (cbn [cells set_cells]; rewrite length_insert, Hc1; unfold grid_id; lia).
  cbn [mbind option_bind]. eexists. split; [reflexivity |].
  split.
  { cbn [cells start_animation set_in_flight set_cells].
    rewrite !length_insert, Hc1. exact Hlen. }
  intros id.
  change (cell_status (start_animation ?a ?s) id) with (cell_status s id).
  rewrite cell_status_insert
    by (cbn [cells set_cells]; rewrite length_insert, Hc1; unfold grid_id; lia).
  destruct (id =? grid_id (i + 1) j); [reflexivity |].
  rewrite cell_status_insert by (rewrite Hc1; unfold grid_id; lia).
  destruct (id =? grid_id i j); [reflexivity | apply Hs1].
Qed.

Lemma holds_arrow_off_grid st id : id < 0 -> holds_arrow (cell_status st id) = false.
Proof.
  intros H. unfold cell_status. destruct (Z.ltb_spec id 0); [reflexivity | lia].
Qed.

(** What [applyActionGravity] leaves in its column: the cells below row
    [i + 1] and the other columns are untouched; the empty cell under
    [(i, j)] is reserved when [(i, j)] holds an arrow; and then [(i, j)]
    itself is reserved or empty according to the cell above it. *)
Lemma applyActionGravity_rec_cells fuel i j st :
  length (cells st) = 25%nat -> 0 <= j <= 4 ->
  (0 < fuel)%nat -> (0 <= i < 4 -> i + 2 <= Z.of_nat fuel) ->
  exists st',
    applyActionGravity_rec fuel i j st = Some st'
    /\ length (cells st') = 25%nat
    /\ (forall id, 0 <= id -> Z.rem id 5 <> j \/ grid_id (i + 1) j < id ->
                   cell_status st' id = cell_status st id)
    /\ (i <= 3 ->
        is_empty_cell (cell_status st (grid_id (i + 1) j)) = true ->
        cell_status st' (grid_id (i + 1) j)
        = Some (if holds_arrow (cell_status st (grid_id i j))
                then AnimatingTo else status_zero))
    /\ (0 <= i <= 3 ->
        holds_arrow (cell_status st (grid_id i j)) = true ->
        is_empty_cell (cell_status st (grid_id (i + 1) j)) = true ->
        cell_status st' (grid_id i j)
        = Some (if holds_arrow (cell_status st (grid_id (i - 1) j))
                then AnimatingTo else status_zero)).
Proof.
  revert i st. induction fuel as [| fuel IH];
    intros i st Hlen Hj Hpos Hfuel; [lia |].
  cbn [applyActionGravity_rec].
  destruct ((i <? 0) || (j <? 0) || (i >=? 4) || (j >? 4)) eqn:Hguard.
  { exists st. split; [reflexivity |]. split; [exact Hlen |].
    split; [reflexivity |].
    rewrite !orb_true_iff, !Z.ltb_lt, Z.geb_leb, Z.leb_le, Z.gtb_ltb, Z.ltb_lt
      in Hguard.
    split.
    - intros Hi Hempty. assert (i < 0) by lia.
      rewrite holds_arrow_off_grid by (unfold grid_id; lia).
      apply is_empty_cell_zero, Hempty.
    - intros Hi. lia. }
  rewrite !orb_false_iff in Hguard. destruct Hguard as [[[H1 H2] H3] H4].
  apply Z.ltb_ge in H1, H2. rewrite Z.geb_leb in H3. apply Z.leb_gt in H3.
  destruct (cell_status_is_Some st (grid_id i j)) as [c Hc];
    [unfold grid_id; lia |].
  rewrite Hc. cbn [mbind option_bind holds_arrow].
  destruct (is_zero c || is_animatingto c) eqn:Harrow; cbn [negb].
  { exists st. split; [reflexivity |]. split; [exact Hlen |].
    split; [reflexivity |]. split.
    - intros _ Hempty. apply is_empty_cell_zero, Hempty.
    - intros _ Hbad. discriminate Hbad. }
  destruct (applyGravitySteps_cells i j st Hlen) as (st1 & -> & Hlen1 & Hcells1).
  cbn [mbind option_bind].
  destruct (IH (i - 1) st1 Hlen1 Hj) as (st' & E & Hlen' & F1 & F2 & _);
    [lia | lia |].
  exists st'. split; [exact E |]. split; [exact Hlen' |].
  assert (Hcol : forall r, 0 <= r -> Z.rem (grid_id r j) 5 = j)
    by (intros r Hr; apply grid_id_column; lia).
  split; [| split].
  - intros id Hid Hout. rewrite F1.
    + rewrite Hcells1. destruct (can_fall st i j); [| reflexivity].
      destruct (Z.eqb_spec id (grid_id (i + 1) j)) as [-> | _].
      { destruct Hout as [Hout | Hout]; [| lia].
        exfalso. apply Hout, Hcol. lia. }
      destruct (Z.eqb_spec id (grid_id i j)) as [-> | _]; [| reflexivity].
      destruct Hout as [Hout | Hout]; [| unfold grid_id in Hout; lia].
      exfalso. apply Hout, Hcol. lia.
    + exact Hid.
    + destruct Hout as [Hout | Hout]; [left; exact Hout |].
      right. unfold grid_id in *. lia.
  - intros _ Hempty. rewrite F1; [| unfold grid_id; lia
                                   | right; unfold grid_id; lia].
    rewrite Hcells1. unfold can_fall.
    rewrite (proj2 (range_spec i j)), (proj2 (range_spec (i + 1) j)), Hempty
      by lia.
    cbn [andb]. rewrite Z.eqb_refl. reflexivity.
  - intros _ _ Hempty.
    assert (Hfall : can_fall st i j = true).
    { unfold can_fall.
      rewrite (proj2 (range_spec i j)), (proj2 (range_spec (i + 1) j)), Hempty
        by lia. reflexivity. }
    assert (Hat : forall id,
              cell_status st1 id
              = if id =? grid_id (i + 1) j then Some AnimatingTo
                else if id =? grid_id i j then Some status_zero
                     else cell_status st id)
      by (intros id; rewrite Hcells1, Hfall; reflexivity).
    replace (grid_id i j) with (grid_id (i - 1 + 1) j)
      by (unfold grid_id; lia).
    rewrite F2; [| lia |].
    + rewrite (Hat (grid_id (i - 1) j)).
      destruct (Z.eqb_spec (grid_id (i - 1) j) (grid_id (i + 1) j));
        [unfold grid_id in *; lia |].
      destruct (Z.eqb_spec (grid_id (i - 1) j) (grid_id i j));
        [unfold grid_id in *; lia |].
      reflexivity.
    + rewrite (Hat (grid_id (i - 1 + 1) j)).
      destruct (Z.eqb_spec (grid_id (i - 1 + 1) j) (grid_id (i + 1) j));
        [unfold grid_id in *; lia |].
      destruct (Z.eqb_spec (grid_id (i - 1 + 1) j) (grid_id i j));
        [reflexivity | unfold grid_id in *; lia].
Qed.

Lemma applyActionGravity_cells i j st :
  length (cells st) = 25%nat -> 0 <= j <= 4 ->
  exists st',
    applyActionGravity i j st = Some st'
    /\ length (cells st') = 25%nat
    /\ (forall id, 0 <= id -> Z.rem id 5 <> j \/ grid_id (i + 1) j < id ->
                   cell_status st' id = cell_status st id)
    /\ (i <= 3 ->
        is_empty_cell (cell_status st (grid_id (i + 1) j)) = true ->
        cell_status st' (grid_id (i + 1) j)
        = Some (if holds_arrow (cell_status st (grid_id i j))
                then AnimatingTo else status_zero))
    /\ (0 <= i <= 3 ->
        holds_arrow (cell_status st (grid_id i j)) = true ->
        is_empty_cell (cell_status st (grid_id (i + 1) j)) = true ->
        cell_status st' (grid_id i j)
        = Some (if holds_arrow (cell_status st (grid_id (i - 1) j))
                then AnimatingTo else status_zero)).
Proof.
  intros Hlen Hj. apply applyActionGravity_rec_cells;
    [exact Hlen | exact Hj | lia | cbn; lia].
Qed.

(** The call [applyActionGravity(origin[0] - 1, origin[1])] that follows the
    emptying of cell [origin]. *)
Lemma gravity_above_cell st origin :
  length (cells st) = 25%nat -> 0 <= origin < 25 ->
  cell_status st origin = Some status_zero ->
  exists st',
    applyActionGravity (fst (grid_indices origin) - 1)
                       (snd (grid_indices origin)) st = Some st'
    /\ length (cells st') = 25%nat
    /\ (forall id, 0 <= id -> Z.rem id 5 <> Z.rem origin 5 \/ origin < id ->
                   cell_status st' id = cell_status st id)
    /\ cell_status st' origin
       = Some (if holds_arrow (cell_status st (origin - 5))
               then AnimatingTo else status_zero)
    /\ (holds_arrow (cell_status st (origin - 5)) = true ->
        cell_status st' (origin - 5)
        = Some (if holds_arrow (cell_status st (origin - 10))
                then AnimatingTo else status_zero)).
Proof.
  intros Hlen Ho Hzero.
  pose proof (grid_id_indices origin) as Hid.
  assert (Hj : snd (grid_indices origin) = Z.rem origin 5) by reflexivity.
  assert (Hjr : 0 <= snd (grid_indices origin) <= 4)
    by (rewrite Hj; pose proof (Z.rem_bound_pos origin 5); lia).
  assert (Hir : 0 <= fst (grid_indices origin) <= 4)
    by (unfold grid_id in Hid; lia).
  set (i := fst (grid_indices origin)) in *.
  set (j := snd (grid_indices origin)) in *.
  assert (E1 : grid_id (i - 1 + 1) j = origin)
    by (rewrite <- Hid; unfold grid_id; lia).
  assert (E0 : grid_id (i - 1) j = origin - 5)
    by (rewrite <- Hid; unfold grid_id; lia).
  assert (E2 : grid_id (i - 1 - 1) j = origin - 10)
    by (rewrite <- Hid; unfold grid_id; lia).
  destruct (applyActionGravity_cells (i - 1) j st Hlen Hjr)
    as (st' & E & Hlen' & F1 & F2 & F3).
  rewrite E1, E0, E2, Hj in *.
  exists st'. split; [exact E |]. split; [exact Hlen' |].
  split; [exact F1 |]. split.
  - apply F2; [lia |]. rewrite Hzero. reflexivity.
  - intros Harrow. apply F3; [| exact Harrow | rewrite Hzero; reflexivity].
    destruct (Z.ltb_spec (origin - 5) 0) as [Hneg |].
    + rewrite holds_arrow_off_grid in Harrow by exact Hneg. discriminate.
    + unfold grid_id in Hid. lia.
Qed.

Lemma resolved_elsewhere st a src dest origin dest_cell id :
  0 <= origin -> 0 <= dest_cell -> id <> origin -> id <> dest_cell ->
  cell_status (resolved st a src dest origin dest_cell) id = cell_status st id.
Proof.
  intros Ho Hd H1 H2. unfold cell_status, resolved; cbn [cells].
  destruct (Z.ltb_spec id 0); [reflexivity |].
  rewrite !list_lookup_insert_ne by lia. reflexivity.
Qed.

Lemma resolved_length st a src dest origin dest_cell :
  length (cells (resolved st a src dest origin dest_cell)) = length (cells st).
Proof. unfold resolved; cbn [cells]. rewrite !length_insert. reflexivity. Qed.

Lemma other_column a b :
  0 <= a -> 0 <= b -> In (Z.abs (a - b)) [1; 4; 6] -> Z.rem a 5 <> Z.rem b 5.
Proof.
  intros Ha Hb Hd. rewrite !Z.rem_mod_nonneg by lia.
  cbn in Hd. Z.to_euclidean_division_equations. lia.
Qed.

(** ** Basic arrows *)





(** ** Maximal arrows *)

Lemma neighbour_columns a b :
  0 <= a -> 0 <= b -> Z.abs (a - b) = 1 -> Z.rem a 5 <> Z.rem b 5.
Proof.
  intros Ha Hb Hd. apply other_column; [exact Ha | exact Hb |].
  rewrite Hd. cbn. tauto.
Qed.

(** C6.  At every distance whose absolute value is 1, 4, 5 or 6,
    [classifyAction] answers Cancel for two 40s and Combine for 17 with 23
    in either order.  On an admitted move of a 40 onto a 40 at distance 1
    or -1, [handleAction] writes "0" to both cells, performs
    [spins_remaining += 1] and [score += 2 ** 9 + 2], and calls
    [applyActionGravity] above the source cell and then above the
    destination cell; when it returns, each of the two cells is
    "animatingto" if an arrow stood above it and "0" otherwise, and a
    numeric [spins_remaining] has grown by one.  An admitted Cancel whose two
    values do not add up to 80 leaves [spins_remaining] as it was. *)
Theorem maximal_arrow_rules :
  (forall d, In (Z.abs d) [1; 4; 5; 6] ->
     classifyAction (Int 40) (Int 40) d = Cancel
     /\ classifyAction (Int 17) (Int 23) d = Combine
     /\ classifyAction (Int 23) (Int 17) d = Combine)
  /\ (forall st origin x y,
        move_admitted st origin x y ->
        cell_status st (dest_id x y) = Some (Num (Int 40)) ->
        Z.abs (dest_id x y - origin) = 1 ->
        exists mid st',
          handleAction_resolve st origin (Num (Int 40)) x y
          = Some (Applied mid
                    [(fst (grid_indices origin) - 1, snd (grid_indices origin));
                     (pixel_cell y - 1, pixel_cell x)])
          /\ cell_status mid (dest_id x y) = Some (Num (Int 0))
          /\ cell_status mid origin = Some (Num (Int 0))
          /\ spins_remaining mid = js_plus (spins_remaining st) 1
          /\ score mid = js_plus (score st) (2 ^ 9 + 2)
          /\ handleAction st origin (Num (Int 40)) x y = Some (st', Undefined)
          /\ cell_status st' origin
             = Some (if holds_arrow (cell_status st (origin - 5))
                     then AnimatingTo else Num (Int 0))
          /\ cell_status st' (dest_id x y)
             = Some (if holds_arrow (cell_status st (dest_id x y - 5))
                     then AnimatingTo else Num (Int 0))
          /\ (forall n, spins_remaining st = number n ->
                        spins_remaining st' = number (n + 1)))
  /\ (forall st origin clone_status x y dest_status,
        move_admitted st origin x y ->
        cell_status st (dest_id x y) = Some dest_status ->
        classifyAction (parseInt clone_status) (parseInt dest_status)
                       (dest_id x y - origin) = Cancel ->
        strict_eq (js_add (parseInt clone_status) (parseInt dest_status))
                  (Int 80) = false ->
        exists st',
          handleAction st origin clone_status x y = Some (st', Undefined)
          /\ spins_remaining st' = spins_remaining st).
Proof.
  assert (Hmax : forall d, In (Z.abs d) [1; 4; 5; 6] ->
     classifyAction (Int 40) (Int 40) d = Cancel
     /\ classifyAction (Int 17) (Int 23) d = Combine
     /\ classifyAction (Int 23) (Int 17) d = Combine).
  { intros d Hd. unfold classifyAction. cbn in *.
    split_tests; cbn; repeat split; lia. }
  split; [exact Hmax |]. split.
  - intros st origin x y Hadm Hdest Hdist.
    pose proof (resolve_applied st origin (Num (Int 40)) x y _ Hadm Hdest) as R.
    cbn [parseInt] in R.
    rewrite (proj1 (Hmax (dest_id x y - origin)
                         ltac:(rewrite Hdist; cbn; tauto))) in R.
    specialize (R ltac:(discriminate)).
    assert (Hcalls :
      gravity_calls (Int 40) (Int 40) (dest_id x y - origin)
        (grid_indices origin) (pixel_cell y) (pixel_cell x) (Int 0)
        (action_dest_content Cancel (Int 40) (Int 40))
      = [(fst (grid_indices origin) - 1, snd (grid_indices origin));
         (pixel_cell y - 1, pixel_cell x)]) by reflexivity.
    rewrite Hcalls in R. clear Hcalls.
    destruct Hadm as (Hgrid & _ & _ & Hlen & Horigin & _).
    pose proof (in_grid_dest _ _ Hgrid) as Hd.
    pose proof (in_grid_cells _ _ Hgrid) as [Hcj Hci].
    assert (Hne : dest_id x y <> origin) by lia.
    set (mid := resolved st Cancel (Int 40) (Int 40) origin (dest_id x y)) in *.
    assert (Hmd : cell_status mid (dest_id x y) = Some status_zero)
      by (apply resolved_dest; lia).
    assert (Hmo : cell_status mid origin = Some status_zero)
      by (apply resolved_origin; lia).
    assert (Hml : length (cells mid) = 25%nat)
      by (subst mid; rewrite resolved_length; exact Hlen).
    assert (Hcol : Z.rem (dest_id x y) 5 <> Z.rem origin 5)
      by (apply neighbour_columns; lia).
    destruct (gravity_above_cell mid origin Hml Horigin Hmo)
      as (s1 & E1 & Hl1 & A1 & A2 & _).
    assert (Hs1d : cell_status s1 (dest_id x y) = Some status_zero)
      by (rewrite A1; [exact Hmd | lia | left; exact Hcol]).
    destruct (gravity_above_cell s1 (dest_id x y) Hl1 Hd Hs1d)
      as (st' & E2 & _ & B1 & B2 & _).
    assert (Hdi : grid_indices (dest_id x y) = (pixel_cell y, pixel_cell x))
      by (apply grid_indices_id; lia).
    rewrite Hdi in E2. cbn [fst snd] in E2.
    assert (Hrun : handleAction st origin (Num (Int 40)) x y
                   = Some (st', Undefined)).
    { unfold handleAction. rewrite R.
      cbn [mbind option_bind apply_gravity_calls].
      rewrite E1. cbn [mbind option_bind]. rewrite E2. reflexivity. }
    assert (Hsp : spins_remaining st' = spins_remaining mid).
    { pose proof (applyActionGravity_rec_counters _ _ _ _ _ E1) as (_ & C1 & _).
      pose proof (applyActionGravity_rec_counters _ _ _ _ _ E2) as (_ & C2 & _).
      congruence. }
    exists mid, st'. split; [exact R |]. split; [exact Hmd |].
    split; [exact Hmo |]. split; [reflexivity |]. split; [reflexivity |].
    split; [exact Hrun |]. split; [| split].
    + rewrite B1; [| lia | left; congruence].
      rewrite A2. subst mid. rewrite resolved_elsewhere by lia. reflexivity.
    + rewrite B2.
      destruct (Z.ltb_spec (dest_id x y - 5) 0) as [Hneg | Hpos].
      * rewrite !holds_arrow_off_grid by exact Hneg. reflexivity.
      * rewrite A1; [| lia |].
        -- subst mid. rewrite resolved_elsewhere by lia. reflexivity.
        -- left. intros Hbad. apply Hcol. rewrite <- Hbad.
           rewrite !Z.rem_mod_nonneg by lia.
           replace (dest_id x y) with (dest_id x y - 5 + 1 * 5) at 1 by lia.
           apply Z.mod_add. lia.
    + intros n Hn. rewrite Hsp. subst mid. unfold resolved; game_fields.
      rewrite Hn. reflexivity.
  - intros st origin clone_status x y dest_status Hadm Hdest Hc Hsum.
    pose proof (resolve_applied _ _ clone_status _ _ _ Hadm Hdest) as R.
    rewrite Hc in R. specialize (R ltac:(discriminate)).
    destruct Hadm as (_ & _ & _ & Hlen & _).
    destruct (apply_gravity_calls_total
                (gravity_calls (parseInt clone_status) (parseInt dest_status)
                   (dest_id x y - origin) (grid_indices origin)
                   (pixel_cell y) (pixel_cell x) (Int 0)
                   (action_dest_content Cancel (parseInt clone_status)
                                        (parseInt dest_status)))
                (resolved st Cancel (parseInt clone_status)
                          (parseInt dest_status) origin (dest_id x y)))
      as (st' & E & _); [rewrite resolved_length; exact Hlen |].
    exists st'. split.
    + unfold handleAction. rewrite R. cbn [mbind option_bind].
      rewrite E. reflexivity.
    + apply apply_gravity_calls_counters in E as (_ & -> & _).
      unfold resolved; game_fields. cbn [action_bonus]. rewrite Hsum.
      reflexivity.
Qed.

Lemma maximal_arrow_rules_witness :
  exists mid st',
    handleAction_resolve (with_cells [(15, 3); (20, 40); (21, 40)]) 20
                         (Num (Int 40)) (inject_Z 90) (inject_Z 270)
    = Some (Applied mid [(3, 0); (3, 1)])
    /\ cell_status mid 21 = Some (Num (Int 0))
    /\ cell_status mid 20 = Some (Num (Int 0))
    /\ spins_remaining mid = number 4
    /\ score mid = number 514
    /\ handleAction (with_cells [(15, 3); (20, 40); (21, 40)]) 20
                    (Num (Int 40)) (inject_Z 90) (inject_Z 270)
       = Some (st', Undefined)
    /\ cell_status st' 20 = Some AnimatingTo
    /\ cell_status st' 21 = Some (Num (Int 0))
    /\ spins_remaining st' = number 4.
Proof.
  destruct maximal_arrow_rules as (_ & Hmove & _).
  destruct (Hmove (with_cells [(15, 3); (20, 40); (21, 40)]) 20
                  (inject_Z 90) (inject_Z 270))
    as (mid & st' & Hr & Hd & Ho & Hs & Hsc & Hrun & Hso & Hsd & Hn).
  - repeat split; try reflexivity; lia.
  - reflexivity.
  - reflexivity.
  - exists mid, st'.
    split; [exact Hr |]. split; [exact Hd |]. split; [exact Ho |].
    split; [exact Hs |]. split; [exact Hsc |]. split; [exact Hrun |].
    split; [exact Hso |]. split; [exact Hsd |]. apply (Hn 3). reflexivity.
Defined.

(** Two 40s cancelled under an arrow: when [handleAction] returns, the
    source cell 20 is "animatingto", not "0", and the arrow that stood
    above it lands there afterwards. *)
Lemma cancelled_cell_is_refilled :
  classifyAction (Int 40) (Int 40) (21 - 20) = Cancel
  /\ exists st' st'',
       handleAction (with_cells [(15, 3); (20, 40); (21, 40)]) 20
                    (Num (Int 40)) (inject_Z 90) (inject_Z 270)
       = Some (st', Undefined)
       /\ cell_status st' 20 = Some AnimatingTo
       /\ cell_status st' 21 = Some (Num (Int 0))
       /\ settle st' = Some st''
       /\ cell_status st'' 20 = Some (Num (Int 3))
       /\ cell_status st'' 21 = Some (Num (Int 0)).
Proof.
  split; [reflexivity |].
  destruct (handleAction (with_cells [(15, 3); (20, 40); (21, 40)]) 20
                         (Num (Int 40)) (inject_Z 90) (inject_Z 270))
    as [[st' r] |] eqn:E; vm_compute in E; [| discriminate E].
  injection E as <- <-.
  eexists _, _. split; [reflexivity |].
  split; [reflexivity |]. split; [reflexivity |].
  split; [vm_compute; reflexivity |]. split; reflexivity.
Qed.

(** ** A column on its own *)

(** What gravity does in column [j] depends on column [j] only: its cells,
    its lock and its animations in flight. *)
Section ColumnView.

Variable j : Z.
Hypothesis Hj : 0 <= j <= 4.

Ltac split_views H :=
  match type of H with
  | views _ ?o ?o0 =>
      unfold views in H;
      destruct o as [? |] eqn:?, o0 as [? |] eqn:?;
      [| destruct H | destruct H |]
  | views_with _ ?o ?o0 =>
      unfold views_with in H;
      destruct o as [[? ?] |] eqn:?, o0 as [[? ?] |] eqn:?;
      [destruct H as [H ->] | destruct H | destruct H |]
  end.

Lemma view_cell st st0 r :
  column_view j st st0 ->
  cell_status st (grid_id r j) = cell_status st0 (grid_id r j).
Proof.
  intros (L & L0 & C & _).
  destruct (Z.le_gt_cases 0 r) as [H0 | Hneg].
  - destruct (Z.le_gt_cases r 4) as [H4 | Hbig]; [apply C; lia |].
    rewrite !cell_status_eq by (unfold grid_id; lia).
    rewrite !lookup_ge_None_2; [reflexivity | |]; unfold grid_id; lia.
  - unfold cell_status, grid_id.
    destruct (Z.ltb_spec (r * 5 + j) 0); [reflexivity | lia].
Qed.

Lemma view_set_status st st0 r s :
  column_view j st st0 ->
  views j (set_status (grid_id r j) s st) (set_status (grid_id r j) s st0).
Proof.
  intros (L & L0 & C & A & F). unfold set_status. rewrite L, L0.
  destruct ((0 <=? grid_id r j) && (grid_id r j <? Z.of_nat 25)) eqn:Hr;
    [| exact I].
  apply andb_true_iff in Hr as [H0 H25].
  apply Z.leb_le in H0. apply Z.ltb_lt in H25.
  split; [cbn [cells set_cells]; rewrite length_insert; exact L |].
  split; [cbn [cells set_cells]; rewrite length_insert; exact L0 |].
  split; [| split; [exact A | exact F]].
  intros r' Hr'. rewrite !cell_status_insert by lia.
  destruct (grid_id r' j =? grid_id r j); [reflexivity | apply C, Hr'].
Qed.

Lemma view_lock_add st st0 :
  column_view j st st0 ->
  column_view j (set_animating_columns (animating_columns st ++ [j]) st)
              (set_animating_columns (animating_columns st0 ++ [j]) st0).
Proof.
  intros (L & L0 & C & A & F). repeat split; try assumption.
  unfold is_animating; cbn [animating_columns set_animating_columns].
  rewrite !existsb_snoc, Z.eqb_refl, !orb_true_r. reflexivity.
Qed.

Lemma view_lock_remove st st0 :
  column_view j st st0 ->
  column_view j
    (set_animating_columns (remove_element (animating_columns st) j) st)
    (set_animating_columns (remove_element (animating_columns st0) j) st0).
Proof.
  intros (L & L0 & C & A & F). repeat split; try assumption.
  unfold is_animating; cbn [animating_columns set_animating_columns].
  rewrite !existsb_remove_element. reflexivity.
Qed.

Lemma view_start a st st0 :
  anim_j a = j -> column_view j st st0 ->
  column_view j (start_animation a st) (start_animation a st0).
Proof.
  intros Ha (L & L0 & C & A & F). repeat split; try assumption.
  cbn [in_flight start_animation set_in_flight].
  rewrite List.filter_app, F. cbn [List.filter].
  rewrite Ha, Z.eqb_refl. reflexivity.
Qed.

Lemma view_can_be_dropped_to st st0 r :
  column_view j st st0 ->
  can_be_dropped_to r j st = can_be_dropped_to r j st0.
Proof.
  intros V. unfold can_be_dropped_to. rewrite (view_cell _ _ r V).
  reflexivity.
Qed.

Lemma view_getAnimationEnvironment st st0 i :
  column_view j st st0 ->
  views_with j (getAnimationEnvironment i j st)
             (getAnimationEnvironment i j st0).
Proof.
  intros V. unfold getAnimationEnvironment.
  destruct (negb (cell_in_gravity_range i j)); [split; [exact V | reflexivity] |].
  rewrite (view_can_be_dropped_to _ _ (i + 1) V).
  destruct (can_be_dropped_to (i + 1) j st0) as [[|] |];
    cbn [mbind option_bind negb];
    [| split; [exact V | reflexivity] | exact I].
  assert (V1 : column_view j
            (if is_animating st j then st
             else set_animating_columns (animating_columns st ++ [j]) st)
            (if is_animating st0 j then st0
             else set_animating_columns (animating_columns st0 ++ [j]) st0)).
  { pose proof V as (_ & _ & _ & A & _). rewrite A.
    destruct (is_animating st0 j); [exact V | apply view_lock_add, V]. }
  rewrite (view_cell _ _ i V1).
  destruct (cell_status _ (grid_id i j)) as [content |];
    cbn [mbind option_bind]; [| exact I].
  pose proof (view_set_status _ _ i status_zero V1) as V2. split_views V2;
    cbn [mbind option_bind]; [| exact I].
  pose proof (view_set_status _ _ (i + 1) AnimatingTo V2) as V3.
  split_views V3; cbn [mbind option_bind]; [| exact I].
  split; [exact V3 | reflexivity].
Qed.

Lemma view_applyGravitySteps st st0 i :
  column_view j st st0 ->
  views j (applyGravitySteps i j st) (applyGravitySteps i j st0).
Proof.
  intros V. unfold applyGravitySteps.
  pose proof (view_getAnimationEnvironment _ _ i V) as V1. split_views V1;
    cbn [mbind option_bind]; [| exact I].
  match goal with
  | |- context [match ?e with Some _ => _ | None => _ end] => destruct e
  end; [apply view_start; [reflexivity | exact V1] | exact V1].
Qed.

Lemma view_applyActionGravity_rec fuel st st0 i :
  column_view j st st0 ->
  views j (applyActionGravity_rec fuel i j st)
        (applyActionGravity_rec fuel i j st0).
Proof.
  revert i st st0. induction fuel as [| fuel IH]; intros i st st0 V;
    [exact I |].
  cbn [applyActionGravity_rec].
  destruct ((i <? 0) || (j <? 0) || (i >=? 4) || (j >? 4)); [exact V |].
  rewrite (view_cell _ _ i V).
  destruct (cell_status st0 (grid_id i j)) as [s |];
    cbn [mbind option_bind]; [| exact I].
  destruct (is_zero s || is_animatingto s); [exact V |].
  pose proof (view_applyGravitySteps _ _ i V) as V1. split_views V1;
    cbn [mbind option_bind]; [| exact I].
  apply IH, V1.
Qed.

Lemma view_updateGridCell st st0 r c :
  column_view j st st0 ->
  views_with j (updateGridCell r j c st) (updateGridCell r j c st0).
Proof.
  intros V. unfold updateGridCell.
  pose proof V as (_ & _ & _ & A & _). rewrite A.
  destruct (is_animating st0 j); [split; [exact V | reflexivity] |].
  pose proof (view_set_status _ _ r c V) as V1. split_views V1;
    cbn [mbind option_bind]; [| exact I].
  split; [exact V1 | reflexivity].
Qed.

Lemma view_updateEnvironmentMidAnimation st st0 e :
  env_col e = j -> column_view j st st0 ->
  views_with j (updateEnvironmentMidAnimation e st)
             (updateEnvironmentMidAnimation e st0).
Proof.
  intros He V. unfold updateEnvironmentMidAnimation. rewrite He.
  pose proof (view_set_status _ _ (env_row e) status_zero V) as V1.
  split_views V1; cbn [mbind option_bind]; [| exact I].
  pose proof (view_set_status _ _ (env_row e + 1 + 1) AnimatingTo V1) as V2.
  split_views V2; cbn [mbind option_bind]; [| exact I].
  pose proof (view_set_status _ _ (env_row e + 1) status_zero V2) as V3.
  split_views V3; cbn [mbind option_bind]; [| exact I].
  split; [exact V3 | reflexivity].
Qed.

Lemma view_updateEnvironmentPostAnimation st st0 e :
  env_col e = j -> column_view j st st0 ->
  views j (updateEnvironmentPostAnimation e st)
        (updateEnvironmentPostAnimation e st0).
Proof.
  intros He V. unfold updateEnvironmentPostAnimation. rewrite He.
  assert (V1 : column_view j
            (if is_animating st j
             then set_animating_columns
                    (remove_element (animating_columns st) j) st
             else st)
            (if is_animating st0 j
             then set_animating_columns
                    (remove_element (animating_columns st0) j) st0
             else st0)).
  { pose proof V as (_ & _ & _ & A & _). rewrite A.
    destruct (is_animating st0 j); [apply view_lock_remove, V | exact V]. }
  rewrite (view_cell _ _ (env_row e + 1) V1).
  destruct (cell_status _ (grid_id (env_row e + 1) j)) as [next |];
    cbn [mbind option_bind]; [| exact I].
  match goal with
  | |- views _ (mbind _ ?o) (mbind _ ?o0) =>
      assert (V2 : views j o o0)
  end.
  { destruct (is_animatingto next); [| exact V1].
    pose proof (view_updateGridCell _ _ (env_row e + 1) (env_content e) V1)
      as V2.
    split_views V2; cbn; [exact V2 | exact I]. }
  split_views V2; cbn [mbind option_bind]; [| exact I].
  rewrite (view_cell _ _ (env_row e) V2).
  destruct (cell_status _ (grid_id (env_row e) j)) as [cur |];
    cbn [mbind option_bind]; [| exact I].
  destruct (is_zero cur); [apply view_set_status, V2 | exact V2].
Qed.

Lemma view_continue_or_land st st0 a row next :
  anim_j a = j -> env_col (anim_environment a) = j ->
  column_view j st st0 ->
  views j (continue_or_land a row next st) (continue_or_land a row next st0).
Proof.
  intros Ha He V. unfold continue_or_land. rewrite Ha.
  rewrite (view_can_be_dropped_to _ _ row V).
  destruct (can_be_dropped_to row j st0) as [[|] |];
    cbn [mbind option_bind]; [| | exact I].
  - pose proof (view_updateEnvironmentMidAnimation _ _ _ He V) as V1.
    split_views V1; cbn [mbind option_bind fst snd]; [| exact I].
    apply view_start; [reflexivity | exact V1].
  - apply view_updateEnvironmentPostAnimation; assumption.
Qed.

Lemma view_on_finished st st0 a :
  anim_j a = j -> env_col (anim_environment a) = j ->
  column_view j st st0 ->
  views j (on_finished a st) (on_finished a st0).
Proof.
  intros Ha He V. unfold on_finished.
  destruct (anim_stage a);
    first [ apply view_continue_or_land; assumption
          | apply view_updateEnvironmentPostAnimation; assumption ].
Qed.

(** A callback of another column is not seen. *)
Lemma view_other_column st st0 a :
  animation_ok a -> anim_j a <> j -> column_view j st st0 ->
  exists st', on_finished a st = Some st' /\ column_view j st' st0.
Proof.
  intros Hok Hne (L & L0 & C & A & F).
  destruct (on_finished_spec a st L Hok) as (st' & E & (L' & C' & A') & Hfl).
  exists st'. split; [exact E |].
  split; [congruence |]. split; [exact L0 |]. split; [| split].
  - intros r Hr. rewrite C'; [apply C, Hr | unfold grid_id; lia |].
    rewrite grid_id_column by lia. cbn. intuition.
  - rewrite A'; [exact A |]. cbn. intuition.
  - destruct Hfl as [[-> _] | (a' & -> & _ & Ha' & _)]; [exact F |].
    rewrite List.filter_app. cbn [List.filter].
    destruct (Z.eqb_spec (anim_j a') j); [congruence |].
    rewrite app_nil_r. exact F.
Qed.

Lemma view_fire_all l st st0 :
  Forall animation_ok l -> column_view j st st0 ->
  views j (fire_all l st)
        (fire_all (List.filter (fun a => anim_j a =? j) l) st0).
Proof.
  revert st st0. induction l as [| a l IH]; intros st st0 Hok V;
    [exact V |].
  apply Forall_cons in Hok as [Ha Hl]. cbn [fire_all List.filter].
  destruct (Z.eqb_spec (anim_j a) j) as [Haj | Haj].
  - cbn [fire_all].
    pose proof (view_on_finished _ _ a Haj
                  ltac:(destruct Ha as (_ & _ & He & _); congruence) V) as V1.
    split_views V1; cbn [mbind option_bind]; [| exact I].
    apply IH; assumption.
  - destruct (view_other_column _ _ a Ha Haj V) as (st' & -> & V1).
    cbn [mbind option_bind]. apply IH; assumption.
Qed.

Lemma view_rest st st0 :
  in_flight st0 = [] -> column_view j st (set_in_flight [] st0) ->
  column_view j st st0.
Proof.
  intros E (L & L0 & C & A & F). repeat split; try assumption.
  rewrite E. exact F.
Qed.

Lemma view_frame st st0 :
  board_ok st -> column_view j st st0 ->
  views j (frame st) (frame st0).
Proof.
  intros (_ & Hfl & _) V. unfold frame.
  pose proof V as (L & L0 & C & A & F). rewrite F.
  apply view_fire_all; [exact Hfl |].
  repeat split; assumption.
Qed.

Lemma run_frames_rest n st : in_flight st = [] -> run_frames n st = Some st.
Proof. intros E. destruct n; cbn [run_frames]; [| rewrite E]; reflexivity. Qed.

Lemma view_run_frames n st st0 :
  board_ok st -> column_view j st st0 ->
  views j (run_frames n st) (run_frames n st0).
Proof.
  revert st st0. induction n as [| n IH]; intros st st0 Hok V; [exact V |].
  destruct (in_flight st) as [| a l] eqn:Hfl.
  { pose proof V as (_ & _ & _ & _ & F). rewrite Hfl in F.
    rewrite !run_frames_rest by assumption. exact V. }
  destruct (frame_ok st Hok) as (st1 & E & Hok1 & _).
  pose proof (view_frame _ _ Hok V) as V1. rewrite E in V1.
  cbn [run_frames]. rewrite Hfl, E. cbn [mbind option_bind].
  destruct (in_flight st0) as [| a0 l0] eqn:Hfl0.
  - unfold frame in V1. rewrite Hfl0 in V1. cbn [fire_all views] in V1.
    apply view_rest in V1; [| exact Hfl0].
    specialize (IH _ _ Hok1 V1).
    rewrite (run_frames_rest n st0 Hfl0) in IH. exact IH.
  - cbn [run_frames]. unfold views in V1.
    destruct (frame st0) as [st01 |]; [| destruct V1].
    cbn [mbind option_bind]. apply IH; assumption.
Qed.

Lemma view_column st st0 :
  column_view j st st0 -> column st j = column st0 j.
Proof.
  intros V. unfold column. cbn [map].
  rewrite !(view_cell _ _ _ V). reflexivity.
Qed.

Lemma view_floating st st0 r :
  column_view j st st0 -> floating st r j = floating st0 r j.
Proof.
  intros V. unfold floating. rewrite !(view_cell _ _ _ V). reflexivity.
Qed.

Lemma view_settled_column st st0 :
  column_view j st st0 -> settled_column st j = settled_column st0 j.
Proof.
  intros V. unfold settled_column. cbn [forallb].
  rewrite !(view_floating _ _ _ V). reflexivity.
Qed.

Lemma view_only_floating st st0 i :
  column_view j st st0 -> only_floating st i j = only_floating st0 i j.
Proof.
  intros V. unfold only_floating. cbn [forallb].
  rewrite !(view_floating _ _ _ V). reflexivity.
Qed.

Lemma view_insertNewArrow st st0 i content :
  column_view j st st0 ->
  views_with j (insertNewArrow i j content st)
             (insertNewArrow i j content st0).
Proof.
  intros V. unfold insertNewArrow.
  pose proof V as (_ & _ & _ & A & _). rewrite A.
  destruct (is_animating st0 j); [split; [exact V | reflexivity] |].
  destruct ((i <? 0) || (j <? 0) || (i >? 4) || (j >? 4));
    [split; [exact V | reflexivity] |].
  rewrite (view_cell _ _ i V).
  destruct (cell_status st0 (grid_id i j)) as [s |];
    cbn [mbind option_bind]; [| exact I].
  destruct (negb (is_zero s)); [split; [exact V | reflexivity] |].
  pose proof (view_set_status _ _ i content V) as V1. split_views V1;
    cbn [mbind option_bind]; [| exact I].
  pose proof (view_applyGravitySteps _ _ i V1) as V2. split_views V2;
    cbn [mbind option_bind]; [| exact I].
  split; [exact V2 | reflexivity].
Qed.

(** A quiet column of a well formed board, seen on the stilled board. *)
Lemma view_stilled st :
  board_ok st -> column_quiet st j = true -> column_view j st (stilled st).
Proof.
  intros (L & _ & Hlock) Hq. unfold column_quiet in Hq.
  split; [exact L |]. split; [exact L |]. split; [reflexivity |].
  split.
  - destruct (is_animating st j) eqn:Ha; [| reflexivity].
    apply Hlock in Ha. cbn [app] in Ha. apply Exists_exists in Ha
      as (a & Hin & Haj).
    rewrite forallb_forall in Hq. apply list_elem_of_In in Hin.
    specialize (Hq a Hin). rewrite Haj, Z.eqb_refl in Hq. discriminate Hq.
  - cbn [in_flight stilled set_in_flight]. clear Hlock.
    induction (in_flight st) as [| a l IH]; [reflexivity |].
    cbn [forallb List.filter] in *. apply andb_true_iff in Hq as [Ha Hl].
    destruct (anim_j a =? j); [discriminate Ha | apply IH, Hl].
Qed.

End ColumnView.

(** Every animation of a well formed board is over after four frames. *)
Lemma settle_ends st :
  board_ok st -> exists st', settle st = Some st' /\ in_flight st' = [].
Proof.
  intros Hok. unfold settle.
  destruct (run_frames_ok (map anim_j (in_flight st)) 4 0 st Hok)
    as (st' & E & _ & Hfl & _); [| lia |].
  { apply Forall_forall. intros a Ha. split.
    - destruct (anim_stage a); cbn; lia.
    - apply in_map, list_elem_of_In, Ha. }
  exists st'. split; [exact E | exact Hfl].
Qed.

(** C8, as the code has it.  Take a well formed board and a column [j]
    whose cells all hold numbers and which has no animation in flight
    (other columns may still be animating).  After [applyActionGravity i j]
    and every animation frame it causes (callbacks of animations that end in
    the same frame run in the order the animations were started) no
    animation is left in flight, and column [j] is settled exactly when row
    [i] was the only row whose cell was not empty with an empty cell
    directly beneath it, that is, when the column was settled but for the
    cells vacated under row [i], one or several; the column then holds the
    same arrows in the same order, dropped to the bottom.  A new arrow
    placed by [insertNewArrow] in a settled column leaves it settled as
    well. *)
Theorem gravity_settles_ready_column st j :
  board_ok st -> 0 <= j <= 4 -> column_quiet st j = true ->
  forallb is_numeral (column st j) = true ->
  (forall i,
     exists col,
       gravity_outcome st i j = Some ([], only_floating st i j, col)
       /\ (only_floating st i j = true -> col = compact (column st j)))
  /\ (forall i z,
        settled_column st j = true ->
        exists accepted : bool,
          drop_outcome st i j (Num (Int z))
          = Some (accepted, [], true,
                  if accepted
                  then compact (<[Z.to_nat i := Some (Num (Int z))]>
                                  (column st j))
                  else column st j)).
Proof.
  intros Hok Hj Hq Hnum.
  pose proof (view_stilled j st Hok Hq) as V.
  assert (Hlen0 : length (cells (stilled st)) = 25%nat) by apply Hok.
  assert (Hrest0 : at_rest (stilled st)) by (split; reflexivity).
  assert (Hnum0 : forallb is_numeral (column (stilled st) j) = true)
    by exact Hnum.
  split.
  - intros i.
    destruct (action_gravity_outcome (stilled st) i j Hlen0 Hj Hrest0 Hnum0)
      as (col & E0 & Hcol).
    exists col. split; [| exact Hcol].
    unfold gravity_outcome in E0 |- *.
    destruct (applyActionGravity_ok i j st Hok) as (st1 & E1 & Hok1 & _).
    pose proof (view_applyActionGravity_rec j Hj 5 _ _ i V) as V1.
    fold (applyActionGravity i j st) in V1.
    fold (applyActionGravity i j (stilled st)) in V1.
    rewrite E1 in V1 |- *. unfold views in V1.
    destruct (applyActionGravity i j (stilled st)) as [st01 |];
      [| destruct V1].
    cbn [mbind option_bind] in E0 |- *.
    destruct (settle_ends st1 Hok1) as (st2 & E2 & Hfl2).
    pose proof (view_run_frames j Hj 4 _ _ Hok1 V1) as V2.
    fold (settle st1) in V2. fold (settle st01) in V2.
    rewrite E2 in V2 |- *. unfold views in V2.
    destruct (settle st01) as [st02 |]; [| destruct V2].
    cbn [mbind option_bind] in E0 |- *.
    injection E0 as _ Hs Hc.
    rewrite Hfl2, (view_settled_column j Hj _ _ V2), (view_column j Hj _ _ V2).
    rewrite Hs, Hc. reflexivity.
  - intros i z Hset.
    destruct (new_arrow_outcome (stilled st) i j z Hlen0 Hj Hrest0 Hnum0 Hset)
      as (accepted & E0).
    exists accepted. unfold drop_outcome in E0 |- *.
    destruct (insertNewArrow_ok i j (Num (Int z)) st Hok)
      as (st1 & ok & E1 & Hok1 & _).
    pose proof (view_insertNewArrow j Hj _ _ i (Num (Int z)) V) as V1.
    rewrite E1 in V1 |- *. unfold views_with in V1.
    destruct (insertNewArrow i j (Num (Int z)) (stilled st))
      as [[st01 ok0] |]; [| destruct V1].
    destruct V1 as [V1 ->].
    cbn [mbind option_bind fst snd] in E0 |- *.
    destruct (settle_ends st1 Hok1) as (st2 & E2 & Hfl2).
    pose proof (view_run_frames j Hj 4 _ _ Hok1 V1) as V2.
    fold (settle st1) in V2. fold (settle st01) in V2.
    rewrite E2 in V2 |- *. unfold views in V2.
    destruct (settle st01) as [st02 |]; [| destruct V2].
    cbn [mbind option_bind] in E0 |- *.
    injection E0 as Ha _ Hs Hc.
    rewrite Hfl2, (view_settled_column j Hj _ _ V2), (view_column j Hj _ _ V2).
    rewrite Hs, Hc, Ha. reflexivity.
Qed.

Lemma gravity_settles_ready_column_witness :
  (forall i,
     exists col,
       gravity_outcome cancel_under_way i 1
       = Some ([], only_floating cancel_under_way i 1, col)
       /\ (only_floating cancel_under_way i 1 = true ->
           col = compact (column cancel_under_way 1)))
  /\ settled_column cancel_under_way 2 = true
  /\ (forall i z,
        exists accepted : bool,
          drop_outcome cancel_under_way i 2 (Num (Int z))
          = Some (accepted, [], true,
                  if accepted
                  then compact (<[Z.to_nat i := Some (Num (Int z))]>
                                  (column cancel_under_way 2))
                  else column cancel_under_way 2)).
Proof.
  assert (Hok : board_ok cancel_under_way).
  { split; [reflexivity |]. split.
    - repeat constructor; unfold animation_ok; cbn; lia.
    - intros j Hj. cbn. constructor.
      unfold is_animating in Hj. cbn in Hj.
      destruct (Z.eqb_spec j 0); [cbn; congruence | discriminate Hj]. }
  split; [| split; [reflexivity |]].
  - apply (gravity_settles_ready_column cancel_under_way 1);
      [exact Hok | lia | reflexivity | reflexivity].
  - intros i z.
    apply (gravity_settles_ready_column cancel_under_way 2);
      [exact Hok | lia | reflexivity | reflexivity | reflexivity].
Defined.

(** [cancel_under_way] is where [handleAction] stands between its two
    gravity calls, and the second call settles column 1 while column 0 is
    still animating. *)
Example second_gravity_call :
  (exists mid,
     handleAction_resolve two_maximal_arrows 20 (Num (Int 40))
                          (inject_Z 90) (inject_Z 270)
     = Some (Applied mid [(3, 0); (3, 1)])
     /\ applyActionGravity 3 0 mid = Some cancel_under_way)
  /\ is_animating cancel_under_way 0 = true
  /\ length (in_flight cancel_under_way) = 2%nat
  /\ column cancel_under_way 1
     = [Some (Num (Int 0)); Some (Num (Int 0)); Some (Num (Int 4));
        Some (Num (Int 7)); Some (Num (Int 0))]
  /\ only_floating cancel_under_way 3 1 = true
  /\ gravity_outcome cancel_under_way 3 1
     = Some ([], true,
             [Some (Num (Int 0)); Some (Num (Int 0)); Some (Num (Int 0));
              Some (Num (Int 4)); Some (Num (Int 7))]).
Proof.
  split.
  { destruct (handleAction_resolve two_maximal_arrows 20 (Num (Int 40))
                                   (inject_Z 90) (inject_Z 270))
      as [[| | mid calls] |] eqn:E; vm_compute in E; try discriminate E.
    injection E as <- <-. eexists. split; [reflexivity |].
    vm_compute. reflexivity. }
  split; [reflexivity |]. split; [reflexivity |].
  split; [reflexivity |]. split; vm_compute; reflexivity.
Qed.

(** ** A restored score *)


(** The same saved game with a numeric score: the amounts are added. *)
Example restored_numeric_score :
  exists st0 st1 st2,
    initializeGame_saved (Int 3) (Int 0) saved_bottom_row new_game
    = Some st0
    /\ handleAction st0 20 (Num (Int 40)) (inject_Z 90) (inject_Z 270)
       = Some (st1, Undefined)
    /\ score st1 = number 514
    /\ handleAction st1 22 (Num (Int 8)) (inject_Z 210) (inject_Z 270)
       = Some (st2, Undefined)
    /\ score st2 = number 516.
Proof.
  destruct (initializeGame_saved (Int 3) (Int 0) saved_bottom_row
                                 new_game)
    as [st0 |] eqn:E0; vm_compute in E0; [| discriminate E0].
  injection E0 as <-.
  eexists _, _, _. split; [reflexivity |].
  split; [vm_compute; reflexivity |]. split; [reflexivity |].
  split; [vm_compute; reflexivity |]. reflexivity.
Qed.
